(** * esp_dmx: the RDM packet codec, parameter encoder, parameter table and
      controller request path, embedded in Rocq.

    The development follows the C sources function by function:

    - [EspRdm]  embeds [rdm_parse] and [rdm_send_disc_response] of esp_rdm.c
      (the file in which [rdm_uid_t] is a 64-bit integer);
    - [Utils]   embeds rdm/utils.c: [rdm_uid_get], [rdm_param_parse],
      [rdm_pd_emplace], [rdm_pd_alloc], [rdm_register_parameter],
      [rdm_get_parameter] and [rdm_send_request].

    Fixed-width C integers are integers of [Z] with the wrap-around written
    out ([u8], [u16], [u32]); the target is the little-endian 32-bit ESP32, so
    [size_t] is 32 bits wide and the bytes of an integer object are its
    little-endian digits. *)

From Stdlib Require Import ZArith List Lia Bool String Ascii.
From stdpp Require Import base list.
Import ListNotations.
Open Scope Z_scope.

(** ** Machine integers *)

Definition u8 (x : Z) : Z := x mod 2 ^ 8.
Definition u16 (x : Z) : Z := x mod 2 ^ 16.
Definition u32 (x : Z) : Z := x mod 2 ^ 32.

(** The bytes of an integer object as [(uint8_t * )&x] sees them on a
    little-endian target, and the value such bytes stand for. *)
Fixpoint le_bytes (n : nat) (v : Z) : list Z :=
  match n with
  | O => []
  | S n' => v mod 256 :: le_bytes n' (v / 256)
  end.

Fixpoint le_value (bs : list Z) : Z :=
  match bs with
  | [] => 0
  | b :: bs' => b + 256 * le_value bs'
  end.

(** [p[i]] for a byte pointer [p] into a buffer. *)
Definition byte_at (buf : list Z) (i : nat) : Z := nth i buf 0.

Module EspRdm.

(** Modelled from the spec: the constants of rdm_constants.h, which is not
    among the sources. The preamble byte is 0xfe and the delimiter 0xaa, the
    start code 0xcc and the sub-start code 0x01; a packet without parameter
    data is 24 bytes of header and 2 of checksum; DISC_UNIQUE_BRANCH is PID
    0x0001 of the discovery command class 0x10, whose response class is one
    more. *)
Definition RDM_PREAMBLE : Z := 0xfe.
Definition RDM_DELIMITER : Z := 0xaa.
Definition RDM_SC : Z := 0xcc.
Definition RDM_SUB_SC : Z := 0x01.
Definition RDM_BASE_PACKET_SIZE : Z := 26.
Definition RDM_CC_DISC_COMMAND_RESPONSE : Z := 0x11.
Definition RDM_PID_DISC_UNIQUE_BRANCH : Z := 0x0001.

(** [rdm_event_t]: the fields [rdm_parse] writes. *)
Record rdm_event_t := mk_event {
  destination_uid : Z;
  source_uid : Z;
  tn : Z;
  port_id : Z;
  message_count : Z;
  sub_device : Z;
  cc : Z;
  pid : Z;
  pdl : Z;
  checksum_is_valid : bool
}.

(** The loop [for (; preamble_len < 7; ++preamble_len)] that stops at the
    first delimiter; [remaining] counts the iterations left. *)
Fixpoint preamble_scan (response : list Z) (preamble_len remaining : nat) : nat :=
  match remaining with
  | O => preamble_len
  | S r =>
      if byte_at response preamble_len =? RDM_DELIMITER then preamble_len
      else preamble_scan response (S preamble_len) r
  end.

(** The loop [for (int i = 5, j = 0; i >= 0; --i, j += 2)] over the bytes of
    [uid]; [count] is the number of iterations left, [uid] the object's
    bytes. *)
Fixpoint decode_uid_loop (response : list Z) (count i j : nat)
    (uid : list Z) (sum : Z) : list Z * Z :=
  match count with
  | O => (uid, sum)
  | S count' =>
      let uid1 := <[i := Z.land (byte_at response j) 0x55]> uid in
      let uid2 :=
        <[i := Z.lor (byte_at uid1 i) (Z.land (byte_at response (j + 1)) 0xaa)]> uid1 in
      let sum' := u16 (sum + (byte_at uid2 i + 0xff)) in
      decode_uid_loop response count' (i - 1) (j + 2) uid2 sum'
  end.

(** The loop [for (int i = 1, j = 12; i >= 0; --i, j += 2)] over the two
    bytes of [checksum]. *)
Fixpoint decode_checksum_loop (response : list Z) (count i j : nat)
    (checksum : list Z) : list Z :=
  match count with
  | O => checksum
  | S count' =>
      let c1 := <[i := Z.land (byte_at response j) 0x55]> checksum in
      let c2 :=
        <[i := Z.lor (byte_at c1 i) (Z.land (byte_at response (j + 1)) 0xaa)]> c1 in
      decode_checksum_loop response count' (i - 1) (j + 2) c2
  end.

(** What the discovery branch of [rdm_parse] computes from the bytes after
    the delimiter: the UID, the recomputed sum and the decoded checksum. *)
Definition disc_decode (response : list Z) : Z * Z * Z :=
  let '(uid, sum) := decode_uid_loop response 6 5 0 (le_bytes 8 0) 0 in
  let checksum := decode_checksum_loop response 2 1 12 [0; 0] in
  (le_value uid, sum, le_value checksum).

(** The 16-bit sum of the first [n] bytes of a packet. *)
Fixpoint packet_sum (data : list Z) (n : nat) : Z :=
  match n with
  | O => 0
  | S n' => u16 (packet_sum data n' + byte_at data n')
  end.

(** [bswap16] of a 16-bit field of [rdm_data_t]: the field read big-endian. *)
Definition be16_at (data : list Z) (i : nat) : Z :=
  byte_at data i * 256 + byte_at data (i + 1).

(** Modelled from the spec: [buf_to_uid], which is not among the sources. A
    UID is six bytes on the wire, big-endian. *)
Definition buf_to_uid (data : list Z) (i : nat) : Z :=
  le_value (rev (firstn 6 (skipn i data ++ repeat 0 6))).

(** [rdm_parse]: [data] and [event] are pointers, [None] being NULL. The
    result is the returned flag and the event as the call leaves it. *)
Definition rdm_parse (data : option (list Z)) (size : Z)
    (event : option rdm_event_t) : bool * option rdm_event_t :=
  match data, event with
  | None, _ => (false, event)
  | _, None => (false, event)
  | Some data, Some ev =>
      let sc := byte_at data 0 in
      if ((sc =? RDM_PREAMBLE) || (sc =? RDM_DELIMITER)) && (17 <? size) then
        let preamble_len := preamble_scan data 0 7 in
        if negb (byte_at data preamble_len =? RDM_DELIMITER)
           || (size <? Z.of_nat preamble_len + 17)
        then (false, event)
        else
          let response := skipn (preamble_len + 1) data in
          let '(uid, sum, checksum) := disc_decode response in
          (sum =? checksum,
           Some {| destination_uid := destination_uid ev;
                   source_uid := uid;
                   tn := tn ev;
                   port_id := port_id ev;
                   message_count := message_count ev;
                   sub_device := sub_device ev;
                   cc := RDM_CC_DISC_COMMAND_RESPONSE;
                   pid := RDM_PID_DISC_UNIQUE_BRANCH;
                   pdl := pdl ev;
                   checksum_is_valid := (sum =? checksum) |})
      else if (sc =? RDM_SC) && (byte_at data 1 =? RDM_SUB_SC)
              && (RDM_BASE_PACKET_SIZE <=? size) then
        let message_len := byte_at data 2 in
        let sum := packet_sum data (Z.to_nat message_len) in
        let checksum := be16_at data (Z.to_nat message_len) in
        (sum =? checksum,
         Some {| destination_uid := buf_to_uid data 3;
                 source_uid := buf_to_uid data 9;
                 tn := byte_at data 15;
                 port_id := byte_at data 16;
                 message_count := byte_at data 17;
                 sub_device := be16_at data 18;
                 cc := byte_at data 20;
                 pid := be16_at data 21;
                 pdl := byte_at data 23;
                 checksum_is_valid := (sum =? checksum) |})
      else (false, event)
  end.

(** The loop [for (int i = 8, j = 5; i < 20; i += 2, --j)] of
    [rdm_send_disc_response]. *)
Fixpoint encode_uid_loop (uid : list Z) (count i j : nat)
    (response : list Z) (checksum : Z) : list Z * Z :=
  match count with
  | O => (response, checksum)
  | S count' =>
      let r1 := <[i := u8 (Z.lor (byte_at uid j) 0xaa)]> response in
      let r2 := <[(i + 1)%nat := u8 (Z.lor (byte_at uid j) 0x55)]> r1 in
      let checksum' := u16 (checksum + (byte_at uid j + (0xaa + 0x55))) in
      encode_uid_loop uid count' (i + 2) (j - 1) r2 checksum'
  end.

(** The 24-byte array [response] that [rdm_send_disc_response] builds. *)
Definition disc_response_frame (uid : Z) : list Z :=
  let response0 := repeat RDM_PREAMBLE 7 ++ [RDM_DELIMITER] ++ repeat 0 16 in
  let '(r, checksum) := encode_uid_loop (le_bytes 8 uid) 6 8 5 response0 0 in
  let r20 := <[20%nat := u8 (Z.lor (Z.shiftr checksum 8) 0xaa)]> r in
  let r21 := <[21%nat := u8 (Z.lor (Z.shiftr checksum 8) 0x55)]> r20 in
  let r22 := <[22%nat := u8 (Z.lor checksum 0xaa)]> r21 in
  <[23%nat := u8 (Z.lor checksum 0x55)]> r22.

(** [rdm_send_disc_response]: the two argument checks, then the frame handed
    to [dmx_write]; [None] is the early return of 0. *)
Definition rdm_send_disc_response (DMX_NUM_MAX dmx_num : Z)
    (driver_is_installed : bool) (uid : Z) : option (list Z) :=
  if negb (dmx_num <? DMX_NUM_MAX) then None
  else if negb driver_is_installed then None
  else Some (disc_response_frame uid).

(** The additive checksum of a UID: each of its six bytes plus 0xff. *)
Definition uid_checksum (u : Z) : Z :=
  fold_right (fun b acc => b + 0xff + acc) 0 (firstn 6 (le_bytes 8 u)).

(** The frame of the discovery response decode scenario. *)
Definition scenario_frame : list Z :=
  [0xfe; 0xfe; 0xfe; 0xfe; 0xfe; 0xfe; 0xfe; 0xaa;
   0xab; 0x57; 0xab; 0x57; 0xab; 0x57; 0xab; 0x57;
   0xf5; 0xaa; 0xf5; 0xaa; 0xf5; 0xaa; 0xf5; 0xaa].

Definition event_zero : rdm_event_t := mk_event 0 0 0 0 0 0 0 0 0 false.

End EspRdm.

Module Utils.

(** ** Build configuration and target constants

    The constants rdm/utils.c takes from headers and from the build
    configuration: they are parameters of the model. *)
Record config := mk_config {
  DMX_NUM_MAX : Z;                 (* number of DMX ports *)
  RDM_UID_MANUFACTURER_ID : Z;
  RDM_UID_DEVICE_ID : Z;           (* 0xffffffff: derive the id from the MAC *)
  RDM_UID_DEVICE_UID : Z;          (* the id used otherwise *)
  mac : list Z;                    (* esp_efuse_mac_get_default *)
  RDM_RESPONDER_PIDS_MAX : nat;    (* capacity of the parameter table *)
  RDM_DS_ASCII : Z;
  configTICK_RATE_HZ : Z
}.

(** ** UIDs (rdm/types.h and the inline functions of rdm/utils.h) *)

Record rdm_uid_t := mk_uid {
  man_id : Z;   (* uint16_t *)
  dev_id : Z    (* uint32_t *)
}.

Definition rdm_uid_is_eq (a b : rdm_uid_t) : bool :=
  (man_id a =? man_id b) && (dev_id a =? dev_id b).

Definition rdm_uid_is_broadcast (uid : rdm_uid_t) : bool :=
  dev_id uid =? 0xffffffff.

Definition rdm_uid_is_null (uid : rdm_uid_t) : bool :=
  (man_id uid =? 0) && (dev_id uid =? 0).

Definition rdm_uid_is_target (uid alias : rdm_uid_t) : bool :=
  (((man_id alias =? 0xffff) || (man_id alias =? man_id uid))
   && (dev_id alias =? 0xffffffff))
  || rdm_uid_is_eq uid alias.

(** [bswap32( *(uint32_t * )(mac + 2))]: the bytes 2..5 of the MAC read as a
    big-endian number. *)
Definition mac_dev_id (m : list Z) : Z :=
  le_value (rev (firstn 4 (skipn 2 m ++ repeat 0 4))).

(** [rdm_uid_get]. The global [rdm_binding_uid] is threaded through; [uid] is
    the out pointer, [None] being NULL. The result is the binding UID after
    the call and what [uid] points to after the call. *)
Definition rdm_uid_get (cfg : config) (rdm_binding_uid : rdm_uid_t)
    (dmx_num : Z) (uid : option rdm_uid_t) : rdm_uid_t * option rdm_uid_t :=
  let binding :=
    if rdm_uid_is_null rdm_binding_uid then
      let dev :=
        if RDM_UID_DEVICE_ID cfg =? 0xffffffff then mac_dev_id (mac cfg)
        else RDM_UID_DEVICE_UID cfg in
      {| man_id := RDM_UID_MANUFACTURER_ID cfg; dev_id := dev |}
    else rdm_binding_uid in
  match uid with
  | None => (binding, None)
  | Some _ =>
      if DMX_NUM_MAX cfg <=? dmx_num then (binding, uid)
      else
        let last_octet := u8 (dev_id binding) in
        let last_octet := u8 (last_octet + dmx_num) in
        let dev := Z.land (dev_id binding) 0xffffff00 in
        (binding, Some {| man_id := man_id binding;
                          dev_id := Z.lor dev last_octet |})
  end.

(** ** Memory

    Buffers are reached through [void *] pointers: memory is a map from
    addresses to bytes and a pointer is an address, 0 being NULL. *)
Definition mem := Z -> Z.
Definition NULL : Z := 0.

Definition store8 (m : mem) (p v : Z) : mem :=
  fun a => if a =? p then v else m a.

Fixpoint load_bytes (m : mem) (p : Z) (n : nat) : list Z :=
  match n with
  | O => []
  | S n' => m p :: load_bytes m (p + 1) n'
  end.

Fixpoint store_bytes (m : mem) (p : Z) (bs : list Z) : mem :=
  match bs with
  | [] => m
  | b :: bs' => store_bytes (store8 m p b) (p + 1) bs'
  end.

(** [memmove] and [memcpy]: the source bytes are read before any is
    written. *)
Definition memmove (m : mem) (dst src : Z) (n : nat) : mem :=
  store_bytes m dst (load_bytes m src n).

(** [strnlen(p, maxlen)]. *)
Fixpoint strnlen (m : mem) (p : Z) (maxlen : nat) : nat :=
  match maxlen with
  | O => O
  | S k => if m p =? 0 then O else S (strnlen m (p + 1) k)
  end.

(** [*(uintN_t * )dst = bswapN( *(uintN_t * )src)]: the bytes in reverse
    order. *)
Definition copy_swapped (m : mem) (dst src : Z) (n : nat) : mem :=
  store_bytes m dst (rev (load_bytes m src n)).

(** [rdm_uidmove]: the 16-bit and the 32-bit halves of the six-byte packed
    [rdm_uid_t] are byte-swapped separately. *)
Definition rdm_uidmove (m : mem) (destination source : Z) : mem :=
  let man := load_bytes m source 2 in
  let dev := load_bytes m (source + 2) 4 in
  store_bytes (store_bytes m destination (rev man)) (destination + 2) (rev dev).

(** [rdm_uid_is_null] on a UID in memory. *)
Definition uid_at_is_null (m : mem) (p : Z) : bool :=
  (le_value (load_bytes m p 2) =? 0) && (le_value (load_bytes m (p + 2) 4) =? 0).

(** ** Format strings *)

Definition is_chr (c : ascii) (l : list ascii) : bool := existsb (Ascii.eqb c) l.

Definition isxdigit (c : ascii) : bool :=
  is_chr c (list_ascii_of_string "0123456789abcdefABCDEF").

Definition hex_digit_value (c : ascii) : Z :=
  let n := Z.of_nat (nat_of_ascii c) in
  if (48 <=? n) && (n <=? 57) then n - 48
  else if (97 <=? n) && (n <=? 102) then n - 87
  else n - 55.

(** The number of leading hexadecimal digits of [f], at most [limit]. With
    [limit = 17] this is the loop
    [for (; num_chars <= 16; ++num_chars) if (!isxdigit(f[num_chars])) break;]. *)
Fixpoint count_xdigits (limit : nat) (f : list ascii) : nat :=
  match limit, f with
  | S l, c :: f' => if isxdigit c then S (count_xdigits l f') else O
  | _, _ => O
  end.

(** [rdm_param_parse]. [f] is the rest of the format from the loop pointer
    on, the empty list being the terminating NUL. The result is the returned
    size as [rdm_pd_emplace] reads it into an [int] (so the [-1] of the
    misplaced string is [-1]) and [*is_singleton]. [fuel] bounds the number of
    iterations; [None] only when it runs out. *)
Fixpoint param_parse_loop (fuel : nat) (f : list ascii) (is_singleton : bool)
    (param_size : Z) : option (Z * bool) :=
  match fuel with
  | O => None
  | S fuel' =>
      match f with
      | [] => Some (param_size, is_singleton)
      | c :: f1 =>
          (* the size check and the increment that end the loop body *)
          let next (field_size : Z) (singleton : bool) (rest : list ascii) :=
            if 231 <? param_size + field_size then Some (0, singleton)
            else param_parse_loop fuel' rest singleton (param_size + field_size) in
          let at_end :=
            match f1 with
            | [] => true
            | c1 :: _ => Ascii.eqb c1 "$"
            end in
          if is_chr c ["b"; "B"]%char then next 1 is_singleton f1
          else if is_chr c ["w"; "W"]%char then next 2 is_singleton f1
          else if is_chr c ["d"; "D"]%char then next 4 is_singleton f1
          else if is_chr c ["u"; "U"]%char then next 6 is_singleton f1
          else if is_chr c ["v"; "V"]%char then
            if negb at_end then Some (0, is_singleton)
            else next 6 true f1
          else if is_chr c ["a"; "A"]%char then
            if negb at_end then Some (-1, is_singleton)
            else next 32 true f1
          else if Ascii.eqb c "#" then
            let num_chars := count_xdigits 17 f1 in
            if (16 <? num_chars)%nat then Some (0, is_singleton)
            else
              let field_size := Z.of_nat (num_chars / 2 + num_chars mod 2) in
              match skipn num_chars f1 with
              | c2 :: f3 =>
                  if is_chr c2 ["h"; "H"]%char then next field_size is_singleton f3
                  else Some (0, is_singleton)
              | [] => Some (0, is_singleton)
              end
          else if Ascii.eqb c "$" then
            match f1 with
            | [] => next 0 true f1
            | _ :: _ => Some (0, is_singleton)
            end
          else Some (0, is_singleton)
      end
  end.

Definition rdm_param_parse (format : list ascii) : option (Z * bool) :=
  param_parse_loop (S (length format)) format
    (match format with [] => true | _ => false end) 0.

(** [strtol(f, &end_ptr, 16)] on the digits of a literal: the value, which
    saturates at [LONG_MAX] of the 32-bit target, and [end_ptr - f]. A literal
    that [rdm_param_parse] accepted is a run of hexadecimal digits closed by
    an [h], so the conversion consumes exactly that run. *)
Definition LONG_MAX : Z := 2 ^ 31 - 1.

Definition strtol16 (f : list ascii) : Z * nat :=
  let consumed := count_xdigits (length f) f in
  let value :=
    fold_left (fun acc c => acc * 16 + hex_digit_value c) (firstn consumed f) 0 in
  (Z.min value LONG_MAX, consumed).

(** The bytes [((uint8_t * )&literal)[k]] for [k = literal_len - 1] down to 0. *)
Definition literal_bytes (literal : Z) (literal_len : nat) : list Z :=
  rev (le_bytes literal_len literal).

(** The inner loop of [rdm_pd_emplace] over the format, from the loop pointer
    [f] on; [m] is the memory and [n] the number of bytes emplaced so far.
    [fuel] bounds the number of iterations; [None] only when it runs out. *)
Fixpoint emplace_fields (fuel : nat) (destination source num : Z)
    (emplace_nulls : bool) (f : list ascii) (m : mem) (n : Z) : option (mem * Z) :=
  match fuel with
  | O => None
  | S fuel' =>
      let continue := emplace_fields fuel' destination source num emplace_nulls in
      match f with
      | [] => Some (m, n)
      | c :: f1 =>
          if is_chr c ["b"; "B"]%char then
            let m1 := if destination =? NULL then m
                      else copy_swapped m (destination + n) (source + n) 1 in
            continue f1 m1 (n + 1)
          else if is_chr c ["w"; "W"]%char then
            let m1 := if destination =? NULL then m
                      else copy_swapped m (destination + n) (source + n) 2 in
            continue f1 m1 (n + 2)
          else if is_chr c ["d"; "D"]%char then
            let m1 := if destination =? NULL then m
                      else copy_swapped m (destination + n) (source + n) 4 in
            continue f1 m1 (n + 4)
          else if is_chr c ["u"; "U"; "v"; "V"]%char then
            if is_chr c ["v"; "V"]%char && negb emplace_nulls
               && negb (source =? NULL) && uid_at_is_null m (source + n)
            then Some (m, n)                                    (* break *)
            else
              let m1 := if negb (destination =? NULL) && negb (source =? NULL)
                        then rdm_uidmove m (destination + n) (source + n)
                        else m in
              continue f1 m1 (n + 6)
          else if is_chr c ["a"; "A"]%char then
            let len :=
              if negb (source =? NULL) then
                let max_len := if u32 (num - n) <? 32 then u32 (num - n) else 32 in
                strnlen m (source + n) (Z.to_nat max_len)
              else 32%nat in
            let m1 :=
              if negb (destination =? NULL) && negb (source =? NULL) then
                let m' := memmove m (destination + n) (source + n) len in
                if emplace_nulls then store8 m' (destination + n + Z.of_nat len) 0
                else m'
              else m in
            Some (m1, n + Z.of_nat len + (if emplace_nulls then 1 else 0))  (* break *)
          else if Ascii.eqb c "#" then
            let '(literal, consumed) := strtol16 f1 in
            let literal_len := (consumed / 2 + consumed mod 2)%nat in
            let m1 := if destination =? NULL then m
                      else store_bytes m (destination + n)
                             (literal_bytes literal literal_len) in
            continue (skipn 1 (skipn consumed f1)) m1 (n + Z.of_nat literal_len)
          else continue f1 m n
      end
  end.

(** The outer loop [for (int i = 0; i < num_params_to_copy; ++i)]. *)
Fixpoint emplace_params (count : nat) (destination source num : Z)
    (emplace_nulls : bool) (format : list ascii) (m : mem) (n : Z)
    : option (mem * Z) :=
  match count with
  | O => Some (m, n)
  | S count' =>
      match emplace_fields (S (length format)) destination source num
              emplace_nulls format m n with
      | Some (m', n') =>
          emplace_params count' destination source num emplace_nulls format m' n'
      | None => None
      end
  end.

(** [rdm_pd_emplace]: the number of bytes reported and the memory after the
    call. The three pointers are non-NULL by the function's assertions. *)
Definition rdm_pd_emplace (m : mem) (destination : Z) (format : list ascii)
    (source : Z) (num : Z) (emplace_nulls : bool) : option (Z * mem) :=
  let num := if 231 <? num then 231 else num in
  match rdm_param_parse format with
  | None => None
  | Some (param_size, param_is_singleton) =>
      if param_size <? 1 then Some (0, m)
      else
        let num_params_to_copy :=
          if param_is_singleton then 1 else num / param_size in
        match emplace_params (Z.to_nat num_params_to_copy) destination source
                num emplace_nulls format m 0 with
        | Some (m', n) => Some (n, m')
        | None => None
        end
  end.

(** ** The driver (dmx/struct.h)

    The fields rdm/utils.c touches. Pointers to parameter storage, format
    strings, callbacks and contexts are addresses. *)
Record rdm_pid_description_t := mk_desc {
  pid : Z;
  pdl_size : Z;
  data_type : Z;
  cc : Z;            (* the command classes allowed, a mask of GET and SET *)
  unit : Z;
  prefix : Z;
  min_value : Z;
  max_value : Z;
  default_value : Z;
  description : list ascii
}.

Record rdm_cb_t := mk_cb {
  desc : rdm_pid_description_t;
  param_str : Z;
  driver_cb : Z;
  param : Z;
  user_cb : Z;
  context : Z
}.

Record dmx_driver_t := mk_driver {
  tn : Z;                      (* uint8_t: the next transaction number *)
  flags : Z;
  num_rdm_cbs : nat;
  rdm_cbs : list rdm_cb_t;     (* the array of RDM_RESPONDER_PIDS_MAX slots *)
  pd : Z;                      (* the backing region of parameter storage *)
  pd_size : Z;
  pd_head : Z
}.

Definition set_pd_head (d : dmx_driver_t) (h : Z) : dmx_driver_t :=
  {| tn := tn d; flags := flags d; num_rdm_cbs := num_rdm_cbs d;
     rdm_cbs := rdm_cbs d; pd := pd d; pd_size := pd_size d; pd_head := h |}.

Definition set_rdm_cbs (d : dmx_driver_t) (cbs : list rdm_cb_t) (num : nat)
    : dmx_driver_t :=
  {| tn := tn d; flags := flags d; num_rdm_cbs := num;
     rdm_cbs := cbs; pd := pd d; pd_size := pd_size d; pd_head := pd_head d |}.

Definition set_tn (d : dmx_driver_t) (t : Z) : dmx_driver_t :=
  {| tn := t; flags := flags d; num_rdm_cbs := num_rdm_cbs d;
     rdm_cbs := rdm_cbs d; pd := pd d; pd_size := pd_size d; pd_head := pd_head d |}.

(** [rdm_pd_alloc]: the pointer returned and the driver after the call. The
    sum [pd_head + size] is a [size_t] sum. *)
Definition rdm_pd_alloc (driver : dmx_driver_t) (size : Z) : Z * dmx_driver_t :=
  if size =? 0 then (NULL, driver)
  else if u32 (pd_head driver + size) <=? pd_size driver then
    (pd driver + pd_head driver, set_pd_head driver (u32 (pd_head driver + size)))
  else (NULL, driver).

(** The loop [for (; i < driver->num_rdm_cbs; ++i)] that stops at the first
    slot holding [pid]: the value of [i] after the loop. [remaining] counts
    the iterations left; [None] is a read past the end of the array. *)
Fixpoint pid_scan (cbs : list rdm_cb_t) (p : Z) (i remaining : nat) : option nat :=
  match remaining with
  | O => Some i
  | S r =>
      match cbs !! i with
      | None => None
      | Some cb => if pid (desc cb) =? p then Some i else pid_scan cbs p (S i) r
      end
  end.

(** The root device is sub-device 0. *)
Definition RDM_SUB_DEVICE_ROOT : Z := 0.

(** [rdm_register_parameter]: the flag returned and the driver after the
    call; [None] is an access past the end of [rdm_cbs]. *)
Definition rdm_register_parameter (cfg : config) (driver : dmx_driver_t)
    (sub_device : Z) (d : rdm_pid_description_t) (param_str_ driver_cb_ param_
     user_cb_ context_ : Z) : option (bool * dmx_driver_t) :=
  if negb (sub_device =? RDM_SUB_DEVICE_ROOT) then Some (false, driver)
  else
    match pid_scan (rdm_cbs driver) (pid d) 0 (num_rdm_cbs driver) with
    | None => None
    | Some i =>
        if (i =? RDM_RESPONDER_PIDS_MAX cfg)%nat then Some (false, driver)
        else if (i <? length (rdm_cbs driver))%nat then
          let cb := {| desc := d; param_str := param_str_; driver_cb := driver_cb_;
                       param := param_; user_cb := user_cb_; context := context_ |} in
          Some (true, set_rdm_cbs driver (<[i := cb]> (rdm_cbs driver))
                        (S (num_rdm_cbs driver)))
        else None
    end.

(** The lookup loop shared by [rdm_pd_find], [rdm_get_parameter] and
    [rdm_set_parameter]: the slot at which the loop breaks, if any. *)
Fixpoint find_cb (cbs : list rdm_cb_t) (p : Z) (i remaining : nat)
    : option (option rdm_cb_t) :=
  match remaining with
  | O => Some None
  | S r =>
      match cbs !! i with
      | None => None
      | Some cb => if pid (desc cb) =? p then Some (Some cb) else find_cb cbs p (S i) r
      end
  end.

(** [rdm_get_parameter]: [param_] is the caller's buffer and [size] the
    content of the caller's size cell. The result is the flag returned, the
    memory and the size cell after the call. *)
Definition rdm_get_parameter (cfg : config) (driver : dmx_driver_t) (m : mem)
    (p : Z) (param_ : Z) (size : Z) : option (bool * mem * Z) :=
  match find_cb (rdm_cbs driver) p 0 (num_rdm_cbs driver) with
  | None => None
  | Some found =>
      match found with
      | Some cb =>
          let pd_ := param cb in
          if negb (pd_ =? NULL) then
            if data_type (desc cb) =? RDM_DS_ASCII cfg then
              let size' := strnlen m pd_ (Z.to_nat size) in
              Some (true, memmove m param_ pd_ size', Z.of_nat size')
            else
              let size' := if size <? pdl_size (desc cb) then size
                           else pdl_size (desc cb) in
              Some (true, memmove m param_ pd_ (Z.to_nat size'), size')
          else Some (false, m, size)
      | None => Some (false, m, size)
      end
  end.

(** ** Controller requests *)

(** [rdm_response_type_t]: the named response types of rdm/types.h, which
    are distinct constants, and the bytes that name none of them. *)
Inductive rdm_response_type_t :=
  | RDM_RESPONSE_TYPE_ACK
  | RDM_RESPONSE_TYPE_ACK_TIMER
  | RDM_RESPONSE_TYPE_NACK_REASON
  | RDM_RESPONSE_TYPE_ACK_OVERFLOW
  | RDM_RESPONSE_TYPE_NONE
  | RDM_RESPONSE_TYPE_INVALID
  | RDM_RESPONSE_TYPE_OTHER (raw : Z).   (* a byte that names no response type *)

Definition response_type_eqb (a b : rdm_response_type_t) : bool :=
  match a, b with
  | RDM_RESPONSE_TYPE_ACK, RDM_RESPONSE_TYPE_ACK
  | RDM_RESPONSE_TYPE_ACK_TIMER, RDM_RESPONSE_TYPE_ACK_TIMER
  | RDM_RESPONSE_TYPE_NACK_REASON, RDM_RESPONSE_TYPE_NACK_REASON
  | RDM_RESPONSE_TYPE_ACK_OVERFLOW, RDM_RESPONSE_TYPE_ACK_OVERFLOW
  | RDM_RESPONSE_TYPE_NONE, RDM_RESPONSE_TYPE_NONE
  | RDM_RESPONSE_TYPE_INVALID, RDM_RESPONSE_TYPE_INVALID => true
  | RDM_RESPONSE_TYPE_OTHER x, RDM_RESPONSE_TYPE_OTHER y => x =? y
  | _, _ => false
  end.

(** [rdm_header_t]. [port_id] and [response_type] share a byte in C: a
    request carries the first and a response the second. *)
Record rdm_header_t := mk_header {
  hdr_dest_uid : rdm_uid_t;
  hdr_src_uid : rdm_uid_t;
  hdr_tn : Z;
  hdr_port_id : Z;
  hdr_response_type : rdm_response_type_t;
  hdr_message_count : Z;
  hdr_sub_device : Z;
  hdr_cc : Z;
  hdr_pid : Z;
  hdr_pdl : Z
}.

Record rdm_ack_t := mk_ack {
  ack_err : Z;
  ack_size : Z;
  ack_src_uid : rdm_uid_t;
  ack_message_count : Z;
  ack_type : rdm_response_type_t;
  ack_timer : Z                     (* the union of timer and nack_reason *)
}.

(** Modelled from the spec: the constants of rdm/types.h and dmx/types.h,
    which are not among the sources. The discovery command class is 0x10 and
    DISC_UNIQUE_BRANCH is PID 0x0001 (the encode scenario); GET and SET are
    the next two command classes of the RDM standard, a response class being
    the request class plus one. [DMX_OK] is the zero that [packet.err] is
    tested against and [DMX_ERR_TIMEOUT] the timeout code of the host
    runtime. *)
Definition RDM_CC_DISC_COMMAND : Z := 0x10.
Definition RDM_CC_GET_COMMAND : Z := 0x20.
Definition RDM_CC_SET_COMMAND : Z := 0x30.
Definition RDM_PID_DISC_UNIQUE_BRANCH : Z := 0x0001.
Definition DMX_OK : Z := 0.
Definition DMX_ERR_TIMEOUT : Z := 0x107.

(** What the bus and the scheduler answer during one call: the results of
    the calls [rdm_send_request] makes into the rest of the driver. *)
Record bus_t := mk_bus {
  mux_taken : bool;       (* xSemaphoreTakeRecursive(driver->mux, 0) *)
  sent_in_time : bool;    (* dmx_wait_sent(dmx_num, pdMS_TO_TICKS(30)) *)
  written : Z;            (* dmx_write_rdm: the size of the request *)
  rx_err : Z;             (* dmx_receive: packet.err *)
  rx_size : Z;            (* dmx_receive: the size received *)
  rx_header : option rdm_header_t;  (* dmx_read_rdm: the header, None when it fails *)
  rx_pd : list Z          (* dmx_read_rdm: the parameter data left in pd_out *)
}.

(** The calls made into the rest of the driver, in order. *)
Inductive io_event :=
  | TakeMux
  | WaitSent (ticks : Z)
  | WriteRdm (h : rdm_header_t)
  | Send (size : Z)
  | Receive
  | ReadRdm
  | GiveMux.

Definition pdMS_TO_TICKS (cfg : config) (ms : Z) : Z :=
  u32 (u32 (ms * configTICK_RATE_HZ cfg) / 1000).

(** Modelled from the spec: [dmx_send] of esp_dmx.c, which is not among the
    sources. It places the packet written to the port on the wire, and "the
    transaction number increments modulo 256 after each controller request
    actually placed on the wire". *)
Definition dmx_send (driver : dmx_driver_t) (size : Z) : dmx_driver_t :=
  set_tn driver (u8 (tn driver + 1)).

Record request_result := mk_result {
  ret : bool;
  res_header : rdm_header_t;        (* *header after the call *)
  res_pdl : Z;                      (* *pdl after the call *)
  res_ack : option rdm_ack_t;       (* *ack after the call *)
  res_driver : dmx_driver_t;
  res_binding_uid : rdm_uid_t;
  res_trace : list io_event
}.

Definition set_ack_none_or_invalid (a : rdm_ack_t) (t : rdm_response_type_t)
    : rdm_ack_t :=
  {| ack_err := ack_err a; ack_size := ack_size a;
     ack_src_uid := {| man_id := 0; dev_id := 0 |}; ack_message_count := 0;
     ack_type := t; ack_timer := ack_timer a |}.

Definition set_ack_err_size (a : rdm_ack_t) (e sz : Z) : rdm_ack_t :=
  {| ack_err := e; ack_size := sz; ack_src_uid := ack_src_uid a;
     ack_message_count := ack_message_count a; ack_type := ack_type a;
     ack_timer := ack_timer a |}.

(** The classification of the response packet: [response_type] and [resp]
    as the [if] chain of [rdm_send_request] leaves them. [resp0] is the
    uninitialised [resp]. *)
Definition classify_response (header : rdm_header_t) (bus : bus_t)
    (resp0 : rdm_header_t) : rdm_response_type_t * rdm_header_t :=
  match rx_header bus with
  | None =>
      (RDM_RESPONSE_TYPE_INVALID,
       {| hdr_dest_uid := hdr_dest_uid resp0; hdr_src_uid := hdr_src_uid resp0;
          hdr_tn := hdr_tn resp0; hdr_port_id := hdr_port_id resp0;
          hdr_response_type := hdr_response_type resp0;
          hdr_message_count := hdr_message_count resp0;
          hdr_sub_device := hdr_sub_device resp0; hdr_cc := hdr_cc resp0;
          hdr_pid := hdr_pid resp0; hdr_pdl := 0 |})
  | Some resp =>
      let rt := hdr_response_type resp in
      if negb (response_type_eqb rt RDM_RESPONSE_TYPE_ACK)
         && negb (response_type_eqb rt RDM_RESPONSE_TYPE_ACK_TIMER)
         && negb (response_type_eqb rt RDM_RESPONSE_TYPE_NACK_REASON)
         && negb (response_type_eqb rt RDM_RESPONSE_TYPE_ACK_OVERFLOW)
      then (RDM_RESPONSE_TYPE_INVALID, resp)
      else if negb (hdr_pid header =? RDM_PID_DISC_UNIQUE_BRANCH)
              && (negb (hdr_cc header =? hdr_cc resp - 1)
                  || negb (hdr_pid header =? hdr_pid resp)
                  || negb (hdr_tn header =? hdr_tn resp)
                  || negb (rdm_uid_is_target (hdr_src_uid resp) (hdr_dest_uid header))
                  || negb (rdm_uid_is_eq (hdr_dest_uid resp) (hdr_src_uid header)))
      then (RDM_RESPONSE_TYPE_INVALID, resp)
      else (rt, resp)
  end.

(** [bswap16( *(uint16_t * )pd_out)]. *)
Definition pd_word (pd_out : list Z) : Z :=
  byte_at pd_out 0 * 256 + byte_at pd_out 1.

(** [rdm_send_request]. [header] is [*header] on entry, [pdl] is [*pdl],
    [ack] is the ack pointer ([None] being NULL); [driver] and
    [rdm_binding_uid] are the state the call reads and writes; [bus] holds the
    answers of the rest of the driver and [resp0] the uninitialised local
    [resp]. *)
Definition rdm_send_request (cfg : config) (driver : dmx_driver_t)
    (rdm_binding_uid : rdm_uid_t) (bus : bus_t) (resp0 : rdm_header_t)
    (dmx_num : Z) (header : rdm_header_t) (pdl : Z) (ack : option rdm_ack_t)
    : request_result :=
  (* Update the optional components of the header to allowed values *)
  let port := if hdr_port_id header =? 0 then u8 (dmx_num + 1)
              else hdr_port_id header in
  let '(binding, src) :=
    if rdm_uid_is_null (hdr_src_uid header) then
      match rdm_uid_get cfg rdm_binding_uid dmx_num (Some (hdr_src_uid header)) with
      | (b, Some u) => (b, u)
      | (b, None) => (b, hdr_src_uid header)
      end
    else (rdm_binding_uid, hdr_src_uid header) in
  (* Set header values that the user cannot set themselves *)
  let header :=
    {| hdr_dest_uid := hdr_dest_uid header; hdr_src_uid := src;
       hdr_tn := tn driver; hdr_port_id := port;
       hdr_response_type := hdr_response_type header;
       hdr_message_count := 0; hdr_sub_device := hdr_sub_device header;
       hdr_cc := hdr_cc header; hdr_pid := hdr_pid header;
       hdr_pdl := hdr_pdl header |} in
  (* Determine if a response is expected *)
  let response_expected :=
    negb (rdm_uid_is_broadcast (hdr_dest_uid header))
    || ((hdr_pid header =? RDM_PID_DISC_UNIQUE_BRANCH)
        && (hdr_cc header =? RDM_CC_DISC_COMMAND)) in
  if negb (mux_taken bus) then
    mk_result false header pdl ack driver binding [TakeMux]
  else if negb (sent_in_time bus) then
    mk_result false header pdl ack driver binding
      [TakeMux; WaitSent (pdMS_TO_TICKS cfg 30); GiveMux]
  else
    (* Write and send the request *)
    let size := written bus in
    let driver := dmx_send driver size in
    let sent := [TakeMux; WaitSent (pdMS_TO_TICKS cfg 30); WriteRdm header; Send size] in
    if response_expected then
      let size := rx_size bus in
      let ack := option_map (fun a => set_ack_err_size a (rx_err bus) size) ack in
      if negb (rx_err bus =? 0) && negb (rx_err bus =? DMX_ERR_TIMEOUT) then
        mk_result false header pdl
          (option_map (fun a => set_ack_none_or_invalid a RDM_RESPONSE_TYPE_INVALID) ack)
          driver binding (sent ++ [Receive; GiveMux])
      else if size =? 0 then
        mk_result false header pdl
          (option_map (fun a => set_ack_none_or_invalid a RDM_RESPONSE_TYPE_NONE) ack)
          driver binding (sent ++ [Receive; GiveMux])
      else
        (* Handle the RDM response packet *)
        let '(response_type, resp) := classify_response header bus resp0 in
        let decoded :=
          match response_type with
          | RDM_RESPONSE_TYPE_ACK_TIMER =>
              pdMS_TO_TICKS cfg (u32 (pd_word (rx_pd bus) * 10))
          | RDM_RESPONSE_TYPE_NACK_REASON => pd_word (rx_pd bus)
          | _ => 0
          end in
        mk_result (response_type_eqb response_type RDM_RESPONSE_TYPE_ACK)
          header (hdr_pdl resp)
          (option_map (fun a =>
             {| ack_err := ack_err a; ack_size := ack_size a;
                ack_src_uid := hdr_src_uid resp;
                ack_message_count := hdr_message_count resp;
                ack_type := response_type; ack_timer := decoded |}) ack)
          driver binding (sent ++ [Receive; ReadRdm; GiveMux])
    else
      mk_result false header pdl
        (option_map (fun a =>
           set_ack_none_or_invalid (set_ack_err_size a DMX_OK size)
             RDM_RESPONSE_TYPE_NONE) ack)
        driver binding (sent ++ [WaitSent 2; GiveMux]).

(** ** Definitions used to state the properties *)

(** A configuration of the ESP32 build: three ports, the default
    manufacturer id, the device id derived from the MAC, sixteen table
    slots. *)
Definition esp32_config : config :=
  {| DMX_NUM_MAX := 3;
     RDM_UID_MANUFACTURER_ID := 0x05e0;
     RDM_UID_DEVICE_ID := 0xffffffff;
     RDM_UID_DEVICE_UID := 0xffffffff;
     mac := [0x24; 0x0a; 0x12; 0x34; 0x56; 0x78; 0; 0];
     RDM_RESPONDER_PIDS_MAX := 16;
     RDM_DS_ASCII := 0x05;
     configTICK_RATE_HZ := 1000 |}.

(** The port UID as the specification words it: the binding UID with its
    last octet XOR'd by the port index. *)
Definition uid_xor_port (binding : rdm_uid_t) (dmx_num : Z) : rdm_uid_t :=
  {| man_id := man_id binding;
     dev_id := Z.lor (Z.land (dev_id binding) 0xffffff00)
                 (Z.lxor (u8 (dev_id binding)) dmx_num) |}.

(** A sequence of allocations from one driver. *)
Definition alloc_all (driver : dmx_driver_t) (sizes : list Z) : dmx_driver_t :=
  fold_left (fun d size => snd (rdm_pd_alloc d size)) sizes driver.

(** [p] is registered: one of the first [num_rdm_cbs] slots holds it. *)
Definition registered (driver : dmx_driver_t) (p : Z) : Prop :=
  exists i cb, (i < num_rdm_cbs driver)%nat /\
               rdm_cbs driver !! i = Some cb /\ pid (desc cb) = p.

(** A parameter table in which DMX_START_ADDRESS (0x00f0) is registered
    once, the other fifteen slots being zeroed. *)
Definition desc_start_address (default : Z) : rdm_pid_description_t :=
  mk_desc 0x00f0 2 0x02 0x03 0 0 1 512 default [].

Definition cb_zero : rdm_cb_t := mk_cb (mk_desc 0 0 0 0 0 0 0 0 0 []) 0 0 0 0 0.

Definition driver_one_pid : dmx_driver_t :=
  {| tn := 0; flags := 0; num_rdm_cbs := 1;
     rdm_cbs := mk_cb (desc_start_address 1) 0x3f400000 0x400d0000 0x3ffb0000 0 0
                :: repeat cb_zero 15;
     pd := 0x3ffb0000; pd_size := 64; pd_head := 2 |}.

(** The request reaches the wire: the mutex was taken and the previous
    packet was sent in time, so [dmx_write_rdm] and [dmx_send] are called. *)
Definition on_wire (bus : bus_t) : bool := mux_taken bus && sent_in_time bus.

(** The request is DISC_UNIQUE_BRANCH: the discovery command of that PID. *)
Definition is_disc_unique_branch (h : rdm_header_t) : bool :=
  (hdr_pid h =? RDM_PID_DISC_UNIQUE_BRANCH) && (hdr_cc h =? RDM_CC_DISC_COMMAND).

(** A sequence of calls on one port: what each call is given and what the
    bus answers it. *)
Record request_call := mk_call {
  call_bus : bus_t;
  call_resp0 : rdm_header_t;
  call_dmx_num : Z;
  call_header : rdm_header_t;
  call_pdl : Z;
  call_ack : option rdm_ack_t
}.

Fixpoint run_requests (cfg : config) (driver : dmx_driver_t)
    (rdm_binding_uid : rdm_uid_t) (calls : list request_call)
    : dmx_driver_t * rdm_uid_t :=
  match calls with
  | [] => (driver, rdm_binding_uid)
  | c :: calls' =>
      let r := rdm_send_request cfg driver rdm_binding_uid (call_bus c)
                 (call_resp0 c) (call_dmx_num c) (call_header c) (call_pdl c)
                 (call_ack c) in
      run_requests cfg (res_driver r) (res_binding_uid r) calls'
  end.

Fixpoint requests_on_wire (calls : list request_call) : Z :=
  match calls with
  | [] => 0
  | c :: calls' =>
      (if on_wire (call_bus c) then 1 else 0) + requests_on_wire calls'
  end.

(** A response was received: the request went out, a response was awaited,
    the bus reported no error other than a timeout, and bytes arrived. *)
Definition response_received (header : rdm_header_t) (bus : bus_t) : Prop :=
  on_wire bus = true /\
  (rdm_uid_is_broadcast (hdr_dest_uid header) = false
   \/ is_disc_unique_branch header = true) /\
  (rx_err bus = 0 \/ rx_err bus = DMX_ERR_TIMEOUT) /\
  rx_size bus <> 0.

(** The response answers the request: command class, PID, transaction
    number and the two UIDs. *)
Definition response_matches (req resp : rdm_header_t) : Prop :=
  hdr_cc resp = hdr_cc req + 1 /\
  hdr_pid resp = hdr_pid req /\
  hdr_tn resp = hdr_tn req /\
  hdr_dest_uid resp = hdr_src_uid req /\
  rdm_uid_is_target (hdr_src_uid resp) (hdr_dest_uid req) = true.

(** The checks on which the call returns true. *)
Definition response_passes (req : rdm_header_t) (bus : bus_t) : Prop :=
  exists resp,
    rx_header bus = Some resp /\
    hdr_response_type resp = RDM_RESPONSE_TYPE_ACK /\
    (hdr_pid req <> RDM_PID_DISC_UNIQUE_BRANCH -> response_matches req resp).

Definition is_ack_kind (t : rdm_response_type_t) : bool :=
  match t with
  | RDM_RESPONSE_TYPE_ACK | RDM_RESPONSE_TYPE_ACK_TIMER
  | RDM_RESPONSE_TYPE_NACK_REASON | RDM_RESPONSE_TYPE_ACK_OVERFLOW => true
  | _ => false
  end.

(** A controller 05e0:12345678 on port 1 asks the responder 05e0:00000042
    for DEVICE_INFO with the transaction number 7. *)
Definition uid_controller : rdm_uid_t := mk_uid 0x05e0 0x12345678.
Definition uid_responder : rdm_uid_t := mk_uid 0x05e0 0x00000042.

Definition driver_tn7 : dmx_driver_t :=
  {| tn := 7; flags := 0; num_rdm_cbs := 0; rdm_cbs := repeat cb_zero 16;
     pd := 0x3ffb0000; pd_size := 64; pd_head := 0 |}.

Definition get_device_info : rdm_header_t :=
  {| hdr_dest_uid := uid_responder; hdr_src_uid := uid_controller; hdr_tn := 0;
     hdr_port_id := 0; hdr_response_type := RDM_RESPONSE_TYPE_NONE;
     hdr_message_count := 0; hdr_sub_device := 0;
     hdr_cc := RDM_CC_GET_COMMAND; hdr_pid := 0x0060; hdr_pdl := 0 |}.

(** The answer of the responder, with the response type, the transaction
    number and the parameter data length it carries. *)
Definition device_info_response (t : rdm_response_type_t) (tn_ pdl_ : Z)
    : rdm_header_t :=
  {| hdr_dest_uid := uid_controller; hdr_src_uid := uid_responder; hdr_tn := tn_;
     hdr_port_id := 0; hdr_response_type := t;
     hdr_message_count := 0; hdr_sub_device := 0;
     hdr_cc := 0x21; hdr_pid := 0x0060; hdr_pdl := pdl_ |}.

Definition bus_answer (resp : rdm_header_t) (pd_ : list Z) : bus_t :=
  {| mux_taken := true; sent_in_time := true; written := 26; rx_err := 0;
     rx_size := 26 + hdr_pdl resp; rx_header := Some resp; rx_pd := pd_ |}.

Definition header_garbage : rdm_header_t :=
  mk_header (mk_uid 0 0) (mk_uid 0 0) 0 0 RDM_RESPONSE_TYPE_NONE 0 0 0 0 0.

Definition ack_zero : rdm_ack_t :=
  mk_ack 0 0 (mk_uid 0 0) 0 RDM_RESPONSE_TYPE_NONE 0.

(** The size of the parameter a format describes, by the table of the
    encoder: a byte is 1, a word 2, a dword 4, a UID or an optional UID 6, a
    string 32, a literal of [k] hexadecimal digits half of [k] rounded up, and
    the anchor nothing. [literal] is [Some k] inside a literal, after [k] of
    its digits. *)
Definition symbol_size (c : ascii) : Z :=
  if is_chr c ["b"; "B"]%char then 1
  else if is_chr c ["w"; "W"]%char then 2
  else if is_chr c ["d"; "D"]%char then 4
  else if is_chr c ["u"; "U"]%char then 6
  else if is_chr c ["v"; "V"]%char then 6
  else if is_chr c ["a"; "A"]%char then 32
  else 0.

Fixpoint format_size_from (literal : option nat) (f : list ascii) : Z :=
  match f with
  | [] => 0
  | c :: f' =>
      match literal with
      | Some digits =>
          if isxdigit c then format_size_from (Some (S digits)) f'
          else Z.of_nat (digits / 2 + digits mod 2) + format_size_from None f'
      | None =>
          if Ascii.eqb c "#" then format_size_from (Some O) f'
          else symbol_size c + format_size_from None f'
      end
  end.

Definition format_size (format : list ascii) : Z := format_size_from None format.

(** A format of 199 bytes followed by a string, and a memory in which
    every byte is the letter A, so that no string in it ends. *)
Definition format_199b_a : list ascii := repeat "b"%char 199 ++ ["a"%char].

Definition mem_letters : mem := fun _ => 0x41.

End Utils.

(** * The rest of rdm/utils.c and rdm/utils.h *)

Module UtilsExt.
Import Utils.

(** ** UID comparisons (the inline functions of rdm/utils.h) *)

Definition uid_is_lt (a b : rdm_uid_t) : bool :=
  (man_id a <? man_id b) || ((man_id a =? man_id b) && (dev_id a <? dev_id b)).

Definition uid_is_gt (a b : rdm_uid_t) : bool :=
  (man_id a >? man_id b) || ((man_id a =? man_id b) && (dev_id a >? dev_id b)).

Definition uid_is_le (a b : rdm_uid_t) : bool := negb (uid_is_gt a b).

Definition uid_is_ge (a b : rdm_uid_t) : bool := negb (uid_is_lt a b).

(** The 48-bit number a UID stands for, manufacturer id first. *)
Definition uid_value (u : rdm_uid_t) : Z := man_id u * 2 ^ 32 + dev_id u.

(** ** UIDs in memory *)

(** [rdm_uidcpy]: the two stores follow each other, the second load reading
    the memory the first store left ([destination] and [source] are
    [restrict] pointers). *)
Definition rdm_uidcpy (m : mem) (destination source : Z) : mem :=
  let m1 := copy_swapped m destination source 2 in
  copy_swapped m1 (destination + 2) (source + 2) 4.

(** The [rdm_uid_t] a pointer points to, as the little-endian target reads
    the packed struct, and the UID six bytes of a packet stand for. *)
Definition uid_at (m : mem) (p : Z) : rdm_uid_t :=
  {| man_id := le_value (load_bytes m p 2);
     dev_id := le_value (load_bytes m (p + 2) 4) |}.

Definition uid_on_wire (m : mem) (p : Z) : rdm_uid_t :=
  {| man_id := le_value (rev (load_bytes m p 2));
     dev_id := le_value (rev (load_bytes m (p + 2) 4)) |}.

(** [rdm_pd_emplace_word]: the size returned and the memory after the call. *)
Definition rdm_pd_emplace_word (m : mem) (destination word : Z) : Z * mem :=
  (2, store_bytes m destination (rev (le_bytes 2 word))).

(** ** Parameter storage *)

(** [rdm_pd_find]: the pointer returned; [None] is a read past the end of
    [rdm_cbs]. *)
Definition rdm_pd_find (driver : dmx_driver_t) (p : Z) : option Z :=
  match find_cb (rdm_cbs driver) p 0 (num_rdm_cbs driver) with
  | None => None
  | Some None => Some NULL
  | Some (Some cb) => Some (param cb)
  end.

(** [strncpy(dst, src, n)]: the characters up to the first NUL, then NULs
    up to [n] bytes. *)
Definition strncpy (m : mem) (dst src : Z) (n : nat) : mem :=
  let len := strnlen m src n in
  store_bytes m dst (load_bytes m src len ++ repeat 0 (n - len)).

(** The constants [rdm_set_parameter] takes from rdm/types.h and
    dmx/struct.h: the SET bit of a descriptor's command class mask and the
    driver flag that asks for the boot loader. *)
Record responder_consts := mk_consts {
  RDM_CC_SET : Z;
  DMX_FLAGS_DRIVER_BOOT_LOADER : Z
}.

(** The call of [dmx_nvs_set] a call of [rdm_set_parameter] makes. *)
Record nvs_call := mk_nvs_call {
  nvs_pid : Z;
  nvs_data_type : Z;
  nvs_param : Z;
  nvs_size : Z
}.

Record set_result := mk_set_result {
  set_ret : bool;
  set_driver : dmx_driver_t;
  set_mem : mem;
  set_nvs : option nvs_call
}.

Definition set_flags (d : dmx_driver_t) (f : Z) : dmx_driver_t :=
  {| tn := tn d; flags := f; num_rdm_cbs := num_rdm_cbs d;
     rdm_cbs := rdm_cbs d; pd := pd d; pd_size := pd_size d; pd_head := pd_head d |}.

(** [rdm_set_parameter]. [nvs] is the caller's flag and [nvs_ok] what
    [dmx_nvs_set] answers if it is called; [None] is a read past the end of
    [rdm_cbs]. *)
Definition rdm_set_parameter (cfg : config) (k : responder_consts)
    (driver : dmx_driver_t) (m : mem) (p param_ size : Z) (nvs nvs_ok : bool)
    : option set_result :=
  match find_cb (rdm_cbs driver) p 0 (num_rdm_cbs driver) with
  | None => None
  | Some found =>
      match found with
      | Some cb =>
          let pd_ := param cb in
          if negb (pd_ =? NULL) && negb (Z.land (cc (desc cb)) (RDM_CC_SET k) =? 0) then
            let size' := if size <? pdl_size (desc cb) then size
                         else pdl_size (desc cb) in
            let m' := if data_type (desc cb) =? RDM_DS_ASCII cfg
                      then strncpy m pd_ param_ (Z.to_nat size')
                      else memmove m pd_ param_ (Z.to_nat size') in
            if nvs then
              let call := mk_nvs_call p (data_type (desc cb)) param_ size' in
              if nvs_ok then Some (mk_set_result true driver m' (Some call))
              else Some (mk_set_result true
                           (set_flags driver
                              (Z.lor (flags driver) (DMX_FLAGS_DRIVER_BOOT_LOADER k)))
                           m' (Some call))
            else Some (mk_set_result true driver m' None)
          else Some (mk_set_result false driver m None)
      | None => Some (mk_set_result false driver m None)
      end
  end.

(** ** Definitions used to state the properties *)

(** [cb] is the slot the lookup loop stops at for [p]: the first of the
    registered slots that holds [p]. *)
Definition first_slot (driver : dmx_driver_t) (p : Z) (cb : rdm_cb_t) : Prop :=
  exists k, (k < num_rdm_cbs driver)%nat /\
            rdm_cbs driver !! k = Some cb /\ pid (desc cb) = p /\
            forall j cb', (j < k)%nat -> rdm_cbs driver !! j = Some cb' ->
                          pid (desc cb') <> p.

(** The constants of the build used in the examples: SET is bit 1 of a
    command class mask, the boot loader flag is bit 2 of the driver flags. *)
Definition esp32_consts : responder_consts :=
  {| RDM_CC_SET := 0x02; DMX_FLAGS_DRIVER_BOOT_LOADER := 0x04 |}.

(** A parameter table in which DEVICE_LABEL (0x0082), a string of up to 32
    characters that can be read and set, is registered once. *)
Definition desc_device_label : rdm_pid_description_t :=
  mk_desc 0x0082 32 0x05 0x03 0 0 0 0 0 [].

Definition driver_label : dmx_driver_t :=
  {| tn := 0; flags := 0; num_rdm_cbs := 1;
     rdm_cbs := mk_cb desc_device_label 0x3f400010 0x400d0000 0x3ffb0000 0 0
                :: repeat cb_zero 15;
     pd := 0x3ffb0000; pd_size := 64; pd_head := 32 |}.

(** Formats made of fixed-size numbers and UIDs only: bytes, words, double
    words and UIDs. *)
Definition is_scalar (c : ascii) : bool :=
  is_chr c ["b"; "B"; "w"; "W"; "d"; "D"; "u"; "U"]%char.

Definition scalar_format (f : list ascii) : bool := forallb is_scalar f.

(** The offset in the source of the byte that [rdm_pd_emplace] leaves at
    offset [i] of a field, and of a parameter: a number is reversed, and a UID
    is reversed in its two halves. *)
Definition symbol_swap (c : ascii) (i : Z) : Z :=
  if is_chr c ["u"; "U"]%char then (if i <? 2 then 1 - i else 7 - i)
  else symbol_size c - 1 - i.

Fixpoint format_swap (f : list ascii) (i : Z) : Z :=
  match f with
  | [] => i
  | c :: f' =>
      if i <? symbol_size c then symbol_swap c i
      else symbol_size c + format_swap f' (i - symbol_size c)
  end.

(** The calls of a trace that take or give the mutex, and those that touch
    the bus. *)
Definition mux_event (e : io_event) : bool :=
  match e with
  | TakeMux | GiveMux => true
  | _ => false
  end.

Definition bus_event (e : io_event) : bool :=
  match e with
  | WriteRdm _ | Send _ | Receive | ReadRdm => true
  | _ => false
  end.

(** A response is awaited: the destination is not a broadcast address or the
    request is DISC_UNIQUE_BRANCH. *)
Definition response_expected (header : rdm_header_t) : Prop :=
  rdm_uid_is_broadcast (hdr_dest_uid header) = false
  \/ is_disc_unique_branch header = true.

(** The mutex is held by another task; and nothing answers within the
    receive timeout. *)
Definition bus_mutex_held : bus_t :=
  {| mux_taken := false; sent_in_time := true; written := 0; rx_err := 0;
     rx_size := 0; rx_header := None; rx_pd := [] |}.

Definition bus_no_answer : bus_t :=
  {| mux_taken := true; sent_in_time := true; written := 26;
     rx_err := DMX_ERR_TIMEOUT; rx_size := 0; rx_header := None; rx_pd := [] |}.

End UtilsExt.

(** * The rest of esp_rdm.c *)

Module EspRdmExt.
Import EspRdm.

(** ** Definitions used to state the properties of [rdm_parse] *)

(** A discovery response with [k] preamble bytes, [k] from 0 to 7: the frame
    of [rdm_send_disc_response] without its first [7 - k] bytes. *)
Definition short_preamble_frame (k : nat) (uid : Z) : list Z :=
  skipn (7 - k) (disc_response_frame uid).

(** The event the discovery branch of [rdm_parse] leaves. *)
Definition disc_event (ev : rdm_event_t) (uid : Z) (valid : bool) : rdm_event_t :=
  {| destination_uid := destination_uid ev; source_uid := uid; tn := tn ev;
     port_id := port_id ev; message_count := message_count ev;
     sub_device := sub_device ev; cc := RDM_CC_DISC_COMMAND_RESPONSE;
     pid := RDM_PID_DISC_UNIQUE_BRANCH; pdl := pdl ev;
     checksum_is_valid := valid |}.

(** The event the packet branch of [rdm_parse] leaves: the fields of the
    header, whatever the checksum. *)
Definition packet_event (data : list Z) (valid : bool) : rdm_event_t :=
  {| destination_uid := buf_to_uid data 3; source_uid := buf_to_uid data 9;
     tn := byte_at data 15; port_id := byte_at data 16;
     message_count := byte_at data 17; sub_device := be16_at data 18;
     cc := byte_at data 20; pid := be16_at data 21; pdl := byte_at data 23;
     checksum_is_valid := valid |}.

(** The sum of the bytes of a list. *)
Definition byte_sum (bs : list Z) : Z := fold_right Z.add 0 bs.

(** ** Requests of the controller (esp_rdm.c) *)

(** Modelled from the spec: [uid_to_buf], which is not among the sources: it
    writes the six bytes of a UID as they go on the wire, most significant
    first - the bytes [buf_to_uid] reads. *)
Definition uid_to_buf (uid : Z) : list Z := rev (le_bytes 6 uid).

(** A 16-bit field assigned [bswap16(x)]: in memory, the high byte first. *)
Definition be16 (x : Z) : list Z := rev (le_bytes 2 x).

(** Modelled from the spec: the broadcast UID is the all-ones UID and the
    discovery command class is 0x10; rdm_constants.h is not among the
    sources. *)
Definition RDM_BROADCAST_UID : Z := 0xffffffffffff.
Definition RDM_CC_DISC_COMMAND : Z := 0x10.

(** The other constants the requests take from headers and from the build
    configuration: they are parameters of the model. *)
Record rdm_consts := mk_rdm_consts {
  RDM_DEFAULT_MANUFACTURER_ID : Z;
  RDM_PID_DISC_MUTE : Z;
  RDM_PID_DISC_UN_MUTE : Z;
  DMX_ERR_DATA_COLLISION : Z
}.

(** [rdm_get_uid]: the value returned, which is also the value of the global
    [rdm_uid] after the call. *)
Definition rdm_get_uid (k : rdm_consts) (rdm_uid : Z) (mac : list Z) : Z :=
  if rdm_uid =? 0 then
    Z.lor (Z.shiftl (RDM_DEFAULT_MANUFACTURER_ID k) 32) (Utils.mac_dev_id mac)
  else rdm_uid.

(** The array [request] as the request functions of esp_rdm.c fill it: the
    fields of [rdm_data_t] in order, at the offsets at which [rdm_parse] reads
    them, the parameter data, and the sum of the first [rdm->message_len]
    bytes stored as [bswap16(checksum)]. *)
Definition request_packet (message_len destination source tn_ port_id_ sub_device_
    cc_ pid_ pdl_ : Z) (pd_ : list Z) : list Z :=
  let request :=
    [RDM_SC; RDM_SUB_SC; message_len] ++ uid_to_buf destination ++ uid_to_buf source
    ++ [tn_; port_id_; 0] ++ be16 sub_device_ ++ [cc_] ++ be16 pid_ ++ [pdl_]
    ++ pd_ in
  request ++ be16 (packet_sum request (Z.to_nat (byte_at request 2))).

(** The request of [rdm_send_disc_unique_branch]. *)
Definition disc_unique_branch_request (own_uid rdm_tn dmx_num lower_bound
    upper_bound : Z) : list Z :=
  request_packet (RDM_BASE_PACKET_SIZE + 12 - 2) RDM_BROADCAST_UID own_uid rdm_tn
    (u8 (dmx_num + 1)) 0 RDM_CC_DISC_COMMAND RDM_PID_DISC_UNIQUE_BRANCH 12
    (uid_to_buf lower_bound ++ uid_to_buf upper_bound).

(** The request of [rdm_send_disc_mute]. *)
Definition disc_mute_request (k : rdm_consts) (own_uid rdm_tn dmx_num uid : Z)
    (mute : bool) : list Z :=
  let request_pid := if mute then RDM_PID_DISC_MUTE k else RDM_PID_DISC_UN_MUTE k in
  request_packet (RDM_BASE_PACKET_SIZE - 2) uid own_uid rdm_tn (u8 (dmx_num + 1)) 0
    RDM_CC_DISC_COMMAND request_pid 0 [].

(** [rdm_response_t]: the error codes are the distinct constants of an
    enumeration of rdm_types.h. *)
Inductive rdm_err_t :=
  | RDM_OK
  | RDM_FAIL
  | RDM_INVALID_RESPONSE
  | RDM_INVALID_CHECKSUM.

Record rdm_response_t := mk_response {
  resp_size : Z;
  resp_err : rdm_err_t;
  resp_type : Utils.rdm_response_type_t
}.

(** What [dmx_receive] answers and leaves: the size returned, [dmx_event.err]
    and the driver's buffer. *)
Record received_t := mk_received {
  recv_size : Z;
  recv_err : Z;
  recv_buffer : list Z
}.

Record dub_result := mk_dub_result {
  dub_ret : Z;
  dub_response : option rdm_response_t;   (* *response after the call *)
  dub_uid : option Z;                     (* *uid after the call *)
  dub_rdm_uid : Z;                        (* the global rdm_uid *)
  dub_written : option (list Z)           (* the request handed to dmx_write *)
}.

(** [rdm_send_disc_unique_branch]. [params], [response] and [uid] are the
    pointers, [None] being NULL; [rdm_uid], [mac] and [rdm_tn] are the state
    read; [rx] is the answer of [dmx_receive] and [ev0] the uninitialised
    local [rdm_event]. *)
Definition rdm_send_disc_unique_branch (k : rdm_consts) (DMX_NUM_MAX : Z)
    (driver_is_installed : bool) (rdm_uid : Z) (mac : list Z) (rdm_tn : Z)
    (rx : received_t) (ev0 : rdm_event_t) (dmx_num : Z)
    (params : option (Z * Z)) (response : option rdm_response_t) (uid : option Z)
    : dub_result :=
  let early := mk_dub_result 0 response uid rdm_uid None in
  if negb (dmx_num <? DMX_NUM_MAX) then early
  else
    match params with
    | None => early
    | Some (lower_bound, upper_bound) =>
        if negb driver_is_installed then early
        else
          (* Prepare the RDM request *)
          let own := rdm_get_uid k rdm_uid mac in
          let request :=
            disc_unique_branch_request own rdm_tn dmx_num lower_bound upper_bound in
          (* Wait for a response *)
          let response_size := recv_size rx in
          let response :=
            option_map (fun r => mk_response response_size (resp_err r) (resp_type r))
              response in
          if negb (recv_err rx =? 0) && negb (recv_err rx =? DMX_ERR_DATA_COLLISION k)
          then
            mk_dub_result response_size
              (option_map (fun r => mk_response (resp_size r) RDM_FAIL (resp_type r))
                 response)
              uid own (Some request)
          else if negb (response_size =? 0) then
            let rdm_event :=
              match snd (rdm_parse (Some (recv_buffer rx)) response_size (Some ev0)) with
              | Some e => e
              | None => ev0
              end in
            let response :=
              option_map (fun r =>
                if negb (cc rdm_event =? RDM_CC_DISC_COMMAND_RESPONSE)
                   || negb (pid rdm_event =? RDM_PID_DISC_UNIQUE_BRANCH)
                then mk_response (resp_size r) RDM_INVALID_RESPONSE (resp_type r)
                else if negb (checksum_is_valid rdm_event)
                then mk_response (resp_size r) RDM_INVALID_CHECKSUM (resp_type r)
                else mk_response (resp_size r) RDM_OK Utils.RDM_RESPONSE_TYPE_ACK)
                response in
            mk_dub_result response_size response
              (option_map (fun _ => source_uid rdm_event) uid) own (Some request)
          else mk_dub_result response_size response uid own (Some request)
    end.

(** ** Definitions used to state the properties of the requests *)

(** The event [rdm_parse] fills from a request. *)
Definition request_event (destination source tn_ port_id_ sub_device_ cc_ pid_
    pdl_ : Z) : rdm_event_t :=
  {| destination_uid := destination; source_uid := source; tn := tn_;
     port_id := port_id_; message_count := 0; sub_device := sub_device_;
     cc := cc_; pid := pid_; pdl := pdl_; checksum_is_valid := true |}.

(** What [rdm_send_disc_unique_branch] makes of an event: the error code it
    reports. *)
Definition event_err (ev : rdm_event_t) : rdm_err_t :=
  if negb (cc ev =? RDM_CC_DISC_COMMAND_RESPONSE)
     || negb (pid ev =? RDM_PID_DISC_UNIQUE_BRANCH) then RDM_INVALID_RESPONSE
  else if negb (checksum_is_valid ev) then RDM_INVALID_CHECKSUM
  else RDM_OK.

(** The constants of the build used in the examples. *)
Definition esp32_rdm_consts : rdm_consts :=
  {| RDM_DEFAULT_MANUFACTURER_ID := 0x05e0; RDM_PID_DISC_MUTE := 0x0002;
     RDM_PID_DISC_UN_MUTE := 0x0003; DMX_ERR_DATA_COLLISION := 0x108 |}.

End EspRdmExt.

(** * Properties *)

(** ** Bytes and machine integers *)

Lemma u8_land x : u8 x = Z.land x 255.
Proof. unfold u8. change 255 with (Z.ones 8). now rewrite Z.land_ones by lia. Qed.

Lemma u8_range x : 0 <= u8 x < 256.
Proof. unfold u8. apply Z.mod_pos_bound. lia. Qed.

Lemma u8_small x : 0 <= x < 256 -> u8 x = x.
Proof. intros H. unfold u8. now apply Z.mod_small. Qed.

Lemma u16_range x : 0 <= u16 x < 65536.
Proof. unfold u16. apply Z.mod_pos_bound. lia. Qed.

Lemma le_value_le_bytes n v : le_value (le_bytes n v) = v mod 256 ^ Z.of_nat n.
Proof.
  revert v. induction n as [|n IH]; intros v.
  - cbn. now rewrite Z.mod_1_r.
  - cbn [le_bytes le_value]. rewrite IH, Nat2Z.inj_succ, Z.pow_succ_r by lia.
    rewrite Z.rem_mul_r by lia. lia.
Qed.

(** ** The discovery response codec (esp_rdm.c) *)

Section DiscResponse.
Import EspRdm.

(** An encoded pair decodes to the byte it was made from: the first byte
    keeps the bits under 0x55, the second those under 0xaa. *)
Lemma manchester_pair x :
  Z.lor (Z.land (u8 (Z.lor x 0xaa)) 0x55) (Z.land (u8 (Z.lor x 0x55)) 0xaa)
  = x mod 256.
Proof.
  rewrite !u8_land, <- !Z.land_assoc.
  change (Z.land 255 0x55) with 0x55. change (Z.land 255 0xaa) with 0xaa.
  rewrite !Z.land_lor_distr_l.
  change (Z.land 0xaa 0x55) with 0. change (Z.land 0x55 0xaa) with 0.
  rewrite !Z.lor_0_r, <- Z.land_lor_distr_r.
  change (Z.lor 0x55 0xaa) with (Z.ones 8). now rewrite Z.land_ones by lia.
Qed.

Lemma lor_byte_u8 b k : 0 <= b < 256 -> 0 <= k < 256 -> u8 (Z.lor b k) = Z.lor b k.
Proof.
  intros Hb Hk. rewrite u8_land, Z.land_lor_distr_l.
  rewrite <- !u8_land, !u8_small; trivial.
Qed.

Lemma le_bytes_48 u : 0 <= u < 2 ^ 48 ->
  exists b0 b1 b2 b3 b4 b5,
    le_bytes 8 u = [b0; b1; b2; b3; b4; b5; 0; 0] /\
    Forall (fun b => 0 <= b < 256) [b0; b1; b2; b3; b4; b5] /\
    u = le_value [b0; b1; b2; b3; b4; b5; 0; 0].
Proof.
  intros Hu. cbn [le_bytes le_value].
  do 6 eexists. split; [|split].
  - repeat f_equal; Z.div_mod_to_equations; lia.
  - repeat constructor; Z.div_mod_to_equations; lia.
  - Z.div_mod_to_equations; lia.
Qed.

Lemma word_of_halves c : 0 <= c < 65536 ->
  c mod 256 + 256 * (Z.shiftr c 8 mod 256 + 256 * 0) = c.
Proof.
  intros Hc. rewrite Z.shiftr_div_pow2 by lia. change (2 ^ 8) with 256.
  Z.div_mod_to_equations; lia.
Qed.

Lemma u16_small x : 0 <= x < 65536 -> u16 x = x.
Proof. intros H. unfold u16. now apply Z.mod_small. Qed.

Ltac u16_chain :=
  repeat match goal with
         | |- context [u16 ?x] => rewrite (u16_small x) by lia
         end.

(** The frame of a 48-bit UID, byte by byte. *)
Lemma disc_response_frame_bytes u : 0 <= u < 2 ^ 48 ->
  exists b0 b1 b2 b3 b4 b5,
    le_bytes 8 u = [b0; b1; b2; b3; b4; b5; 0; 0] /\
    Forall (fun b => 0 <= b < 256) [b0; b1; b2; b3; b4; b5] /\
    u = le_value [b0; b1; b2; b3; b4; b5; 0; 0] /\
    let cs := uid_checksum u in
    disc_response_frame u =
      [0xfe; 0xfe; 0xfe; 0xfe; 0xfe; 0xfe; 0xfe; 0xaa;
       u8 (Z.lor b5 0xaa); u8 (Z.lor b5 0x55); u8 (Z.lor b4 0xaa); u8 (Z.lor b4 0x55);
       u8 (Z.lor b3 0xaa); u8 (Z.lor b3 0x55); u8 (Z.lor b2 0xaa); u8 (Z.lor b2 0x55);
       u8 (Z.lor b1 0xaa); u8 (Z.lor b1 0x55); u8 (Z.lor b0 0xaa); u8 (Z.lor b0 0x55);
       u8 (Z.lor (Z.shiftr cs 8) 0xaa); u8 (Z.lor (Z.shiftr cs 8) 0x55);
       u8 (Z.lor cs 0xaa); u8 (Z.lor cs 0x55)].
Proof.
  intros Hu.
  destruct (le_bytes_48 u Hu) as (b0 & b1 & b2 & b3 & b4 & b5 & Hb & Hr & Hv).
  exists b0, b1, b2, b3, b4, b5. repeat split; trivial.
  pose proof Hr as Hr'.
  apply Forall_cons_iff in Hr as [H0 Hr]. apply Forall_cons_iff in Hr as [H1 Hr].
  apply Forall_cons_iff in Hr as [H2 Hr]. apply Forall_cons_iff in Hr as [H3 Hr].
  apply Forall_cons_iff in Hr as [H4 Hr]. apply Forall_cons_iff in Hr as [H5 _].
  unfold uid_checksum, disc_response_frame. rewrite Hb.
  cbv [encode_uid_loop byte_at nth repeat app insert list_insert Nat.add Nat.sub
       RDM_PREAMBLE RDM_DELIMITER firstn fold_right].
  change (0xaa + 0x55) with 255.
  replace (u16 (u16 (u16 (u16 (u16 (u16 (0 + (b5 + 255)) + (b4 + 255)) + (b3 + 255))
                      + (b2 + 255)) + (b1 + 255)) + (b0 + 255)))
    with (b0 + 255 + (b1 + 255 + (b2 + 255 + (b3 + 255 + (b4 + 255 + (b5 + 255 + 0)))))).
  - reflexivity.
  - u16_chain. lia.
Qed.

(** What [disc_decode] computes from the tail of an encoded frame. *)
Lemma disc_decode_frame u : 0 <= u < 2 ^ 48 ->
  disc_decode (skipn 8 (disc_response_frame u)) = (u, uid_checksum u, uid_checksum u).
Proof.
  intros Hu.
  destruct (disc_response_frame_bytes u Hu)
    as (b0 & b1 & b2 & b3 & b4 & b5 & Hb & Hr & Hv & Hf).
  cbv zeta in Hf. rewrite Hf. clear Hf.
  assert (Hcs : 0 <= uid_checksum u < 65536).
  { unfold uid_checksum. rewrite Hb. cbn [firstn fold_right].
    apply Forall_cons_iff in Hr as [H0 Hr]. apply Forall_cons_iff in Hr as [H1 Hr].
    apply Forall_cons_iff in Hr as [H2 Hr]. apply Forall_cons_iff in Hr as [H3 Hr].
    apply Forall_cons_iff in Hr as [H4 Hr]. apply Forall_cons_iff in Hr as [H5 _].
    lia. }
  assert (Hsum : uid_checksum u
                 = b0 + 255 + (b1 + 255 + (b2 + 255 + (b3 + 255 + (b4 + 255 + (b5 + 255 + 0)))))).
  { unfold uid_checksum. rewrite Hb. reflexivity. }
  set (cs := uid_checksum u) in *. clearbody cs.
  unfold disc_decode. change (le_bytes 8 0) with [0; 0; 0; 0; 0; 0; 0; 0].
  cbn. rewrite !manchester_pair.
  apply Forall_cons_iff in Hr as [H0 Hr]. apply Forall_cons_iff in Hr as [H1 Hr].
  apply Forall_cons_iff in Hr as [H2 Hr]. apply Forall_cons_iff in Hr as [H3 Hr].
  apply Forall_cons_iff in Hr as [H4 Hr]. apply Forall_cons_iff in Hr as [H5 _].
  rewrite !(Z.mod_small b0), !(Z.mod_small b1), !(Z.mod_small b2),
    !(Z.mod_small b3), !(Z.mod_small b4), !(Z.mod_small b5) by assumption.
  rewrite word_of_halves by assumption.
  cbn [le_value] in Hv. rewrite <- Hv.
  f_equal. f_equal.
  rewrite Hsum. u16_chain. lia.
Qed.

Lemma u8_lor x k : u8 (Z.lor x k) = Z.lor (u8 x) (u8 k).
Proof. now rewrite !u8_land, Z.land_lor_distr_l. Qed.

(** C2. For every 48-bit UID [u], the frame [rdm_send_disc_response] hands to
    the bus is 24 bytes long: seven 0xfe, one 0xaa, then for each UID byte
    (most significant first) the byte ORed with 0xaa and the byte ORed with
    0x55, then the checksum encoded the same way; [rdm_parse] recovers exactly
    [u] from it, and the sum recomputed from the recovered bytes (each plus
    0xff) equals the decoded checksum, so the call returns true. *)
Theorem rdm_parse_send_disc_response (DMX_NUM_MAX dmx_num u : Z) (ev : rdm_event_t) :
  0 <= u < 2 ^ 48 -> dmx_num < DMX_NUM_MAX ->
  exists frame,
    rdm_send_disc_response DMX_NUM_MAX dmx_num true u = Some frame /\
    length frame = 24%nat /\
    firstn 8 frame = repeat 0xfe 7 ++ [0xaa] /\
    (forall k, (k < 6)%nat ->
       byte_at frame (8 + 2 * k) = Z.lor (byte_at (le_bytes 8 u) (5 - k)) 0xaa /\
       byte_at frame (9 + 2 * k) = Z.lor (byte_at (le_bytes 8 u) (5 - k)) 0x55) /\
    (let cs := uid_checksum u in
     byte_at frame 20 = Z.lor (Z.shiftr cs 8) 0xaa /\
     byte_at frame 21 = Z.lor (Z.shiftr cs 8) 0x55 /\
     byte_at frame 22 = Z.lor (cs mod 256) 0xaa /\
     byte_at frame 23 = Z.lor (cs mod 256) 0x55) /\
    disc_decode (skipn 8 frame) = (u, uid_checksum u, uid_checksum u) /\
    rdm_parse (Some frame) 24 (Some ev) =
      (true,
       Some {| destination_uid := destination_uid ev; source_uid := u;
               tn := tn ev; port_id := port_id ev;
               message_count := message_count ev; sub_device := sub_device ev;
               cc := RDM_CC_DISC_COMMAND_RESPONSE;
               pid := RDM_PID_DISC_UNIQUE_BRANCH; pdl := pdl ev;
               checksum_is_valid := true |}).
Proof.
  intros Hu Hnum. exists (disc_response_frame u).
  pose proof (disc_decode_frame u Hu) as Hdec.
  destruct (disc_response_frame_bytes u Hu)
    as (b0 & b1 & b2 & b3 & b4 & b5 & Hb & Hr & Hv & Hf).
  cbv zeta in Hf.
  assert (Hcs : 0 <= uid_checksum u < 65536).
  { unfold uid_checksum. rewrite Hb. cbn [firstn fold_right].
    apply Forall_cons_iff in Hr as [H0 Hr]. apply Forall_cons_iff in Hr as [H1 Hr].
    apply Forall_cons_iff in Hr as [H2 Hr]. apply Forall_cons_iff in Hr as [H3 Hr].
    apply Forall_cons_iff in Hr as [H4 Hr]. apply Forall_cons_iff in Hr as [H5 _].
    lia. }
  apply Forall_cons_iff in Hr as [H0 Hr]. apply Forall_cons_iff in Hr as [H1 Hr].
  apply Forall_cons_iff in Hr as [H2 Hr]. apply Forall_cons_iff in Hr as [H3 Hr].
  apply Forall_cons_iff in Hr as [H4 Hr]. apply Forall_cons_iff in Hr as [H5 _].
  split.
  { unfold rdm_send_disc_response.
    replace (dmx_num <? DMX_NUM_MAX) with true by (symmetry; apply Z.ltb_lt; lia).
    reflexivity. }
  rewrite Hf in Hdec |- *. rewrite Hb. clear Hf Hb Hv.
  set (cs := uid_checksum u) in *. clearbody cs.
  repeat split.
  - destruct k as [|[|[|[|[|[|k]]]]]]; try lia;
      cbn [byte_at nth Nat.add Nat.mul Nat.sub]; apply lor_byte_u8; lia.
  - destruct k as [|[|[|[|[|[|k]]]]]]; try lia;
      cbn [byte_at nth Nat.add Nat.mul Nat.sub]; apply lor_byte_u8; lia.
  - cbn [byte_at nth]. apply lor_byte_u8; [|lia].
    rewrite Z.shiftr_div_pow2 by lia. change (2 ^ 8) with 256.
    Z.div_mod_to_equations; lia.
  - cbn [byte_at nth]. apply lor_byte_u8; [|lia].
    rewrite Z.shiftr_div_pow2 by lia. change (2 ^ 8) with 256.
    Z.div_mod_to_equations; lia.
  - cbn [byte_at nth]. now rewrite u8_lor.
  - cbn [byte_at nth]. now rewrite u8_lor.
  - exact Hdec.
  - unfold rdm_parse. cbn -[disc_decode skipn].
    change (skipn 8 ?l) with (skipn 8 l) in Hdec.
    rewrite Hdec, Z.eqb_refl. reflexivity.
Qed.

Lemma rdm_parse_send_disc_response_witness :
  exists frame,
    rdm_send_disc_response 3 1 true 0x05e012345678 = Some frame /\
    disc_decode (skipn 8 frame) =
      (0x05e012345678, uid_checksum 0x05e012345678, uid_checksum 0x05e012345678).
Proof.
  destruct (rdm_parse_send_disc_response 3 1 0x05e012345678
              (mk_event 0 0 0 0 0 0 0 0 0 false)) as (frame & Hs & _ & _ & _ & _ & Hd & _).
  - lia.
  - lia.
  - exists frame. split; assumption.
Defined.

(** The scenario as the specification words it does not hold: the event
    [rdm_parse] fills from [scenario_frame] neither carries the UID
    0202:02020202 nor a valid checksum. *)
Lemma scenario_frame_not_0202 :
  ~ (exists ev',
       snd (rdm_parse (Some scenario_frame) 24 (Some event_zero)) = Some ev' /\
       source_uid ev' = 0x020202020202 /\ checksum_is_valid ev' = true).
Proof.
  intros (ev' & Hev & Huid & _).
  vm_compute in Hev. injection Hev as <-. vm_compute in Huid. discriminate.
Qed.

(** C6, amended. [rdm_parse] reads the UID 0303:0303ffff from
    [scenario_frame] (a pair ab 57 decodes to 03 and a pair f5 aa to ff): the
    last two pairs of what the scenario takes for the UID are part of the
    twelve UID bytes. The sum recomputed from the recovered bytes is 0x0804,
    the decoded checksum is 0xffff, and the call returns false with
    [checksum_is_valid] false. The frame that carries 0202:02020202 is the one
    [rdm_send_disc_response] builds, fe (x7) aa, (aa 57) x6, ae 57 ae 57; it
    decodes to that UID with the checksum 0x0606 recomputed and decoded. *)
Theorem rdm_parse_scenario_frame (ev : rdm_event_t) :
  disc_decode (skipn 8 scenario_frame) = (0x03030303ffff, 0x0804, 0xffff) /\
  rdm_parse (Some scenario_frame) 24 (Some ev) =
    (false,
     Some {| destination_uid := destination_uid ev; source_uid := 0x03030303ffff;
             tn := tn ev; port_id := port_id ev;
             message_count := message_count ev; sub_device := sub_device ev;
             cc := RDM_CC_DISC_COMMAND_RESPONSE;
             pid := RDM_PID_DISC_UNIQUE_BRANCH; pdl := pdl ev;
             checksum_is_valid := false |}) /\
  disc_response_frame 0x020202020202 =
    [0xfe; 0xfe; 0xfe; 0xfe; 0xfe; 0xfe; 0xfe; 0xaa;
     0xaa; 0x57; 0xaa; 0x57; 0xaa; 0x57; 0xaa; 0x57; 0xaa; 0x57; 0xaa; 0x57;
     0xae; 0x57; 0xae; 0x57] /\
  disc_decode (skipn 8 (disc_response_frame 0x020202020202)) =
    (0x020202020202, 0x0606, 0x0606).
Proof.
  repeat split; reflexivity.
Qed.

End DiscResponse.

(** ** Port UIDs (rdm/utils.c, [rdm_uid_get]) *)

Section PortUid.
Import Utils.

Lemma lor_disjoint a b : Z.land a b = 0 -> Z.lor a b = a + b.
Proof.
  intros H. rewrite <- Z.lxor_lor by exact H. symmetry. now apply Z.add_nocarry_lxor.
Qed.

(** The mask 0xffffff00 clears the last octet of a 32-bit value. *)
Lemma land_high_octets d : 0 <= d < 2 ^ 32 -> Z.land d 0xffffff00 = 256 * (d / 256).
Proof.
  intros Hd.
  assert (Hsplit : d = Z.lor (Z.land d 0xffffff00) (Z.land d 0xff)).
  { rewrite <- Z.land_lor_distr_r. change (Z.lor 0xffffff00 0xff) with (Z.ones 32).
    rewrite Z.land_ones by lia. symmetry. apply Z.mod_small. lia. }
  assert (Hdis : Z.land (Z.land d 0xffffff00) (Z.land d 0xff) = 0).
  { rewrite (Z.land_comm d 0xff), Z.land_assoc, <- (Z.land_assoc d).
    change (Z.land 0xffffff00 0xff) with 0. now rewrite Z.land_0_r, Z.land_0_l. }
  rewrite lor_disjoint in Hsplit by exact Hdis.
  change 0xff with (Z.ones 8) in Hsplit. rewrite Z.land_ones in Hsplit by lia.
  change (2 ^ 8) with 256 in Hsplit.
  Z.div_mod_to_equations; lia.
Qed.

Lemma lor_last_octet d x :
  0 <= d < 2 ^ 32 -> 0 <= x < 256 ->
  Z.lor (Z.land d 0xffffff00) x = 256 * (d / 256) + x.
Proof.
  intros Hd Hx.
  rewrite lor_disjoint; [now rewrite land_high_octets|].
  replace x with (Z.land x 0xff) at 1.
  - rewrite (Z.land_comm x), Z.land_assoc, <- (Z.land_assoc d).
    change (Z.land 0xffffff00 0xff) with 0. now rewrite Z.land_0_r, Z.land_0_l.
  - change 0xff with (Z.ones 8). rewrite Z.land_ones by lia. apply Z.mod_small. lia.
Qed.

(** On the port whose index is 1 and a binding UID whose last octet is 01,
    the code yields the last octet 02, the XOR yields 00. *)
Lemma rdm_uid_get_not_xor :
  rdm_uid_get esp32_config (mk_uid 0x05e0 0x00000001) 1 (Some (mk_uid 0 0))
  <> (mk_uid 0x05e0 0x00000001, Some (uid_xor_port (mk_uid 0x05e0 0x00000001) 1)).
Proof. vm_compute. discriminate. Qed.

(** C5, amended. For every port index below [DMX_NUM_MAX], the UID
    [rdm_uid_get] returns is the binding UID (as the call leaves it, that is
    after its lazy initialisation) with the port index added to its last
    octet modulo 256; the manufacturer id and the three upper octets of the
    device id are those of the binding UID. *)
Theorem rdm_uid_get_adds_port (cfg : config) (rdm_binding_uid uid0 : rdm_uid_t)
    (dmx_num : Z) :
  0 <= dmx_num < DMX_NUM_MAX cfg ->
  let binding := fst (rdm_uid_get cfg rdm_binding_uid dmx_num (Some uid0)) in
  0 <= dev_id binding < 2 ^ 32 ->
  exists uid,
    snd (rdm_uid_get cfg rdm_binding_uid dmx_num (Some uid0)) = Some uid /\
    man_id uid = man_id binding /\
    dev_id uid / 256 = dev_id binding / 256 /\
    dev_id uid mod 256 = (dev_id binding mod 256 + dmx_num) mod 256.
Proof.
  intros Hnum binding Hdev. subst binding. revert Hdev.
  unfold rdm_uid_get.
  replace (DMX_NUM_MAX cfg <=? dmx_num) with false by (symmetry; apply Z.leb_gt; lia).
  cbn [fst snd].
  set (binding := if rdm_uid_is_null rdm_binding_uid then _ else _).
  intros Hdev. eexists. split; [reflexivity|]. cbn [man_id dev_id].
  split; [reflexivity|].
  rewrite lor_last_octet by (trivial; apply u8_range).
  pose proof (u8_range (u8 (dev_id binding) + dmx_num)) as Hr.
  unfold u8 in *. change (2 ^ 8) with 256 in *.
  split; Z.div_mod_to_equations; lia.
Qed.

Lemma rdm_uid_get_adds_port_witness :
  exists uid,
    snd (rdm_uid_get esp32_config (mk_uid 0x05e0 0x123456ff) 2 (Some (mk_uid 0 0)))
    = Some uid /\
    man_id uid = 0x05e0 /\ dev_id uid / 256 = 0x123456 /\ dev_id uid mod 256 = 1.
Proof.
  destruct (rdm_uid_get_adds_port esp32_config (mk_uid 0x05e0 0x123456ff)
              (mk_uid 0 0) 2) as (uid & H1 & H2 & H3 & H4).
  - cbn. lia.
  - cbn. lia.
  - exists uid. repeat split; assumption.
Defined.

End PortUid.

(** ** The bump allocator (rdm/utils.c, [rdm_pd_alloc]) *)

Section PdAlloc.
Import Utils.

Lemma u32_small x : 0 <= x < 2 ^ 32 -> u32 x = x.
Proof. intros H. unfold u32. now apply Z.mod_small. Qed.

(** One allocation keeps [pd_head] within [pd_size], whatever the size
    asked for. *)
Lemma rdm_pd_alloc_keeps_bound driver size :
  pd_head driver <= pd_size driver ->
  pd_head (snd (rdm_pd_alloc driver size)) <= pd_size (snd (rdm_pd_alloc driver size)).
Proof.
  intros H. unfold rdm_pd_alloc.
  destruct (size =? 0); [exact H|].
  destruct (u32 (pd_head driver + size) <=? pd_size driver) eqn:E; [|exact H].
  cbn. now apply Z.leb_le.
Qed.

Lemma rdm_pd_alloc_keeps_region driver size :
  pd (snd (rdm_pd_alloc driver size)) = pd driver /\
  pd_size (snd (rdm_pd_alloc driver size)) = pd_size driver.
Proof.
  unfold rdm_pd_alloc.
  destruct (size =? 0); [easy|].
  destruct (u32 (pd_head driver + size) <=? pd_size driver); easy.
Qed.

Lemma alloc_all_keeps_bound sizes : forall driver,
  pd_head driver <= pd_size driver ->
  pd_head (alloc_all driver sizes) <= pd_size (alloc_all driver sizes).
Proof.
  induction sizes as [|size sizes IH]; intros driver H; [exact H|].
  cbn [alloc_all fold_left]. apply IH. now apply rdm_pd_alloc_keeps_bound.
Qed.

(** The allocator where the sum does not wrap. On a driver whose backing
    region is allocated and whose [pd_head] lies within [pd_size], and for a
    size whose sum with [pd_head] is representable in [size_t]:
    [rdm_pd_alloc] returns NULL exactly when the
    size is zero or [pd_head + size > pd_size], and then leaves the driver as
    it was; otherwise it returns [pd + pd_head] and advances [pd_head] by
    exactly [size]. Across any sequence of allocations [pd_head] never exceeds
    [pd_size]. *)
Theorem rdm_pd_alloc_spec (driver : dmx_driver_t) (size : Z) :
  0 < pd driver ->
  0 <= pd_head driver <= pd_size driver ->
  0 <= size ->
  pd_head driver + size < 2 ^ 32 ->
  let ret := fst (rdm_pd_alloc driver size) in
  let driver' := snd (rdm_pd_alloc driver size) in
  (ret = NULL <-> size = 0 \/ pd_head driver + size > pd_size driver) /\
  (ret = NULL -> driver' = driver) /\
  (ret <> NULL ->
     ret = pd driver + pd_head driver /\
     pd_head driver' = pd_head driver + size /\
     pd driver' = pd driver /\ pd_size driver' = pd_size driver) /\
  (forall sizes,
     pd_head (alloc_all driver sizes) <= pd_size (alloc_all driver sizes)).
Proof.
  intros Hpd Hhead Hsize Hfit ret driver'. subst ret driver'.
  split; [|split; [|split]].
  - unfold rdm_pd_alloc, NULL.
    destruct (Z.eqb_spec size 0) as [->|Hne]; cbn [fst]; [intuition lia|].
    rewrite u32_small by lia.
    destruct (Z.leb_spec (pd_head driver + size) (pd_size driver)); cbn [fst]; lia.
  - unfold rdm_pd_alloc, NULL.
    destruct (Z.eqb_spec size 0) as [->|Hne]; cbn [fst snd]; [reflexivity|].
    rewrite u32_small by lia.
    destruct (Z.leb_spec (pd_head driver + size) (pd_size driver)); cbn [fst snd];
      [lia|reflexivity].
  - unfold rdm_pd_alloc, NULL.
    destruct (Z.eqb_spec size 0) as [->|Hne]; cbn [fst snd]; [congruence|].
    rewrite u32_small by lia.
    destruct (Z.leb_spec (pd_head driver + size) (pd_size driver)); cbn [fst snd];
      [|congruence].
    intros _. cbn. repeat split.
  - intros sizes. apply alloc_all_keeps_bound. lia.
Qed.

Lemma rdm_pd_alloc_spec_witness :
  let driver := mk_driver 0 0 0 [] 0x3ffb0000 64 8 in
  fst (rdm_pd_alloc driver 16) = 0x3ffb0008 /\
  pd_head (snd (rdm_pd_alloc driver 16)) = 24 /\
  (fst (rdm_pd_alloc driver 57) = NULL <-> 57 = 0 \/ 8 + 57 > 64).
Proof.
  intros driver.
  pose proof (rdm_pd_alloc_spec driver 16 ltac:(cbn; lia) ltac:(cbn; lia)
                ltac:(lia) ltac:(cbn; lia)) as H16.
  pose proof (rdm_pd_alloc_spec driver 57 ltac:(cbn; lia) ltac:(cbn; lia)
                ltac:(lia) ltac:(cbn; lia)) as H57.
  cbv zeta in H16, H57.
  destruct H16 as (_ & _ & H & _). destruct H57 as (H57 & _).
  destruct H as (H1 & H2 & _); [vm_compute; discriminate|].
  split; [exact H1 | split; [exact H2 | exact H57]].
Defined.

(** Where the [size_t] sum [pd_head + size] wraps, the test
    [pd_head + size <= pd_size] compares the wrapped sum: the allocation is
    granted although it overruns the region, and [pd_head] moves back. *)
Lemma rdm_pd_alloc_wrapped_sum driver size :
  0 < pd driver -> 0 <= pd_head driver <= pd_size driver ->
  pd_size driver < 2 ^ 32 ->
  0 < size < 2 ^ 32 -> 2 ^ 32 <= pd_head driver + size ->
  fst (rdm_pd_alloc driver size) = pd driver + pd_head driver /\
  fst (rdm_pd_alloc driver size) <> NULL /\
  pd_head (snd (rdm_pd_alloc driver size)) = pd_head driver + size - 2 ^ 32 /\
  pd_head (snd (rdm_pd_alloc driver size)) < pd_head driver.
Proof.
  intros Hpd Hhead Hps Hsize Hwrap.
  assert (Hu : u32 (pd_head driver + size) = pd_head driver + size - 2 ^ 32).
  { unfold u32. symmetry. apply (Z.mod_unique _ _ 1); lia. }
  unfold rdm_pd_alloc, NULL. rewrite Hu.
  destruct (Z.eqb_spec size 0) as [H0|_]; [lia|].
  destruct (Z.leb_spec (pd_head driver + size - 2 ^ 32) (pd_size driver)); [|lia].
  cbn [fst snd set_pd_head pd_head]. repeat split; lia.
Qed.

(** C10. The overrun test of [rdm_pd_alloc] is defeated by the wrap of the
    [size_t] sum. On a region of 64 bytes of which 8 are allocated, a request
    for 0xfffffff8 bytes overruns the region ([pd_head + size > pd_size]) and
    is not of size zero, and yet the call returns the pointer [pd + pd_head],
    not NULL; [pd_head] becomes 0 instead of advancing by [size]; the region
    handed out ends far beyond the backing region, and the next allocation of
    8 bytes returns [pd + 0], the bytes that were allocated before. *)
Theorem rdm_pd_alloc_wraps :
  let driver := mk_driver 0 0 0 [] 0x3ffb0000 64 8 in
  let size := 0xfffffff8 in
  let ret := fst (rdm_pd_alloc driver size) in
  let driver' := snd (rdm_pd_alloc driver size) in
  (size <> 0 /\ pd_head driver + size > pd_size driver) /\
  ret = pd driver + pd_head driver /\ ret <> NULL /\
  pd_head driver' = 0 /\ pd_head driver' <> pd_head driver + size /\
  pd driver + pd_size driver < ret + size /\
  fst (rdm_pd_alloc driver' 8) = pd driver.
Proof.
  intros driver size ret driver'.
  destruct (rdm_pd_alloc_wrapped_sum driver size) as (Hret & Hnull & Hhead & Hback);
    try (subst driver size; cbn; lia).
  fold ret in Hret, Hnull. fold driver' in Hhead, Hback.
  subst driver size. cbn [pd pd_head pd_size] in *.
  split; [split; lia|]. split; [exact Hret|]. split; [exact Hnull|].
  split; [lia|]. split; [lia|]. split; [lia|reflexivity].
Qed.

End PdAlloc.

(** ** The parameter table (rdm/utils.c, [rdm_register_parameter] and
       [rdm_get_parameter]) *)

Section ParameterTable.
Import Utils.

(** Where the scan of [rdm_register_parameter] stops. *)
Lemma pid_scan_spec cbs p : forall remaining i k,
  pid_scan cbs p i remaining = Some k ->
  (i <= k <= i + remaining)%nat /\
  (forall j cb, (i <= j < k)%nat -> cbs !! j = Some cb -> pid (desc cb) <> p) /\
  ((k < i + remaining)%nat -> exists cb, cbs !! k = Some cb /\ pid (desc cb) = p).
Proof.
  induction remaining as [|r IH]; intros i k H; cbn [pid_scan] in H.
  - injection H as <-. repeat split; try (intros; lia).
  - destruct (cbs !! i) as [cb|] eqn:Hi; [|discriminate].
    destruct (Z.eqb_spec (pid (desc cb)) p) as [Hp|Hp].
    + injection H as <-. repeat split; try (intros; lia).
      intros _. now exists cb.
    + apply IH in H as (Hk & Hbefore & Hat). repeat split; try lia.
      * intros j cb' Hj Hcb'. destruct (Nat.eq_dec j i) as [->|Hne].
        -- congruence.
        -- apply (Hbefore j); [lia|assumption].
      * intros Hlt. apply Hat. lia.
Qed.

Lemma pid_scan_total cbs p : forall remaining i,
  (i + remaining <= length cbs)%nat -> exists k, pid_scan cbs p i remaining = Some k.
Proof.
  induction remaining as [|r IH]; intros i H; cbn [pid_scan]; [eauto|].
  destruct (lookup_lt_is_Some_2 cbs i ltac:(lia)) as [cb ->].
  destruct (pid (desc cb) =? p); [eauto|]. apply IH. lia.
Qed.

Lemma pid_scan_absent cbs p : forall remaining i,
  (i + remaining <= length cbs)%nat ->
  (forall j cb, (i <= j < i + remaining)%nat -> cbs !! j = Some cb -> pid (desc cb) <> p) ->
  pid_scan cbs p i remaining = Some (i + remaining)%nat.
Proof.
  intros remaining i Hlen Habs.
  destruct (pid_scan_total cbs p remaining i Hlen) as [k Hk].
  rewrite Hk. f_equal.
  destruct (pid_scan_spec _ _ _ _ _ Hk) as (Hr & _ & Hat).
  destruct (Nat.eq_dec k (i + remaining)%nat) as [|Hne]; [assumption|].
  destruct Hat as (cb & Hcb & Hp); [lia|].
  exfalso. apply (Habs k cb); [lia|assumption|assumption].
Qed.

(** The lookup loop finds nothing when no slot in its range holds [p]. *)
Lemma find_cb_absent cbs p : forall remaining i,
  (i + remaining <= length cbs)%nat ->
  (forall j cb, (i <= j < i + remaining)%nat -> cbs !! j = Some cb -> pid (desc cb) <> p) ->
  find_cb cbs p i remaining = Some None.
Proof.
  induction remaining as [|r IH]; intros i Hlen Habs; cbn [find_cb]; [reflexivity|].
  destruct (lookup_lt_is_Some_2 cbs i ltac:(lia)) as [cb Hcb]. rewrite Hcb.
  destruct (Z.eqb_spec (pid (desc cb)) p) as [Hp|Hp].
  - exfalso. apply (Habs i cb); [lia|assumption|assumption].
  - apply IH; [lia|]. intros j cb' Hj. apply Habs. lia.
Qed.

(** C9. For every driver whose count of registered slots lies within the
    table, and every PID that none of the registered slots holds,
    [rdm_get_parameter] returns false and leaves the memory (so the caller's
    buffer) and the caller's size cell as they were. *)
Theorem rdm_get_parameter_unregistered (cfg : config) (driver : dmx_driver_t)
    (m : mem) (p param_ size : Z) :
  (num_rdm_cbs driver <= length (rdm_cbs driver))%nat ->
  ~ registered driver p ->
  rdm_get_parameter cfg driver m p param_ size = Some (false, m, size).
Proof.
  intros Hwf Hnot. unfold rdm_get_parameter.
  rewrite find_cb_absent; [reflexivity|cbn; lia|].
  intros j cb Hj Hcb Hp. apply Hnot. exists j, cb. repeat split; [lia|assumption|assumption].
Qed.

Lemma not_registered_driver_one_pid : ~ registered driver_one_pid 0x0080.
Proof.
  intros (i & cb & Hi & Hcb & Hp). cbn in Hi.
  assert (i = 0%nat) as -> by lia. cbn in Hcb. injection Hcb as <-. discriminate.
Qed.

Lemma rdm_get_parameter_unregistered_witness :
  rdm_get_parameter esp32_config driver_one_pid mem_letters 0x0080 0x3ffc0000 2
  = Some (false, mem_letters, 2).
Proof.
  apply rdm_get_parameter_unregistered.
  - cbn. lia.
  - exact not_registered_driver_one_pid.
Defined.

(** X3. Registering, for the root sub-device, a PID that is present at slot
    [i]: the call returns true, slot [i] is overwritten in place with the new
    descriptor and handlers, and the count is incremented all the same. *)
Theorem rdm_register_parameter_present cfg driver d ps dcb pa ucb ctx i :
  (num_rdm_cbs driver <= length (rdm_cbs driver))%nat ->
  length (rdm_cbs driver) = RDM_RESPONDER_PIDS_MAX cfg ->
  (i < num_rdm_cbs driver)%nat ->
  (exists cb, rdm_cbs driver !! i = Some cb /\ pid (desc cb) = pid d) ->
  (forall j cb, (j < i)%nat -> rdm_cbs driver !! j = Some cb -> pid (desc cb) <> pid d) ->
  rdm_register_parameter cfg driver RDM_SUB_DEVICE_ROOT d ps dcb pa ucb ctx =
    Some (true,
          set_rdm_cbs driver (<[i := mk_cb d ps dcb pa ucb ctx]> (rdm_cbs driver))
            (S (num_rdm_cbs driver))).
Proof.
  intros Hwf Hcap Hi (cb & Hcb & Hp) Hfirst. unfold rdm_register_parameter.
  cbn [RDM_SUB_DEVICE_ROOT Z.eqb negb].
  destruct (pid_scan_total (rdm_cbs driver) (pid d) (num_rdm_cbs driver) 0
              ltac:(cbn; lia)) as [k Hk].
  rewrite Hk. destruct (pid_scan_spec _ _ _ _ _ Hk) as (Hr & Hbefore & Hat).
  assert (k = i) as ->.
  { destruct (Nat.lt_trichotomy k i) as [Hlt|[->|Hgt]]; [|reflexivity|].
    - destruct Hat as (cb' & Hcb' & Hp'); [lia|]. exfalso. now apply (Hfirst k cb').
    - exfalso. apply (Hbefore i cb); [lia|assumption|assumption]. }
  replace (i =? RDM_RESPONDER_PIDS_MAX cfg)%nat with false
    by (symmetry; apply Nat.eqb_neq; lia).
  replace (i <? length (rdm_cbs driver))%nat with true
    by (symmetry; apply Nat.ltb_lt; lia).
  reflexivity.
Qed.

Lemma registered_driver_one_pid : registered driver_one_pid 0x00f0.
Proof. exists 0%nat. eexists. repeat split. cbn. lia. Qed.

Lemma rdm_register_parameter_present_witness :
  rdm_register_parameter esp32_config driver_one_pid RDM_SUB_DEVICE_ROOT
    (desc_start_address 7) 0x3f400000 0x400d0000 0x3ffb0000 0 0
  = Some (true,
          set_rdm_cbs driver_one_pid
            (<[0%nat := mk_cb (desc_start_address 7) 0x3f400000 0x400d0000 0x3ffb0000 0 0]>
               (rdm_cbs driver_one_pid))
            2).
Proof.
  apply (rdm_register_parameter_present esp32_config driver_one_pid
           (desc_start_address 7) 0x3f400000 0x400d0000 0x3ffb0000 0 0 0).
  - cbn. lia.
  - reflexivity.
  - cbn. lia.
  - eexists. split; reflexivity.
  - intros j cb Hj. lia.
Defined.

(** X4. Registering, for the root sub-device, a PID that is absent fails
    exactly when the count of registered entries equals the capacity of the
    table; otherwise the PID takes the next free slot. *)
Theorem rdm_register_parameter_absent cfg driver d ps dcb pa ucb ctx :
  (num_rdm_cbs driver <= length (rdm_cbs driver))%nat ->
  length (rdm_cbs driver) = RDM_RESPONDER_PIDS_MAX cfg ->
  ~ registered driver (pid d) ->
  rdm_register_parameter cfg driver RDM_SUB_DEVICE_ROOT d ps dcb pa ucb ctx =
    if (num_rdm_cbs driver =? RDM_RESPONDER_PIDS_MAX cfg)%nat
    then Some (false, driver)
    else Some (true,
               set_rdm_cbs driver
                 (<[num_rdm_cbs driver := mk_cb d ps dcb pa ucb ctx]> (rdm_cbs driver))
                 (S (num_rdm_cbs driver))).
Proof.
  intros Hwf Hcap Hnot. unfold rdm_register_parameter.
  cbn [RDM_SUB_DEVICE_ROOT Z.eqb negb].
  rewrite pid_scan_absent; [|cbn; lia|].
  - cbn [Nat.add]. destruct (Nat.eqb_spec (num_rdm_cbs driver) (RDM_RESPONDER_PIDS_MAX cfg));
      [reflexivity|].
    replace (num_rdm_cbs driver <? length (rdm_cbs driver))%nat with true
      by (symmetry; apply Nat.ltb_lt; lia).
    reflexivity.
  - intros j cb Hj Hcb Hp. apply Hnot. exists j, cb. repeat split; [lia|assumption|assumption].
Qed.

Lemma rdm_register_parameter_absent_witness :
  rdm_register_parameter esp32_config driver_one_pid RDM_SUB_DEVICE_ROOT
    (mk_desc 0x0080 0 0 0 0 0 0 0 0 []) 0 0x400d0000 0 0 0
  = Some (true,
          set_rdm_cbs driver_one_pid
            (<[1%nat := mk_cb (mk_desc 0x0080 0 0 0 0 0 0 0 0 []) 0 0x400d0000 0 0 0]>
               (rdm_cbs driver_one_pid))
            2).
Proof.
  apply (rdm_register_parameter_absent esp32_config driver_one_pid
           (mk_desc 0x0080 0 0 0 0 0 0 0 0 []) 0 0x400d0000 0 0 0).
  - cbn. lia.
  - reflexivity.
  - exact not_registered_driver_one_pid.
Defined.

(** X5. A call of [rdm_register_parameter], whatever it is given and
    whatever it returns, keeps every registered PID registered. *)
Theorem rdm_register_parameter_keeps cfg driver sub_device d ps dcb pa ucb ctx r driver' q :
  rdm_register_parameter cfg driver sub_device d ps dcb pa ucb ctx = Some (r, driver') ->
  registered driver q -> registered driver' q.
Proof.
  unfold rdm_register_parameter. intros H Hq.
  destruct (negb (sub_device =? RDM_SUB_DEVICE_ROOT)); [now injection H as _ <-|].
  destruct (pid_scan _ _ _ _) as [k|] eqn:Hk; [|discriminate].
  destruct (k =? RDM_RESPONDER_PIDS_MAX cfg)%nat; [now injection H as _ <-|].
  destruct (Nat.ltb_spec k (length (rdm_cbs driver))) as [Hlt|]; [|discriminate].
  injection H as _ <-.
  destruct (pid_scan_spec _ _ _ _ _ Hk) as (Hr & Hbefore & Hat).
  destruct Hq as (i & cb & Hi & Hcb & Hp).
  destruct (Nat.eq_dec i k) as [->|Hne].
  - exists k. eexists. cbn [set_rdm_cbs num_rdm_cbs rdm_cbs]. split; [lia|]. split.
    + now apply list_lookup_insert_eq.
    + cbn. destruct Hat as (cb' & Hcb' & Hp'); [lia|]. congruence.
  - exists i, cb. cbn [set_rdm_cbs num_rdm_cbs rdm_cbs]. split; [lia|]. split; [|assumption].
    rewrite list_lookup_insert_ne by congruence. assumption.
Qed.

Lemma rdm_register_parameter_keeps_witness :
  exists r driver',
    rdm_register_parameter esp32_config driver_one_pid RDM_SUB_DEVICE_ROOT
      (mk_desc 0x0080 0 0 0 0 0 0 0 0 []) 0 0x400d0000 0 0 0 = Some (r, driver') /\
    registered driver' 0x00f0.
Proof.
  destruct (rdm_register_parameter esp32_config driver_one_pid RDM_SUB_DEVICE_ROOT
              (mk_desc 0x0080 0 0 0 0 0 0 0 0 []) 0 0x400d0000 0 0 0)
    as [[r driver']|] eqn:E; [|vm_compute in E; discriminate].
  exists r, driver'. split; [reflexivity|].
  exact (rdm_register_parameter_keeps _ _ _ _ _ _ _ _ _ _ _ _ E registered_driver_one_pid).
Defined.

(** C8, at the failing input. [driver_one_pid] holds one registered PID,
    0x00f0. Registering 0x00f0 again succeeds and overwrites slot 0 in place,
    the table keeps its sixteen slots, but the count of registered entries
    goes from 1 to 2 - so the zeroed slot 1 now counts as an entry, and PID 0,
    which nobody registered, is registered. *)
Theorem rdm_register_parameter_again_counts_twice :
  exists driver',
    rdm_register_parameter esp32_config driver_one_pid RDM_SUB_DEVICE_ROOT
      (desc_start_address 7) 0x3f400000 0x400d0000 0x3ffb0000 0 0
    = Some (true, driver') /\
    num_rdm_cbs driver_one_pid = 1%nat /\
    num_rdm_cbs driver' = 2%nat /\
    length (rdm_cbs driver') = 16%nat /\
    rdm_cbs driver' !! 0%nat
      = Some (mk_cb (desc_start_address 7) 0x3f400000 0x400d0000 0x3ffb0000 0 0) /\
    ~ registered driver_one_pid 0 /\
    registered driver' 0.
Proof.
  eexists. split; [vm_compute; reflexivity|].
  repeat split.
  - intros (i & cb & Hi & Hcb & Hp). cbn in Hi.
    assert (i = 0%nat) as -> by lia. cbn in Hcb. injection Hcb as <-. discriminate.
  - exists 1%nat, cb_zero. repeat split. cbn. lia.
Qed.

End ParameterTable.

(** ** Controller requests (rdm/utils.c, [rdm_send_request]) *)

Section SendRequest.
Import Utils.

Lemma rdm_uid_is_eq_true a b : rdm_uid_is_eq a b = true <-> a = b.
Proof.
  unfold rdm_uid_is_eq. rewrite andb_true_iff, !Z.eqb_eq.
  destruct a, b; cbn. split; [intros [-> ->]; reflexivity | now injection 1].
Qed.

Lemma response_type_eqb_true a b : response_type_eqb a b = true <-> a = b.
Proof.
  destruct a, b; cbn; split; try congruence; try reflexivity.
  - intros H. apply Z.eqb_eq in H. now subst.
  - injection 1 as ->. apply Z.eqb_refl.
Qed.

(** The header goes out with the transaction number of the port. *)
Lemma rdm_send_request_header_tn cfg driver binding bus resp0 dmx_num header pdl ack :
  hdr_tn (res_header (rdm_send_request cfg driver binding bus resp0 dmx_num header pdl ack))
  = tn driver.
Proof.
  unfold rdm_send_request.
  destruct (if rdm_uid_is_null (hdr_src_uid header) then _ else _) as [b src].
  destruct (mux_taken bus); [|reflexivity]. cbn [negb].
  destruct (sent_in_time bus); [|reflexivity]. cbn [negb].
  destruct (_ || _).
  - destruct (_ && _); [reflexivity|]. destruct (_ =? _); [reflexivity|].
    destruct (classify_response _ _ _). reflexivity.
  - reflexivity.
Qed.

(** The driver after a call: [dmx_send] has run exactly when the request
    reached the wire. *)
Lemma rdm_send_request_driver cfg driver binding bus resp0 dmx_num header pdl ack :
  res_driver (rdm_send_request cfg driver binding bus resp0 dmx_num header pdl ack)
  = if on_wire bus then dmx_send driver (written bus) else driver.
Proof.
  unfold rdm_send_request, on_wire.
  destruct (if rdm_uid_is_null (hdr_src_uid header) then _ else _) as [b src].
  destruct (mux_taken bus); [|reflexivity]. cbn [negb andb].
  destruct (sent_in_time bus); [|reflexivity]. cbn [negb].
  destruct (_ || _).
  - destruct (_ && _); [reflexivity|]. destruct (_ =? _); [reflexivity|].
    destruct (classify_response _ _ _). reflexivity.
  - reflexivity.
Qed.

Lemma rdm_send_request_sends cfg driver binding bus resp0 dmx_num header pdl ack :
  In (Send (written bus))
     (res_trace (rdm_send_request cfg driver binding bus resp0 dmx_num header pdl ack))
  <-> on_wire bus = true.
Proof.
  unfold rdm_send_request, on_wire.
  destruct (if rdm_uid_is_null (hdr_src_uid header) then _ else _) as [b src].
  destruct (mux_taken bus); cbn [negb andb res_trace].
  2:{ split; [|discriminate]. cbn. intros [H|[]]. discriminate. }
  destruct (sent_in_time bus); cbn [negb res_trace].
  2:{ split; [|discriminate]. cbn. intros [H|[H|[H|[]]]]; discriminate. }
  split; [reflexivity|]. intros _.
  destruct (_ || _).
  - destruct (_ && _); [cbn; tauto|]. destruct (_ =? _); [cbn; tauto|].
    destruct (classify_response _ _ _). cbn; tauto.
  - cbn; tauto.
Qed.

Lemma run_requests_tn cfg calls : forall driver binding,
  tn (fst (run_requests cfg driver binding calls)) mod 256
  = (tn driver + requests_on_wire calls) mod 256.
Proof.
  induction calls as [|c calls IH]; intros driver binding.
  - cbn. now rewrite Z.add_0_r.
  - cbn [run_requests requests_on_wire]. rewrite IH, rdm_send_request_driver.
    destruct (on_wire (call_bus c)).
    + cbn [dmx_send set_tn tn]. unfold u8. change (2 ^ 8) with 256.
      rewrite Zplus_mod_idemp_l. f_equal; lia.
    + f_equal; lia.
Qed.

Lemma run_requests_tn_range cfg calls : forall driver binding,
  0 <= tn driver < 256 ->
  0 <= tn (fst (run_requests cfg driver binding calls)) < 256.
Proof.
  induction calls as [|c calls IH]; intros driver binding H; [exact H|].
  cbn [run_requests]. apply IH. rewrite rdm_send_request_driver.
  destruct (on_wire (call_bus c)); [|exact H].
  cbn [dmx_send set_tn tn]. apply u8_range.
Qed.

(** C3. The header of a request carries the transaction number stored in
    the port. The request is handed to [dmx_send] exactly when the mutex was
    taken and the previous packet was sent in time; then the stored
    transaction number becomes the old one plus 1 modulo 256, otherwise the
    driver is left as it was. The number never moves backwards: after any
    sequence of calls it is the initial number plus the count of requests
    that reached the wire, modulo 256. *)
Theorem rdm_send_request_tn (cfg : config) (driver : dmx_driver_t)
    (binding : rdm_uid_t) (bus : bus_t) (resp0 : rdm_header_t) (dmx_num : Z)
    (header : rdm_header_t) (pdl : Z) (ack : option rdm_ack_t)
    (calls : list request_call) :
  0 <= tn driver < 256 ->
  let r := rdm_send_request cfg driver binding bus resp0 dmx_num header pdl ack in
  hdr_tn (res_header r) = tn driver /\
  (In (Send (written bus)) (res_trace r) <-> on_wire bus = true) /\
  (on_wire bus = true -> tn (res_driver r) = (tn driver + 1) mod 256) /\
  (on_wire bus = false -> res_driver r = driver) /\
  tn (fst (run_requests cfg driver binding calls))
  = (tn driver + requests_on_wire calls) mod 256.
Proof.
  intros Htn r. subst r. repeat split.
  - apply rdm_send_request_header_tn.
  - apply rdm_send_request_sends.
  - apply rdm_send_request_sends.
  - intros H. now rewrite rdm_send_request_driver, H.
  - intros H. now rewrite rdm_send_request_driver, H.
  - rewrite <- (run_requests_tn cfg calls driver binding). symmetry. apply Z.mod_small.
    now apply run_requests_tn_range.
Qed.

Lemma rdm_send_request_tn_witness :
  let r := rdm_send_request esp32_config (set_tn driver_tn7 255) uid_controller
             (bus_answer (device_info_response RDM_RESPONSE_TYPE_ACK 255 19) [])
             header_garbage 1 get_device_info 231 (Some ack_zero) in
  hdr_tn (res_header r) = 255 /\ tn (res_driver r) = 0.
Proof.
  intros r.
  pose proof (rdm_send_request_tn esp32_config (set_tn driver_tn7 255) uid_controller
                (bus_answer (device_info_response RDM_RESPONSE_TYPE_ACK 255 19) [])
                header_garbage 1 get_device_info 231 (Some ack_zero) []
                ltac:(cbn; lia)) as H.
  cbv zeta in H. destruct H as (H1 & _ & H2 & _).
  split; [exact H1 | exact (H2 eq_refl)].
Defined.

Lemma awaited_case (l : list io_event) (A Q : Prop) :
  In Receive l -> A -> (In Receive l <-> A) /\ (~ In Receive l -> Q).
Proof. intros Hl HA. split; [tauto|]. intros Hn. now destruct Hn. Qed.

(** C4. When the request reaches the wire, [dmx_receive] is called - a
    response is awaited - if and only if the destination UID is not a
    broadcast UID or the request is DISC_UNIQUE_BRANCH. In every other case
    the call waits for the send to complete ([dmx_wait_sent]), gives the mutex
    back and returns false, with [ack->type] set to RDM_RESPONSE_TYPE_NONE. *)
Theorem rdm_send_request_awaits_response (cfg : config) (driver : dmx_driver_t)
    (binding : rdm_uid_t) (bus : bus_t) (resp0 : rdm_header_t) (dmx_num : Z)
    (header : rdm_header_t) (pdl : Z) (ack : option rdm_ack_t) :
  on_wire bus = true ->
  let r := rdm_send_request cfg driver binding bus resp0 dmx_num header pdl ack in
  (In Receive (res_trace r) <->
     rdm_uid_is_broadcast (hdr_dest_uid header) = false
     \/ is_disc_unique_branch header = true) /\
  (~ In Receive (res_trace r) ->
     ret r = false /\
     res_trace r = [TakeMux; WaitSent (pdMS_TO_TICKS cfg 30); WriteRdm (res_header r);
                    Send (written bus); WaitSent 2; GiveMux] /\
     (forall a, ack = Some a ->
        exists a', res_ack r = Some a' /\ ack_type a' = RDM_RESPONSE_TYPE_NONE)).
Proof.
  intros Hwire r. subst r. unfold on_wire in Hwire.
  apply andb_true_iff in Hwire as [Hmux Hsent].
  unfold rdm_send_request, is_disc_unique_branch.
  destruct (if rdm_uid_is_null (hdr_src_uid header) then _ else _) as [b src].
  rewrite Hmux, Hsent. cbn [negb hdr_dest_uid hdr_pid hdr_cc].
  destruct (rdm_uid_is_broadcast (hdr_dest_uid header)); cbn [negb orb].
  - destruct ((hdr_pid header =? RDM_PID_DISC_UNIQUE_BRANCH)
              && (hdr_cc header =? RDM_CC_DISC_COMMAND)).
    + destruct (_ && _); [apply awaited_case; cbn; tauto|].
      destruct (_ =? _); [apply awaited_case; cbn; tauto|].
      destruct (classify_response _ _ _). apply awaited_case; cbn; tauto.
    + cbn [res_trace ret res_ack res_header app]. split.
      * split; [|intros [H|H]; discriminate].
        cbn. intros [H|[H|[H|[H|[H|[H|[]]]]]]]; discriminate.
      * intros _. split; [reflexivity|]. split; [reflexivity|].
        intros a ->. cbn. eexists. split; reflexivity.
  - destruct (_ && _); [apply awaited_case; cbn; tauto|].
    destruct (_ =? _); [apply awaited_case; cbn; tauto|].
    destruct (classify_response _ _ _). apply awaited_case; cbn; tauto.
Qed.

Lemma rdm_send_request_awaits_response_witness :
  let broadcast_mute :=
    mk_header (mk_uid 0xffff 0xffffffff) uid_controller 0 0 RDM_RESPONSE_TYPE_NONE
      0 0 RDM_CC_DISC_COMMAND 0x0002 0 in
  let r := rdm_send_request esp32_config driver_tn7 uid_controller
             (bus_answer header_garbage []) header_garbage 1 broadcast_mute 231
             (Some ack_zero) in
  ~ In Receive (res_trace r) /\ ret r = false /\
  option_map ack_type (res_ack r) = Some RDM_RESPONSE_TYPE_NONE.
Proof.
  intros broadcast_mute r.
  pose proof (rdm_send_request_awaits_response esp32_config driver_tn7 uid_controller
                (bus_answer header_garbage []) header_garbage 1 broadcast_mute 231
                (Some ack_zero) eq_refl) as H.
  cbv zeta in H. destruct H as [Hiff Hnone].
  assert (Hn : ~ In Receive (res_trace r)).
  { intros Hin. apply Hiff in Hin. destruct Hin as [Hin|Hin]; vm_compute in Hin; discriminate. }
  split; [exact Hn|]. destruct (Hnone Hn) as (Hret & _ & Hack).
  split; [exact Hret|]. destruct (Hack ack_zero eq_refl) as (a' & Ha' & Ht).
  fold r in Ha'. now rewrite Ha', <- Ht.
Defined.

(** The header test of [rdm_send_request] fails on no clause exactly when
    the response answers the request. *)
Lemma header_test_matches req resp :
  negb (hdr_cc req =? hdr_cc resp - 1)
  || negb (hdr_pid req =? hdr_pid resp)
  || negb (hdr_tn req =? hdr_tn resp)
  || negb (rdm_uid_is_target (hdr_src_uid resp) (hdr_dest_uid req))
  || negb (rdm_uid_is_eq (hdr_dest_uid resp) (hdr_src_uid req)) = false
  <-> response_matches req resp.
Proof.
  unfold response_matches.
  rewrite !orb_false_iff, !negb_false_iff, !Z.eqb_eq, rdm_uid_is_eq_true.
  intuition lia.
Qed.

(** The response type [classify_response] settles on. *)
Lemma classify_response_type req bus resp0 :
  let t := fst (classify_response req bus resp0) in
  (rx_header bus = None -> t = RDM_RESPONSE_TYPE_INVALID) /\
  (forall resp, rx_header bus = Some resp ->
     (is_ack_kind (hdr_response_type resp) = false -> t = RDM_RESPONSE_TYPE_INVALID) /\
     (hdr_pid req <> RDM_PID_DISC_UNIQUE_BRANCH -> ~ response_matches req resp ->
      t = RDM_RESPONSE_TYPE_INVALID) /\
     (is_ack_kind (hdr_response_type resp) = true ->
      hdr_pid req = RDM_PID_DISC_UNIQUE_BRANCH \/ response_matches req resp ->
      t = hdr_response_type resp)).
Proof.
  unfold classify_response. split.
  - intros ->. reflexivity.
  - intros resp ->.
    destruct (negb (hdr_cc req =? hdr_cc resp - 1) || _ || _ || _ || _) eqn:Etest.
    + assert (Hno : ~ response_matches req resp).
      { intros Hm. apply header_test_matches in Hm. congruence. }
      destruct (Z.eqb_spec (hdr_pid req) RDM_PID_DISC_UNIQUE_BRANCH) as [Hp|Hp];
        cbn [negb andb]; rewrite ?andb_true_r, ?andb_false_r.
      * destruct (hdr_response_type resp); cbn; repeat split; intros;
          try reflexivity; try discriminate; tauto.
      * destruct (hdr_response_type resp); cbn; repeat split; intros;
          try reflexivity; try discriminate; tauto.
    + rewrite andb_false_r.
      destruct (hdr_response_type resp); cbn; repeat split; intros;
        try reflexivity; try discriminate.
      all: apply header_test_matches in Etest; tauto.
Qed.

(** What a call that received a response returns and reports. *)
Lemma rdm_send_request_received cfg driver binding bus resp0 dmx_num header pdl ack :
  response_received header bus ->
  let r := rdm_send_request cfg driver binding bus resp0 dmx_num header pdl ack in
  let t := fst (classify_response (res_header r) bus resp0) in
  ret r = response_type_eqb t RDM_RESPONSE_TYPE_ACK /\
  option_map ack_type (res_ack r) = option_map (fun _ => t) ack.
Proof.
  intros (Hwire & Hexp & Herr & Hsize) r. subst r.
  unfold on_wire in Hwire. apply andb_true_iff in Hwire as [Hmux Hsent].
  unfold rdm_send_request, is_disc_unique_branch in *.
  destruct (if rdm_uid_is_null (hdr_src_uid header) then _ else _) as [b src].
  rewrite Hmux, Hsent. cbn [negb hdr_dest_uid hdr_pid hdr_cc].
  replace (negb (rdm_uid_is_broadcast (hdr_dest_uid header)) || _) with true.
  2:{ destruct Hexp as [->| ->]; [reflexivity|symmetry; apply orb_true_r]. }
  replace (negb (rx_err bus =? 0) && negb (rx_err bus =? DMX_ERR_TIMEOUT)) with false.
  2:{ destruct Herr as [->| ->]; reflexivity. }
  replace (rx_size bus =? 0) with false by (symmetry; now apply Z.eqb_neq).
  destruct (classify_response _ bus resp0) as [t resp] eqn:Ec.
  cbn [ret res_ack res_header]. rewrite Ec. cbn [fst].
  split; [reflexivity|]. now destruct ack.
Qed.

(** A well-formed NACK_REASON response that answers the request fails the
    check "the response type is ACK", and yet the call reports
    RDM_RESPONSE_TYPE_NACK_REASON, not RDM_RESPONSE_TYPE_INVALID. *)
Lemma nack_response_is_not_invalid :
  let bus := bus_answer (device_info_response RDM_RESPONSE_TYPE_NACK_REASON 7 2) [0; 0] in
  let r := rdm_send_request esp32_config driver_tn7 uid_controller bus
             header_garbage 1 get_device_info 231 (Some ack_zero) in
  ~ (~ response_passes (res_header r) bus ->
     ret r = false /\
     option_map ack_type (res_ack r) = Some RDM_RESPONSE_TYPE_INVALID).
Proof.
  intros bus r H.
  assert (Hfail : ~ response_passes (res_header r) bus).
  { intros (resp & Hresp & Ht & _). vm_compute in Hresp. injection Hresp as <-.
    discriminate. }
  apply H in Hfail as [_ Hack]. vm_compute in Hack. discriminate.
Qed.

(** C1, amended. For a request that received a response, the call returns
    true if and only if the response decodes, its response type is
    RDM_RESPONSE_TYPE_ACK and - unless the PID of the request is
    DISC_UNIQUE_BRANCH - it answers the request. [ack->type] is
    RDM_RESPONSE_TYPE_INVALID when the response does not decode, when its
    response type is none of ACK, ACK_TIMER, NACK_REASON and ACK_OVERFLOW, or
    when it does not answer the request; the call then returns false. A
    response of one of the four types that answers the request is reported
    with its own type, and the call returns false unless that type is ACK. *)
Theorem rdm_send_request_checks (cfg : config) (driver : dmx_driver_t)
    (binding : rdm_uid_t) (bus : bus_t) (resp0 : rdm_header_t) (dmx_num : Z)
    (header : rdm_header_t) (pdl : Z) (ack : option rdm_ack_t) :
  response_received header bus ->
  let r := rdm_send_request cfg driver binding bus resp0 dmx_num header pdl ack in
  let req := res_header r in
  (ret r = true <-> response_passes req bus) /\
  (forall a, ack = Some a ->
     exists a', res_ack r = Some a' /\
       (rx_header bus = None ->
        ack_type a' = RDM_RESPONSE_TYPE_INVALID /\ ret r = false) /\
       (forall resp, rx_header bus = Some resp ->
          (is_ack_kind (hdr_response_type resp) = false ->
           ack_type a' = RDM_RESPONSE_TYPE_INVALID /\ ret r = false) /\
          (hdr_pid req <> RDM_PID_DISC_UNIQUE_BRANCH -> ~ response_matches req resp ->
           ack_type a' = RDM_RESPONSE_TYPE_INVALID /\ ret r = false) /\
          (is_ack_kind (hdr_response_type resp) = true ->
           hdr_pid req = RDM_PID_DISC_UNIQUE_BRANCH \/ response_matches req resp ->
           ack_type a' = hdr_response_type resp /\
           (ret r = false <-> hdr_response_type resp <> RDM_RESPONSE_TYPE_ACK)))).
Proof.
  intros Hrecv r req.
  destruct (rdm_send_request_received cfg driver binding bus resp0 dmx_num header
              pdl ack Hrecv) as [Hret Hack].
  fold r in Hret, Hack. fold req in Hret, Hack.
  destruct (classify_response_type req bus resp0) as [Hnone Hsome].
  set (t := fst (classify_response req bus resp0)) in *.
  assert (Hinv : t = RDM_RESPONSE_TYPE_INVALID -> ret r = false).
  { intros Ht. rewrite Hret, Ht. reflexivity. }
  split.
  - rewrite Hret, response_type_eqb_true. unfold response_passes. split.
    + intros Ht. destruct (rx_header bus) as [resp|] eqn:Hresp.
      * destruct (Hsome resp eq_refl) as (Hkind & Hmis & Hok).
        exists resp. split; [reflexivity|].
        destruct (is_ack_kind (hdr_response_type resp)) eqn:Ek.
        2:{ rewrite Hkind in Ht by reflexivity. discriminate. }
        assert (Hm : hdr_pid req <> RDM_PID_DISC_UNIQUE_BRANCH -> response_matches req resp).
        { intros Hp.
          destruct (header_test_matches req resp) as [Hto _].
          destruct (negb (hdr_cc req =? hdr_cc resp - 1) || _ || _ || _ || _) eqn:Etest.
          - exfalso. assert (Hno : ~ response_matches req resp).
            { intros Hmm. apply header_test_matches in Hmm. congruence. }
            rewrite (Hmis Hp Hno) in Ht. discriminate.
          - now apply Hto. }
        split; [|exact Hm].
        rewrite <- Ht. symmetry. apply Hok; [reflexivity|].
        destruct (Z.eq_dec (hdr_pid req) RDM_PID_DISC_UNIQUE_BRANCH); [now left|right; auto].
      * rewrite Hnone in Ht by reflexivity. discriminate.
    + intros (resp & Hresp & Htype & Hm).
      destruct (Hsome resp Hresp) as (_ & _ & Hok).
      rewrite Hok, Htype; [reflexivity| now rewrite Htype|].
      destruct (Z.eq_dec (hdr_pid req) RDM_PID_DISC_UNIQUE_BRANCH); [now left|right; auto].
  - intros a ->. cbn [option_map] in Hack.
    destruct (res_ack r) as [a'|]; [|discriminate]. injection Hack as Hack.
    exists a'. split; [reflexivity|]. rewrite Hack. split.
    + intros Hresp. split; [now apply Hnone | apply Hinv; now apply Hnone].
    + intros resp Hresp. destruct (Hsome resp Hresp) as (Hkind & Hmis & Hok).
      repeat split.
      * now apply Hkind.
      * apply Hinv. now apply Hkind.
      * now apply Hmis.
      * apply Hinv. now apply Hmis.
      * now apply Hok.
      * intros Hf Ha. rewrite Hret, (Hok ltac:(assumption) ltac:(assumption)), Ha in Hf.
        discriminate.
      * intros Hne. rewrite Hret, (Hok ltac:(assumption) ltac:(assumption)).
        destruct (response_type_eqb (hdr_response_type resp) RDM_RESPONSE_TYPE_ACK) eqn:E;
          [|reflexivity].
        apply response_type_eqb_true in E. contradiction.
Qed.

(** The transaction mismatch scenario: the request goes out with the
    transaction number 7, the response carries 6. *)
Lemma rdm_send_request_checks_witness :
  let bus := bus_answer (device_info_response RDM_RESPONSE_TYPE_ACK 6 19) [] in
  let r := rdm_send_request esp32_config driver_tn7 uid_controller bus
             header_garbage 1 get_device_info 231 (Some ack_zero) in
  ret r = false /\ option_map ack_type (res_ack r) = Some RDM_RESPONSE_TYPE_INVALID.
Proof.
  intros bus r.
  assert (Hrecv : response_received get_device_info bus).
  { repeat split; [left; reflexivity | left; reflexivity | discriminate]. }
  pose proof (rdm_send_request_checks esp32_config driver_tn7 uid_controller bus
                header_garbage 1 get_device_info 231 (Some ack_zero) Hrecv) as H.
  cbv zeta in H. fold r in H. destruct H as [_ H].
  destruct (H ack_zero eq_refl) as (a' & Ha' & _ & Hsome).
  destruct (Hsome _ eq_refl) as (_ & Hmis & _).
  destruct Hmis as [Ht Hret].
  - vm_compute. discriminate.
  - intros (_ & _ & Htn & _). vm_compute in Htn. discriminate.
  - split; [exact Hret|]. rewrite Ha'. cbn [option_map]. now rewrite Ht.
Defined.

End SendRequest.

(** ** The parameter encoder (rdm/utils.c, [rdm_param_parse] and
       [rdm_pd_emplace]) *)

Section Emplace.
Import Utils.

Lemma is_chr_uv c :
  is_chr c ["u"; "U"; "v"; "V"]%char
  = is_chr c ["u"; "U"]%char || is_chr c ["v"; "V"]%char.
Proof. unfold is_chr. cbn. now rewrite !orb_false_r, !orb_assoc. Qed.

Lemma is_chr_h_not_xdigit c : is_chr c ["h"; "H"]%char = true -> isxdigit c = false.
Proof.
  unfold is_chr. cbn [existsb]. rewrite orb_false_r, orb_true_iff.
  intros [H|H]; apply Ascii.eqb_eq in H; subst; reflexivity.
Qed.

(** The digit count of [rdm_param_parse] stops at 17; below that it is the
    full run of digits, which is what [strtol] consumes. *)
Lemma count_xdigits_le limit f : (count_xdigits limit f <= limit)%nat.
Proof.
  revert f. induction limit as [|l IH]; intros [|c f]; cbn [count_xdigits]; try lia.
  destruct (isxdigit c); [specialize (IH f)|]; lia.
Qed.

Lemma count_xdigits_full limit : forall f limit',
  (count_xdigits limit f < limit)%nat ->
  (count_xdigits limit f < limit')%nat ->
  count_xdigits limit' f = count_xdigits limit f.
Proof.
  induction limit as [|l IH]; intros f limit' H H'; [cbn in H; lia|].
  destruct f as [|c f]; cbn [count_xdigits] in *; [now destruct limit'|].
  destruct limit' as [|l']; [destruct (isxdigit c); lia|]. cbn [count_xdigits].
  destruct (isxdigit c); [|reflexivity].
  f_equal. apply IH; lia.
Qed.

Lemma count_xdigits_skipn limit : forall f c2 f3,
  skipn (count_xdigits limit f) f = c2 :: f3 ->
  (count_xdigits limit f < length f)%nat.
Proof.
  intros f c2 f3 H.
  assert (Hl : length (skipn (count_xdigits limit f) f) = S (length f3)) by now rewrite H.
  rewrite length_skipn in Hl. lia.
Qed.

(** The size of a literal, read digit by digit. *)
Lemma format_size_literal : forall f1 limit j c2 f3,
  (count_xdigits limit f1 < limit)%nat ->
  skipn (count_xdigits limit f1) f1 = c2 :: f3 ->
  isxdigit c2 = false ->
  format_size_from (Some j) f1
  = Z.of_nat ((j + count_xdigits limit f1) / 2 + (j + count_xdigits limit f1) mod 2)
    + format_size_from None f3.
Proof.
  induction f1 as [|c f1 IH]; intros limit j c2 f3 Hlt Hskip Hx.
  - destruct limit; cbn in Hskip; discriminate.
  - destruct limit as [|l]; [cbn in Hlt; lia|].
    cbn [count_xdigits format_size_from] in Hlt, Hskip |- *.
    destruct (isxdigit c) eqn:Ec.
    + cbn [skipn] in Hskip. rewrite (IH l (S j) c2 f3); [|lia|assumption|assumption].
      now replace (S j + count_xdigits l f1)%nat with (j + S (count_xdigits l f1))%nat by lia.
    + cbn [skipn] in Hskip. injection Hskip as -> ->. rewrite Nat.add_0_r. reflexivity.
Qed.

(** What an accepted format tells: [rdm_param_parse] returns a size of at
    least 1 only when it reached the end of the format, and then the size is
    the size the format describes, at most 231. *)
Lemma param_parse_loop_accepts : forall fuel f s acc size s',
  param_parse_loop fuel f s acc = Some (size, s') ->
  1 <= size -> 0 <= acc <= 231 ->
  size = acc + format_size_from None f /\ acc <= size <= 231 /\ (s = true -> s' = true).
Proof.
  induction fuel as [|fuel IH]; intros f s acc size s' H Hsize Hacc; [discriminate|].
  destruct f as [|c f1]; cbn [param_parse_loop] in H.
  { injection H as <- <-. cbn [format_size_from]. repeat split; try lia; trivial. }
  assert (Hnext : forall k s1 rest,
            0 <= k ->
            (if 231 <? acc + k then Some (0, s1)
             else param_parse_loop fuel rest s1 (acc + k)) = Some (size, s') ->
            size = acc + k + format_size_from None rest /\ acc <= size <= 231
            /\ (s1 = true -> s' = true)).
  { intros k s1 rest Hk Hn. destruct (Z.ltb_spec 231 (acc + k)).
    - injection Hn as <- _. lia.
    - apply IH in Hn; [|assumption|lia]. intuition lia. }
  cbn [format_size_from]. unfold symbol_size.
  destruct (is_chr c ["b"; "B"]%char) eqn:Eb.
  { assert (Ascii.eqb c "#" = false) as ->
      by (unfold is_chr in Eb; cbn in Eb; destruct (Ascii.eqb_spec c "#"); [subst; discriminate|reflexivity]).
    apply Hnext in H; [|lia]. intuition lia. }
  destruct (is_chr c ["w"; "W"]%char) eqn:Ew.
  { assert (Ascii.eqb c "#" = false) as ->
      by (unfold is_chr in Ew; cbn in Ew; destruct (Ascii.eqb_spec c "#"); [subst; discriminate|reflexivity]).
    apply Hnext in H; [|lia]. intuition lia. }
  destruct (is_chr c ["d"; "D"]%char) eqn:Ed.
  { assert (Ascii.eqb c "#" = false) as ->
      by (unfold is_chr in Ed; cbn in Ed; destruct (Ascii.eqb_spec c "#"); [subst; discriminate|reflexivity]).
    apply Hnext in H; [|lia]. intuition lia. }
  destruct (is_chr c ["u"; "U"]%char) eqn:Eu.
  { assert (Ascii.eqb c "#" = false) as ->
      by (unfold is_chr in Eu; cbn in Eu; destruct (Ascii.eqb_spec c "#"); [subst; discriminate|reflexivity]).
    apply Hnext in H; [|lia]. intuition lia. }
  destruct (is_chr c ["v"; "V"]%char) eqn:Ev.
  { assert (Ascii.eqb c "#" = false) as ->
      by (unfold is_chr in Ev; cbn in Ev; destruct (Ascii.eqb_spec c "#"); [subst; discriminate|reflexivity]).
    destruct (negb _); [injection H as <- _; lia|].
    apply Hnext in H; [|lia]. intuition lia. }
  destruct (is_chr c ["a"; "A"]%char) eqn:Ea.
  { assert (Ascii.eqb c "#" = false) as ->
      by (unfold is_chr in Ea; cbn in Ea; destruct (Ascii.eqb_spec c "#"); [subst; discriminate|reflexivity]).
    destruct (negb _); [injection H as <- _; lia|].
    apply Hnext in H; [|lia]. intuition lia. }
  destruct (Ascii.eqb c "#") eqn:Eh.
  { destruct (Nat.ltb_spec 16 (count_xdigits 17 f1)) as [|Hle]; [injection H as <- _; lia|].
    destruct (skipn (count_xdigits 17 f1) f1) as [|c2 f3] eqn:Hskip; [injection H as <- _; lia|].
    destruct (is_chr c2 ["h"; "H"]%char) eqn:Ec2; [|injection H as <- _; lia].
    apply Hnext in H; [|lia].
    rewrite (format_size_literal f1 17 0 c2 f3); [|lia|assumption|].
    - cbn [Nat.add]. intuition lia.
    - now apply is_chr_h_not_xdigit. }
  destruct (Ascii.eqb c "$") eqn:Edollar.
  { destruct f1 as [|c1 f1]; [|injection H as <- _; lia].
    apply Hnext in H; [|lia]. cbn [format_size_from] in *. intuition lia. }
  injection H as <- _. lia.
Qed.

(** [rdm_param_parse] always returns. *)
Lemma param_parse_loop_total : forall fuel f s acc,
  (length f < fuel)%nat -> exists r, param_parse_loop fuel f s acc = Some r.
Proof.
  induction fuel as [|fuel IH]; intros f s acc Hfuel; [lia|].
  destruct f as [|c f1]; cbn [param_parse_loop]; [eauto|].
  cbn [length] in Hfuel.
  assert (Hnext : forall k s1 rest,
            (length rest <= length f1)%nat ->
            exists r, (if 231 <? acc + k then Some (0, s1)
                       else param_parse_loop fuel rest s1 (acc + k)) = Some r).
  { intros k s1 rest Hrest. destruct (231 <? acc + k); [eauto|]. apply IH. lia. }
  destruct (is_chr c ["b"; "B"]%char); [apply Hnext; lia|].
  destruct (is_chr c ["w"; "W"]%char); [apply Hnext; lia|].
  destruct (is_chr c ["d"; "D"]%char); [apply Hnext; lia|].
  destruct (is_chr c ["u"; "U"]%char); [apply Hnext; lia|].
  destruct (is_chr c ["v"; "V"]%char).
  { destruct (negb _); [eauto|apply Hnext; lia]. }
  destruct (is_chr c ["a"; "A"]%char).
  { destruct (negb _); [eauto|apply Hnext; lia]. }
  destruct (Ascii.eqb c "#").
  { destruct (16 <? count_xdigits 17 f1)%nat; [eauto|].
    destruct (skipn (count_xdigits 17 f1) f1) as [|c2 f3] eqn:Hskip; [eauto|].
    destruct (is_chr c2 ["h"; "H"]%char); [|eauto].
    apply Hnext.
    assert (Hl : length (skipn (count_xdigits 17 f1) f1) = S (length f3)) by now rewrite Hskip.
    rewrite length_skipn in Hl. lia. }
  destruct (Ascii.eqb c "$"); [|eauto].
  destruct f1; [apply Hnext; cbn; lia|eauto].
Qed.

Lemma is_chr_u_not_v c :
  is_chr c ["u"; "U"]%char = true -> is_chr c ["v"; "V"]%char = false.
Proof.
  unfold is_chr. cbn [existsb]. rewrite orb_false_r, orb_true_iff.
  intros [H|H]; apply Ascii.eqb_eq in H; subst; reflexivity.
Qed.

Lemma strnlen_le m : forall k p, (strnlen m p k <= k)%nat.
Proof.
  induction k as [|k IH]; intros p; cbn [strnlen]; [lia|].
  destruct (m p =? 0); [lia|]. specialize (IH (p + 1)). lia.
Qed.

(** One pass of [rdm_pd_emplace] over a format that [rdm_param_parse]
    accepted: it ends, and it emplaces at most the size of the parameter, and
    one byte more when it closes a string with a NUL. *)
Lemma emplace_fields_bound dst src num nulls : forall fuel f s acc size s',
  param_parse_loop fuel f s acc = Some (size, s') ->
  1 <= size -> 0 <= acc <= 231 ->
  forall fuel2 m n, (length f < fuel2)%nat ->
  exists m' n',
    emplace_fields fuel2 dst src num nulls f m n = Some (m', n') /\
    n <= n' <= n + (size - acc) + (if nulls && s' then 1 else 0).
Proof.
  induction fuel as [|fuel IH]; intros f s acc size s' H Hsize Hacc fuel2 m n Hfuel;
    [discriminate|].
  pose proof (param_parse_loop_accepts _ _ _ _ _ _ H Hsize Hacc) as (_ & Hrange & _).
  destruct fuel2 as [|fuel2]; [lia|].
  destruct f as [|c f1]; cbn [param_parse_loop] in H; cbn [emplace_fields].
  { injection H as <- <-. exists m, n. split; [reflexivity|]. destruct (nulls && s); lia. }
  cbn [length] in Hfuel.
  assert (Hnext : forall k s1 rest m1,
            0 <= k -> (length rest <= length f1)%nat ->
            (if 231 <? acc + k then Some (0, s1)
             else param_parse_loop fuel rest s1 (acc + k)) = Some (size, s') ->
            exists m' n',
              emplace_fields fuel2 dst src num nulls rest m1 (n + k) = Some (m', n') /\
              n <= n' <= n + (size - acc) + (if nulls && s' then 1 else 0)).
  { intros k s1 rest m1 Hk Hrest Hn. destruct (Z.ltb_spec 231 (acc + k)).
    - injection Hn as <- _. lia.
    - destruct (IH _ _ _ _ _ Hn Hsize ltac:(lia) fuel2 m1 (n + k) ltac:(lia))
        as (m' & n' & He & Hb).
      exists m', n'. split; [exact He|]. lia. }
  destruct (is_chr c ["b"; "B"]%char) eqn:Eb; [apply Hnext with (s1 := s); [lia|lia|exact H]|].
  destruct (is_chr c ["w"; "W"]%char) eqn:Ew; [apply Hnext with (s1 := s); [lia|lia|exact H]|].
  destruct (is_chr c ["d"; "D"]%char) eqn:Ed; [apply Hnext with (s1 := s); [lia|lia|exact H]|].
  rewrite is_chr_uv.
  destruct (is_chr c ["u"; "U"]%char) eqn:Eu.
  { rewrite (is_chr_u_not_v c Eu). cbn [orb andb].
    apply Hnext with (s1 := s); [lia|lia|exact H]. }
  destruct (is_chr c ["v"; "V"]%char) eqn:Ev.
  { cbn [orb andb]. destruct (negb _) in H; [injection H as <- _; lia|].
    destruct (negb nulls && negb (src =? NULL) && uid_at_is_null m (src + n)).
    - exists m, n. split; [reflexivity|]. destruct (nulls && s'); lia.
    - apply Hnext with (s1 := true); [lia|lia|exact H]. }
  cbn [orb].
  destruct (is_chr c ["a"; "A"]%char) eqn:Ea.
  { destruct (negb _) in H; [injection H as <- _; lia|].
    destruct (Z.ltb_spec 231 (acc + 32)); [injection H as <- _; lia|].
    apply param_parse_loop_accepts in H as (_ & Hsz & Hs'); [|assumption|lia].
    rewrite (Hs' eq_refl), andb_true_r.
    eexists _, _. split; [reflexivity|].
    assert (Hlen : 0 <= Z.of_nat
                     (if negb (src =? NULL)
                      then strnlen m (src + n)
                             (Z.to_nat (if u32 (num - n) <? 32 then u32 (num - n) else 32))
                      else 32%nat) <= 32).
    { destruct (negb (src =? NULL)); [|lia].
      pose proof (strnlen_le m (Z.to_nat (if u32 (num - n) <? 32 then u32 (num - n) else 32))
                    (src + n)).
      destruct (Z.ltb_spec (u32 (num - n)) 32); lia. }
    destruct nulls; lia. }
  destruct (Ascii.eqb c "#") eqn:Eh.
  { destruct (Nat.ltb_spec 16 (count_xdigits 17 f1)) as [|Hle]; [injection H as <- _; lia|].
    destruct (skipn (count_xdigits 17 f1) f1) as [|c2 f3] eqn:Hskip; [injection H as <- _; lia|].
    destruct (is_chr c2 ["h"; "H"]%char) eqn:Ec2; [|injection H as <- _; lia].
    pose proof (count_xdigits_skipn _ _ _ _ Hskip) as Hlt.
    unfold strtol16.
    rewrite (count_xdigits_full 17 f1 (length f1)) by lia.
    rewrite Hskip. change (skipn 1 (c2 :: f3)) with f3.
    apply Hnext with (s1 := s); [lia| |exact H].
    assert (Hl : length (skipn (count_xdigits 17 f1) f1) = S (length f3)) by now rewrite Hskip.
    rewrite length_skipn in Hl. lia. }
  destruct (Ascii.eqb c "$") eqn:Edollar; [|injection H as <- _; lia].
  destruct f1 as [|c1 f1]; [|injection H as <- _; lia].
  destruct (Hnext 0 true [] m ltac:(lia) ltac:(cbn; lia) H) as (m' & n' & He & Hb).
  rewrite Z.add_0_r in He. exists m', n'. split; assumption.
Qed.

Lemma emplace_params_bound dst src num nulls format size s' :
  rdm_param_parse format = Some (size, s') -> 1 <= size ->
  forall count m n,
  exists m' n',
    emplace_params count dst src num nulls format m n = Some (m', n') /\
    n <= n' <= n + Z.of_nat count * (size + (if nulls && s' then 1 else 0)).
Proof.
  intros Hparse Hsize. induction count as [|count IH]; intros m n; cbn [emplace_params].
  - exists m, n. split; [reflexivity|]. lia.
  - destruct (emplace_fields_bound dst src num nulls _ _ _ _ _ _ Hparse Hsize
                ltac:(lia) (S (length format)) m n ltac:(lia)) as (m1 & n1 & He & Hb).
    rewrite He. destruct (IH m1 n1) as (m' & n' & He' & Hb').
    exists m', n'. split; [exact He'|].
    assert (0 <= if nulls && s' then 1 else 0) by (destruct (nulls && s'); lia).
    pose proof (param_parse_loop_accepts _ _ _ _ _ _ Hparse Hsize ltac:(lia)).
    nia.
Qed.

(** X2. Every call of [rdm_pd_emplace] returns, and it reports at most 232
    bytes; at most 231 when [emplace_nulls] is false. *)
Theorem rdm_pd_emplace_bound (m : mem) (destination : Z) (format : list ascii)
    (source num : Z) (emplace_nulls : bool) :
  0 <= num ->
  exists n m',
    rdm_pd_emplace m destination format source num emplace_nulls = Some (n, m') /\
    0 <= n <= 232 /\ (emplace_nulls = false -> n <= 231).
Proof.
  intros Hnum. unfold rdm_pd_emplace.
  destruct (param_parse_loop_total (S (length format)) format
              (match format with [] => true | _ => false end) 0 ltac:(lia))
    as [[size s'] Hparse].
  unfold rdm_param_parse at 1. rewrite Hparse.
  destruct (Z.ltb_spec size 1) as [|Hsize].
  { exists 0, m. repeat split; lia. }
  pose proof (param_parse_loop_accepts _ _ _ _ _ _ Hparse Hsize ltac:(lia))
    as (_ & Hrange & _).
  set (num' := if 231 <? num then 231 else num).
  assert (Hnum' : 0 <= num' <= 231) by (subst num'; destruct (Z.ltb_spec 231 num); lia).
  destruct (emplace_params_bound destination source num' emplace_nulls format size s'
              Hparse Hsize (Z.to_nat (if s' then 1 else num' / size)) m 0)
    as (m' & n & He & Hb).
  rewrite He. exists n, m'. split; [reflexivity|].
  destruct s'.
  - rewrite andb_true_r in Hb. change (Z.of_nat (Z.to_nat 1)) with 1 in Hb.
    split; [destruct emplace_nulls; lia|]. intros ->. lia.
  - rewrite andb_false_r in Hb.
    assert (0 <= num' / size) by (apply Z.div_pos; lia).
    rewrite Z2Nat.id in Hb by assumption.
    pose proof (Z.mul_div_le num' size ltac:(lia)).
    split; [nia|]. intros _. nia.
Qed.

Lemma rdm_pd_emplace_bound_witness :
  exists n m',
    rdm_pd_emplace mem_letters 0x3ffc0000 (list_ascii_of_string "wv$") 0x3ffb0000 231
      false = Some (n, m') /\
    0 <= n <= 232 /\ (false = false -> n <= 231).
Proof. apply rdm_pd_emplace_bound. lia. Defined.

(** X1. An emplace whose format describes a parameter of more than 231
    bytes returns 0 and leaves the memory as it was. *)
Theorem rdm_pd_emplace_too_large (m : mem) (destination : Z) (format : list ascii)
    (source num : Z) (emplace_nulls : bool) :
  231 < format_size format ->
  rdm_pd_emplace m destination format source num emplace_nulls = Some (0, m).
Proof.
  intros Hbig. unfold rdm_pd_emplace.
  destruct (param_parse_loop_total (S (length format)) format
              (match format with [] => true | _ => false end) 0 ltac:(lia))
    as [[size s'] Hparse].
  unfold rdm_param_parse. rewrite Hparse.
  destruct (Z.ltb_spec size 1) as [|Hsize]; [reflexivity|].
  pose proof (param_parse_loop_accepts _ _ _ _ _ _ Hparse Hsize ltac:(lia))
    as (Hsz & Hrange & _).
  unfold format_size in Hbig. lia.
Qed.

Lemma rdm_pd_emplace_too_large_witness :
  rdm_pd_emplace mem_letters 0x3ffc0000 (repeat "d"%char 58) 0x3ffb0000 231 true
  = Some (0, mem_letters).
Proof. apply rdm_pd_emplace_too_large. vm_compute. reflexivity. Defined.

(** C7, at the failing input. The format [format_199b_a] describes a
    parameter of 199 + 32 = 231 bytes, which [rdm_param_parse] accepts. With
    [num = 231], [emplace_nulls] set and a source string of 32 characters,
    [rdm_pd_emplace] copies the 199 bytes and the 32 characters, writes the
    terminating NUL at offset 231 of the destination - the 232nd byte - and
    reports 232 bytes. *)
Theorem rdm_pd_emplace_reports_232 :
  rdm_param_parse format_199b_a = Some (231, true) /\
  exists m',
    rdm_pd_emplace mem_letters 0x3ffc0000 format_199b_a 0x3ffb0000 231 true
    = Some (232, m') /\
    mem_letters (0x3ffc0000 + 231) = 0x41 /\
    m' (0x3ffc0000 + 231) = 0.
Proof.
  split; [vm_compute; reflexivity|].
  eexists. split; [vm_compute; reflexivity|].
  split; vm_compute; reflexivity.
Qed.

End Emplace.

(** ** UID comparisons (rdm/utils.h) *)

Section UidOrder.
Import Utils UtilsExt.

(** X6. On UIDs whose device id is a 32-bit number, the four comparisons
    of rdm/utils.h agree with the order of the 48-bit numbers the UIDs stand
    for (manufacturer id first), and [rdm_uid_is_eq] with their equality. *)
Theorem uid_comparisons_numeric (a b : rdm_uid_t) :
  0 <= dev_id a < 2 ^ 32 -> 0 <= dev_id b < 2 ^ 32 ->
  (uid_is_lt a b = true <-> uid_value a < uid_value b) /\
  (uid_is_gt a b = true <-> uid_value a > uid_value b) /\
  (uid_is_le a b = true <-> uid_value a <= uid_value b) /\
  (uid_is_ge a b = true <-> uid_value a >= uid_value b) /\
  (rdm_uid_is_eq a b = true <-> uid_value a = uid_value b).
Proof.
  intros Ha Hb. unfold uid_is_le, uid_is_ge, uid_is_lt, uid_is_gt, rdm_uid_is_eq, uid_value.
  rewrite !negb_true_iff, !Z.gtb_ltb.
  destruct (Z.ltb_spec (man_id a) (man_id b)), (Z.ltb_spec (man_id b) (man_id a)),
    (Z.eqb_spec (man_id a) (man_id b)), (Z.ltb_spec (dev_id a) (dev_id b)),
    (Z.ltb_spec (dev_id b) (dev_id a)), (Z.eqb_spec (dev_id a) (dev_id b));
    cbn; try lia; repeat split; intros; try discriminate; try reflexivity; try nia.
Qed.

Lemma uid_comparisons_numeric_witness :
  uid_is_lt (mk_uid 0x0001 0xffffffff) (mk_uid 0x0002 0) = true <->
  uid_value (mk_uid 0x0001 0xffffffff) < uid_value (mk_uid 0x0002 0).
Proof.
  apply (uid_comparisons_numeric (mk_uid 0x0001 0xffffffff) (mk_uid 0x0002 0));
    cbn; lia.
Defined.

(** X7. Addressing. A UID that is not a broadcast UID targets the UID equal
    to it and no other; the alias ffff:ffffffff targets every UID; an alias
    with the device id ffffffff and another manufacturer id targets exactly
    the UIDs of that manufacturer, and the alias itself. *)
Theorem rdm_uid_is_target_cases (uid alias : rdm_uid_t) :
  (rdm_uid_is_broadcast alias = false ->
   (rdm_uid_is_target uid alias = true <-> uid = alias)) /\
  (alias = mk_uid 0xffff 0xffffffff -> rdm_uid_is_target uid alias = true) /\
  (rdm_uid_is_broadcast alias = true -> man_id alias <> 0xffff ->
   (rdm_uid_is_target uid alias = true <-> man_id uid = man_id alias)).
Proof.
  unfold rdm_uid_is_target, rdm_uid_is_broadcast, rdm_uid_is_eq.
  destruct uid as [um ud], alias as [am ad]. cbn [man_id dev_id].
  repeat split.
  - rewrite H. rewrite andb_false_r. cbn [orb]. rewrite andb_true_iff, !Z.eqb_eq.
    intros [-> ->]. reflexivity.
  - rewrite H. rewrite andb_false_r. cbn [orb]. rewrite andb_true_iff, !Z.eqb_eq.
    now injection 1.
  - injection 1 as -> ->. reflexivity.
  - apply Z.eqb_eq in H as ->. rewrite andb_true_r, !orb_true_iff, andb_true_iff, !Z.eqb_eq.
    intuition congruence.
  - apply Z.eqb_eq in H as ->. rewrite andb_true_r, !orb_true_iff, andb_true_iff, !Z.eqb_eq.
    intros ->. auto.
Qed.

Lemma rdm_uid_is_target_cases_witness :
  rdm_uid_is_target (mk_uid 0x05e0 0x42) (mk_uid 0x05e0 0x42) = true <->
  mk_uid 0x05e0 0x42 = mk_uid 0x05e0 0x42.
Proof.
  exact (proj1 (rdm_uid_is_target_cases (mk_uid 0x05e0 0x42) (mk_uid 0x05e0 0x42)) eq_refl).
Defined.

End UidOrder.

(** ** Memory *)

Section Memory.
Import Utils UtilsExt.

Lemma length_load_bytes m : forall n p, length (load_bytes m p n) = n.
Proof. induction n as [|n IH]; intros p; cbn; [reflexivity|]. now rewrite IH. Qed.

(** A store changes no byte outside the bytes it writes. *)
Lemma store_bytes_outside : forall bs m p a,
  a < p \/ p + Z.of_nat (length bs) <= a -> store_bytes m p bs a = m a.
Proof.
  induction bs as [|b bs IH]; intros m p a Ha; cbn [store_bytes]; [reflexivity|].
  cbn [length] in Ha. rewrite IH by lia. unfold store8.
  destruct (Z.eqb_spec a p); [lia|reflexivity].
Qed.

Lemma load_bytes_ext m1 m2 : forall n p,
  (forall a, p <= a < p + Z.of_nat n -> m1 a = m2 a) ->
  load_bytes m1 p n = load_bytes m2 p n.
Proof.
  induction n as [|n IH]; intros p H; cbn [load_bytes]; [reflexivity|].
  rewrite H by lia. f_equal. apply IH. intros a Ha. apply H. lia.
Qed.

(** The bytes stored are the bytes read back. *)
Lemma load_store_bytes : forall bs m p,
  load_bytes (store_bytes m p bs) p (length bs) = bs.
Proof.
  induction bs as [|b bs IH]; intros m p; cbn [store_bytes load_bytes length];
    [reflexivity|].
  rewrite IH. f_equal. rewrite store_bytes_outside by lia.
  unfold store8. now rewrite Z.eqb_refl.
Qed.

Lemma load_store_bytes_disjoint bs m p q n :
  q + Z.of_nat n <= p \/ p + Z.of_nat (length bs) <= q ->
  load_bytes (store_bytes m p bs) q n = load_bytes m q n.
Proof.
  intros H. apply load_bytes_ext. intros a Ha. apply store_bytes_outside. lia.
Qed.

Lemma load_bytes_app m : forall n1 n2 p,
  load_bytes m p (n1 + n2) = load_bytes m p n1 ++ load_bytes m (p + Z.of_nat n1) n2.
Proof.
  induction n1 as [|n1 IH]; intros n2 p.
  - cbn. now rewrite Z.add_0_r.
  - cbn [Nat.add load_bytes app]. rewrite IH. do 3 f_equal. lia.
Qed.

(** X8. [rdm_uidmove] writes six bytes and no other: the two bytes of the
    manufacturer id and the four bytes of the device id of the source, each
    group in reverse order, whether or not the buffers overlap. So the UID it
    leaves for the target to read is the UID the source held in wire order,
    and moving a UID twice gives back its six bytes. *)
Theorem rdm_uidmove_swaps (m : mem) (destination source : Z) :
  let m' := rdm_uidmove m destination source in
  load_bytes m' destination 6
  = rev (load_bytes m source 2) ++ rev (load_bytes m (source + 2) 4) /\
  (forall a, a < destination \/ destination + 6 <= a -> m' a = m a) /\
  uid_at m' destination = uid_on_wire m source /\
  (forall destination2,
     load_bytes (rdm_uidmove m' destination2 destination) destination2 6
     = load_bytes m source 6).
Proof.
  intros m'.
  assert (H6 : forall mm d s,
            load_bytes (rdm_uidmove mm d s) d 6
            = rev (load_bytes mm s 2) ++ rev (load_bytes mm (s + 2) 4)).
  { intros mm d s. unfold rdm_uidmove.
    change 6%nat with (2 + 4)%nat. rewrite load_bytes_app.
    change (Z.of_nat 2) with 2. f_equal.
    - rewrite load_store_bytes_disjoint
        by (rewrite length_rev, length_load_bytes; lia).
      rewrite <- (length_load_bytes mm 2 s) at 3. rewrite <- length_rev.
      apply load_store_bytes.
    - rewrite <- (length_load_bytes mm 4 (s + 2)) at 3. rewrite <- length_rev.
      apply load_store_bytes. }
  split; [apply H6|]. split; [|split].
  - intros a Ha. subst m'. unfold rdm_uidmove.
    rewrite !store_bytes_outside; [reflexivity| |];
      rewrite length_rev, length_load_bytes; lia.
  - specialize (H6 m destination source). fold m' in H6.
    change 6%nat with (2 + 4)%nat in H6. rewrite load_bytes_app in H6.
    change (Z.of_nat 2) with 2 in H6.
    apply app_inj_1 in H6 as [H2 H4];
      [|now rewrite length_rev, !length_load_bytes].
    unfold uid_at, uid_on_wire. now rewrite H2, H4.
  - intros destination2. rewrite H6.
    pose proof (H6 m destination source) as Hd. fold m' in Hd.
    change 6%nat with (2 + 4)%nat in Hd. rewrite load_bytes_app in Hd.
    change (Z.of_nat 2) with 2 in Hd.
    apply app_inj_1 in Hd as [H2 H4];
      [|now rewrite length_rev, !length_load_bytes].
    rewrite H2, H4, !rev_involutive.
    change 6%nat with (2 + 4)%nat. now rewrite load_bytes_app.
Qed.

(** X9. [rdm_pd_emplace_word] returns 2 and writes the word high byte
    first, touching no other byte; a 16-bit word is what [pd_word] - the read
    [rdm_send_request] makes of a NACK reason or of a timer - gets back from
    the two bytes. *)
Theorem rdm_pd_emplace_word_read_back (m : mem) (destination word : Z) :
  0 <= word < 2 ^ 16 ->
  let r := rdm_pd_emplace_word m destination word in
  fst r = 2 /\
  load_bytes (snd r) destination 2 = [word / 256; word mod 256] /\
  pd_word (load_bytes (snd r) destination 2) = word /\
  (forall a, a < destination \/ destination + 2 <= a -> snd r a = m a).
Proof.
  intros Hw r. subst r. unfold rdm_pd_emplace_word. cbn [fst snd].
  assert (Hb : rev (le_bytes 2 word) = [word / 256; word mod 256]).
  { cbn [le_bytes rev app]. f_equal. Z.div_mod_to_equations; lia. }
  rewrite Hb. split; [reflexivity|].
  pose proof (load_store_bytes [word / 256; word mod 256] m destination) as Hl.
  cbn [length] in Hl. split; [|split].
  - exact Hl.
  - rewrite Hl.
    unfold pd_word, byte_at. cbn [nth]. Z.div_mod_to_equations; lia.
  - intros a Ha. apply store_bytes_outside. cbn [length]. lia.
Qed.

Lemma rdm_pd_emplace_word_read_back_witness :
  pd_word (load_bytes (snd (rdm_pd_emplace_word mem_letters 0x3ffc0000 0x0102))
             0x3ffc0000 2) = 0x0102.
Proof.
  apply (rdm_pd_emplace_word_read_back mem_letters 0x3ffc0000 0x0102). lia.
Defined.

End Memory.

(** ** Port UIDs and the allocator, continued *)

Section PortsAndRegions.
Import Utils UtilsExt.

(** X10. [rdm_uidcpy] leaves the memory [rdm_uidmove] leaves whenever the
    destination does not start inside the source after its first byte, in
    particular when the two buffers do not overlap or are the same. *)
Theorem rdm_uidcpy_is_uidmove (m : mem) (destination source : Z) :
  destination <= source \/ source + 6 <= destination ->
  forall a, rdm_uidcpy m destination source a = rdm_uidmove m destination source a.
Proof.
  intros H a. unfold rdm_uidcpy, rdm_uidmove, copy_swapped.
  rewrite (load_store_bytes_disjoint (rev (load_bytes m source 2)) m destination
             (source + 2) 4); [reflexivity|].
  rewrite length_rev, length_load_bytes. lia.
Qed.

Lemma rdm_uidcpy_is_uidmove_witness :
  rdm_uidcpy mem_letters 0x3ffc0000 0x3ffc0000 0x3ffc0003
  = rdm_uidmove mem_letters 0x3ffc0000 0x3ffc0000 0x3ffc0003.
Proof. apply rdm_uidcpy_is_uidmove. lia. Defined.

(** X11. With at most 256 ports, two different ports get two different
    UIDs from [rdm_uid_get], and port 0 gets the binding UID itself. *)
Theorem rdm_uid_get_ports_distinct (cfg : config) (rdm_binding_uid uid0 : rdm_uid_t)
    (p q : Z) :
  DMX_NUM_MAX cfg <= 256 ->
  0 <= p < DMX_NUM_MAX cfg -> 0 <= q < DMX_NUM_MAX cfg -> p <> q ->
  let binding := fst (rdm_uid_get cfg rdm_binding_uid p (Some uid0)) in
  0 <= dev_id binding < 2 ^ 32 ->
  snd (rdm_uid_get cfg rdm_binding_uid p (Some uid0))
  <> snd (rdm_uid_get cfg rdm_binding_uid q (Some uid0)) /\
  (0 < DMX_NUM_MAX cfg ->
   snd (rdm_uid_get cfg rdm_binding_uid 0 (Some uid0)) = Some binding).
Proof.
  intros Hmax Hp Hq Hpq binding Hdev. subst binding. revert Hdev.
  unfold rdm_uid_get.
  replace (DMX_NUM_MAX cfg <=? p) with false by (symmetry; apply Z.leb_gt; lia).
  replace (DMX_NUM_MAX cfg <=? q) with false by (symmetry; apply Z.leb_gt; lia).
  cbn [fst snd].
  set (binding := if rdm_uid_is_null rdm_binding_uid then _ else _).
  intros Hdev. split.
  - intros Heq. injection Heq as Heq.
    rewrite !lor_last_octet in Heq by (trivial; apply u8_range).
    unfold u8 in Heq. change (2 ^ 8) with 256 in Heq.
    Z.div_mod_to_equations; lia.
  - intros Hpos.
    replace (DMX_NUM_MAX cfg <=? 0) with false by (symmetry; apply Z.leb_gt; lia).
    rewrite lor_last_octet by (trivial; apply u8_range).
    clearbody binding. destruct binding as [bm bd]. cbn [man_id dev_id] in *.
    cbn [snd]. do 2 f_equal.
    unfold u8. change (2 ^ 8) with 256. Z.div_mod_to_equations; lia.
Qed.

Lemma rdm_uid_get_ports_distinct_witness :
  snd (rdm_uid_get esp32_config (mk_uid 0x05e0 0x123456ff) 1 (Some (mk_uid 0 0)))
  <> snd (rdm_uid_get esp32_config (mk_uid 0x05e0 0x123456ff) 2 (Some (mk_uid 0 0))).
Proof.
  apply (rdm_uid_get_ports_distinct esp32_config (mk_uid 0x05e0 0x123456ff)
           (mk_uid 0 0) 1 2); cbn; lia.
Defined.

(** Without a wrap of the sum, an allocation never moves [pd_head] back. *)
Lemma rdm_pd_alloc_head_grows driver size :
  0 <= pd_head driver <= pd_size driver -> 0 <= size -> pd_size driver + size < 2 ^ 32 ->
  pd_head driver <= pd_head (snd (rdm_pd_alloc driver size)) <= pd_size driver.
Proof.
  intros Hh Hs Hfit. unfold rdm_pd_alloc.
  destruct (size =? 0); [cbn; lia|].
  rewrite u32_small by lia.
  destruct (Z.leb_spec (pd_head driver + size) (pd_size driver)); cbn; lia.
Qed.

Lemma alloc_all_head_grows sizes : forall driver,
  0 <= pd_head driver <= pd_size driver ->
  Forall (fun size => 0 <= size /\ pd_size driver + size < 2 ^ 32) sizes ->
  pd_head driver <= pd_head (alloc_all driver sizes) <= pd_size driver /\
  pd (alloc_all driver sizes) = pd driver /\
  pd_size (alloc_all driver sizes) = pd_size driver.
Proof.
  induction sizes as [|size sizes IH]; intros driver Hh Hall; [cbn; lia|].
  apply Forall_cons_iff in Hall as [[Hs Hfit] Hall].
  cbn [alloc_all fold_left].
  pose proof (rdm_pd_alloc_head_grows driver size Hh Hs Hfit) as Hg.
  destruct (rdm_pd_alloc_keeps_region driver size) as [Hpd Hsz].
  destruct (IH (snd (rdm_pd_alloc driver size))) as (H1 & H2 & H3).
  - rewrite Hsz. lia.
  - rewrite Hsz. exact Hall.
  - unfold alloc_all in *. rewrite H2, H3, Hpd, Hsz. rewrite Hsz in H1. lia.
Qed.

(** X12. The regions [rdm_pd_alloc] hands out lie inside the backing
    region and do not overlap: when an allocation of [size1] bytes succeeds,
    and any allocations later one of [size2] bytes succeeds, the second region
    starts at or after the end of the first and ends within the backing
    region. The sizes are sizes whose sum with [pd_size] is representable in
    [size_t]; an allocation succeeds when it returns a pointer other than
    NULL. *)
Theorem rdm_pd_alloc_regions_disjoint (driver : dmx_driver_t) (size1 size2 : Z)
    (sizes : list Z) :
  0 <= pd_head driver <= pd_size driver ->
  Forall (fun size => 0 <= size /\ pd_size driver + size < 2 ^ 32)
         (size1 :: size2 :: sizes) ->
  let ptr1 := fst (rdm_pd_alloc driver size1) in
  let driver1 := alloc_all (snd (rdm_pd_alloc driver size1)) sizes in
  let ptr2 := fst (rdm_pd_alloc driver1 size2) in
  ptr1 <> NULL -> ptr2 <> NULL ->
  pd driver <= ptr1 /\ ptr1 + size1 <= ptr2 /\ ptr2 + size2 <= pd driver + pd_size driver.
Proof.
  intros Hh Hall ptr1 driver1 ptr2 Hp1 Hp2.
  assert (Hsucc : forall d s, fst (rdm_pd_alloc d s) <> NULL ->
                    s <> 0 /\ u32 (pd_head d + s) <= pd_size d).
  { intros d s. unfold rdm_pd_alloc. destruct (Z.eqb_spec s 0); [now cbn|].
    destruct (Z.leb_spec (u32 (pd_head d + s)) (pd_size d)); [now split|now cbn]. }
  destruct (Hsucc _ _ Hp1) as [Hn1 Hok1]. destruct (Hsucc _ _ Hp2) as [Hn2 Hok2].
  clear Hsucc Hp1 Hp2.
  apply Forall_cons_iff in Hall as [[Hs1 Hf1] Hall].
  apply Forall_cons_iff in Hall as [[Hs2 Hf2] Hall].
  destruct (rdm_pd_alloc_keeps_region driver size1) as [Hpd1 Hsz1].
  assert (Hd1 : pd_head (snd (rdm_pd_alloc driver size1)) = pd_head driver + size1
                /\ ptr1 = pd driver + pd_head driver).
  { subst ptr1. unfold rdm_pd_alloc.
    destruct (Z.eqb_spec size1 0); [contradiction|].
    rewrite u32_small in * by lia.
    destruct (Z.leb_spec (pd_head driver + size1) (pd_size driver)); [|lia].
    cbn. lia. }
  destruct Hd1 as [Hhead1 Hptr1].
  destruct (alloc_all_head_grows sizes (snd (rdm_pd_alloc driver size1)))
    as (Hg & Hpdk & Hszk).
  { rewrite Hsz1, Hhead1. rewrite u32_small in Hok1 by lia. lia. }
  { rewrite Hsz1. exact Hall. }
  fold driver1 in Hg, Hpdk, Hszk.
  rewrite Hsz1 in Hg, Hszk. rewrite Hpd1 in Hpdk. rewrite Hhead1 in Hg.
  assert (Hptr2 : ptr2 = pd driver1 + pd_head driver1).
  { subst ptr2. unfold rdm_pd_alloc.
    destruct (Z.eqb_spec size2 0); [contradiction|].
    destruct (Z.leb_spec (u32 (pd_head driver1 + size2)) (pd_size driver1)); [|lia].
    reflexivity. }
  rewrite u32_small in Hok2 by lia.
  rewrite Hptr1, Hptr2, Hpdk. rewrite Hszk in Hok2. lia.
Qed.

Lemma rdm_pd_alloc_regions_disjoint_witness :
  let driver := mk_driver 0 0 0 [] 0x3ffb0000 64 8 in
  let ptr1 := fst (rdm_pd_alloc driver 16) in
  let driver1 := alloc_all (snd (rdm_pd_alloc driver 16)) [4; 100] in
  let ptr2 := fst (rdm_pd_alloc driver1 2) in
  0x3ffb0000 <= ptr1 /\ ptr1 + 16 <= ptr2 /\ ptr2 + 2 <= 0x3ffb0000 + 64.
Proof.
  intros driver ptr1 driver1 ptr2.
  apply (rdm_pd_alloc_regions_disjoint driver 16 2 [4; 100]).
  - cbn. lia.
  - repeat constructor; cbn; lia.
  - vm_compute. discriminate.
  - vm_compute. discriminate.
Defined.

End PortsAndRegions.

(** ** Parameter lookup, get and set *)

Section ParameterStorage.
Import Utils UtilsExt.

(** The lookup loop stops at the first slot of its range that holds [p]. *)
Lemma find_cb_first cbs p : forall remaining i k cb,
  (i <= k < i + remaining)%nat ->
  cbs !! k = Some cb -> pid (desc cb) = p ->
  (forall j cb', (i <= j < k)%nat -> cbs !! j = Some cb' -> pid (desc cb') <> p) ->
  find_cb cbs p i remaining = Some (Some cb).
Proof.
  induction remaining as [|r IH]; intros i k cb Hk Hcb Hp Hfirst; [lia|].
  cbn [find_cb].
  destruct (Nat.eq_dec i k) as [->|Hne].
  - rewrite Hcb. now apply Z.eqb_eq in Hp as ->.
  - destruct (lookup_lt_is_Some_2 cbs i) as [cb' Hcb'].
    { apply lookup_lt_Some in Hcb. lia. }
    rewrite Hcb'.
    destruct (Z.eqb_spec (pid (desc cb')) p) as [Hp'|_].
    + exfalso. apply (Hfirst i cb'); [lia|assumption|assumption].
    + apply (IH (S i) k cb); [lia|assumption|assumption|].
      intros j cb'' Hj. apply Hfirst. lia.
Qed.

Lemma find_cb_found cbs p : forall remaining i cb,
  find_cb cbs p i remaining = Some (Some cb) ->
  exists k, (i <= k < i + remaining)%nat /\ cbs !! k = Some cb /\ pid (desc cb) = p /\
            forall j cb', (i <= j < k)%nat -> cbs !! j = Some cb' -> pid (desc cb') <> p.
Proof.
  induction remaining as [|r IH]; intros i cb H; cbn [find_cb] in H; [discriminate|].
  destruct (cbs !! i) as [cb0|] eqn:Hi; [|discriminate].
  destruct (Z.eqb_spec (pid (desc cb0)) p) as [Hp|Hp].
  - injection H as <-. exists i. repeat split; try lia; try assumption;
      try (intros; lia).
  - apply IH in H as (k & Hk & Hcb & Hpk & Hfirst).
    exists k. repeat split; try lia; try assumption.
    intros j cb' Hj Hcb'. destruct (Nat.eq_dec j i) as [->|Hne]; [congruence|].
    apply (Hfirst j); [lia|assumption].
Qed.

Lemma first_slot_find driver p cb :
  first_slot driver p cb ->
  find_cb (rdm_cbs driver) p 0 (num_rdm_cbs driver) = Some (Some cb).
Proof.
  intros (k & Hk & Hcb & Hp & Hfirst).
  apply (find_cb_first _ _ _ 0%nat k cb); [lia|assumption|assumption|].
  intros j cb' Hj. apply Hfirst. lia.
Qed.

(** X13. Register, then find: after a registration that returns true, on a
    table whose count lies within its capacity, [rdm_pd_find] returns for the
    registered PID the parameter pointer the registration was given. *)
Theorem rdm_pd_find_after_register (cfg : config) (driver driver' : dmx_driver_t)
    (sub_device : Z) (d : rdm_pid_description_t) (ps dcb pa ucb ctx : Z) :
  (num_rdm_cbs driver <= length (rdm_cbs driver))%nat ->
  rdm_register_parameter cfg driver sub_device d ps dcb pa ucb ctx
  = Some (true, driver') ->
  rdm_pd_find driver' (pid d) = Some pa.
Proof.
  intros Hwf H. unfold rdm_register_parameter in H.
  destruct (negb (sub_device =? RDM_SUB_DEVICE_ROOT)); [discriminate|].
  destruct (pid_scan _ _ _ _) as [k|] eqn:Hk; [|discriminate].
  destruct (k =? RDM_RESPONDER_PIDS_MAX cfg)%nat; [discriminate|].
  destruct (Nat.ltb_spec k (length (rdm_cbs driver))) as [Hlt|]; [|discriminate].
  injection H as <-.
  destruct (pid_scan_spec _ _ _ _ _ Hk) as (Hr & Hbefore & _).
  unfold rdm_pd_find. cbn [set_rdm_cbs rdm_cbs num_rdm_cbs].
  rewrite (find_cb_first _ _ _ 0%nat k (mk_cb d ps dcb pa ucb ctx)); [reflexivity|lia| |reflexivity|].
  - now apply list_lookup_insert_eq.
  - intros j cb' Hj Hcb'. rewrite list_lookup_insert_ne in Hcb' by lia.
    apply (Hbefore j); [lia|assumption].
Qed.

Lemma rdm_pd_find_after_register_witness :
  rdm_pd_find
    (set_rdm_cbs driver_one_pid
       (<[1%nat := mk_cb (mk_desc 0x0080 0 0 0 0 0 0 0 0 []) 0 0x400d0000 0x3ffb0010 0 0]>
          (rdm_cbs driver_one_pid)) 2)
    0x0080 = Some 0x3ffb0010.
Proof.
  apply (rdm_pd_find_after_register esp32_config driver_one_pid _
           RDM_SUB_DEVICE_ROOT (mk_desc 0x0080 0 0 0 0 0 0 0 0 []) 0 0x400d0000
           0x3ffb0010 0 0); [cbn; lia|reflexivity].
Defined.

(** X14. A registration leaves the other registered parameters where they
    are: a PID other than the one being registered keeps the slot the lookup
    stops at, so [rdm_pd_find] returns for it what it returned before. *)
Theorem rdm_register_parameter_keeps_slots (cfg : config)
    (driver driver' : dmx_driver_t) (sub_device : Z) (d : rdm_pid_description_t)
    (ps dcb pa ucb ctx : Z) (r : bool) (q : Z) (cbq : rdm_cb_t) :
  rdm_register_parameter cfg driver sub_device d ps dcb pa ucb ctx = Some (r, driver') ->
  first_slot driver q cbq -> q <> pid d ->
  first_slot driver' q cbq /\ rdm_pd_find driver' q = rdm_pd_find driver q.
Proof.
  intros H Hq Hne.
  assert (Hslot : first_slot driver' q cbq).
  { unfold rdm_register_parameter in H.
    destruct (negb (sub_device =? RDM_SUB_DEVICE_ROOT)); [now injection H as _ <-|].
    destruct (pid_scan _ _ _ _) as [k|] eqn:Hk; [|discriminate].
    destruct (k =? RDM_RESPONDER_PIDS_MAX cfg)%nat; [now injection H as _ <-|].
    destruct (Nat.ltb_spec k (length (rdm_cbs driver))) as [Hlt|]; [|discriminate].
    injection H as _ <-.
    destruct (pid_scan_spec _ _ _ _ _ Hk) as (Hr & _ & Hat).
    destruct Hq as (k0 & Hk0 & Hcb & Hp & Hfirst).
    assert (Hk0k : k0 <> k).
    { intros ->. destruct Hat as (cb' & Hcb' & Hp'); [lia|]. congruence. }
    exists k0. cbn [set_rdm_cbs num_rdm_cbs rdm_cbs]. split; [lia|]. split; [|split].
    - rewrite list_lookup_insert_ne by congruence. assumption.
    - assumption.
    - intros j cb' Hj Hcb'. destruct (Nat.eq_dec j k) as [->|Hjk].
      + rewrite list_lookup_insert_eq in Hcb' by assumption.
        injection Hcb' as <-. cbn. congruence.
      + rewrite list_lookup_insert_ne in Hcb' by congruence. now apply (Hfirst j). }
  split; [exact Hslot|].
  unfold rdm_pd_find. now rewrite (first_slot_find _ _ _ Hslot), (first_slot_find _ _ _ Hq).
Qed.

Lemma first_slot_driver_one_pid :
  first_slot driver_one_pid 0x00f0
    (mk_cb (desc_start_address 1) 0x3f400000 0x400d0000 0x3ffb0000 0 0).
Proof.
  exists 0%nat. split; [cbn; lia|]. split; [reflexivity|]. split; [reflexivity|].
  intros j cb' Hj; lia.
Qed.

Lemma rdm_register_parameter_keeps_slots_witness :
  rdm_pd_find
    (set_rdm_cbs driver_one_pid
       (<[1%nat := mk_cb (mk_desc 0x0080 0 0 0 0 0 0 0 0 []) 0 0x400d0000 0x3ffb0010 0 0]>
          (rdm_cbs driver_one_pid)) 2)
    0x00f0 = rdm_pd_find driver_one_pid 0x00f0.
Proof.
  apply (rdm_register_parameter_keeps_slots esp32_config driver_one_pid _
           RDM_SUB_DEVICE_ROOT (mk_desc 0x0080 0 0 0 0 0 0 0 0 []) 0 0x400d0000
           0x3ffb0010 0 0 true 0x00f0 _ eq_refl first_slot_driver_one_pid).
  cbn. lia.
Defined.

(** X15. Getting a registered parameter whose storage is not NULL returns
    true and copies the parameter into the caller's buffer: the size cell
    becomes the smaller of its content and the parameter's [pdl_size] - for a
    string, the length of the string within that content - which never exceeds
    what the caller passed; the buffer holds that many bytes of the parameter,
    and no byte outside them is written. *)
Theorem rdm_get_parameter_copies (cfg : config) (driver : dmx_driver_t) (m : mem)
    (p param_ size : Z) (cb : rdm_cb_t) :
  first_slot driver p cb -> param cb <> NULL ->
  0 <= size -> 0 <= pdl_size (desc cb) ->
  exists m' size',
    rdm_get_parameter cfg driver m p param_ size = Some (true, m', size') /\
    0 <= size' <= size /\
    size' = (if data_type (desc cb) =? RDM_DS_ASCII cfg
             then Z.of_nat (strnlen m (param cb) (Z.to_nat size))
             else Z.min size (pdl_size (desc cb))) /\
    load_bytes m' param_ (Z.to_nat size') = load_bytes m (param cb) (Z.to_nat size') /\
    (forall a, a < param_ \/ param_ + size' <= a -> m' a = m a).
Proof.
  intros Hslot Hnull Hsize Hpdl. unfold rdm_get_parameter.
  rewrite (first_slot_find _ _ _ Hslot).
  replace (param cb =? NULL) with false by (symmetry; now apply Z.eqb_neq).
  cbn [negb].
  assert (Hcopy : forall n : nat,
            load_bytes (memmove m param_ (param cb) n) param_ n
            = load_bytes m (param cb) n /\
            (forall a, a < param_ \/ param_ + Z.of_nat n <= a ->
                       memmove m param_ (param cb) n a = m a)).
  { intros n. unfold memmove. split.
    - rewrite <- (length_load_bytes m n (param cb)) at 2. apply load_store_bytes.
    - intros a Ha. apply store_bytes_outside. rewrite length_load_bytes. exact Ha. }
  destruct (data_type (desc cb) =? RDM_DS_ASCII cfg).
  - pose proof (strnlen_le m (Z.to_nat size) (param cb)) as Hlen.
    eexists _, _. split; [reflexivity|].
    rewrite Nat2Z.id. destruct (Hcopy (strnlen m (param cb) (Z.to_nat size))) as [Hc Hf].
    repeat split; try lia; assumption.
  - set (size' := if size <? pdl_size (desc cb) then size else pdl_size (desc cb)).
    assert (Hs : size' = Z.min size (pdl_size (desc cb)))
      by (subst size'; destruct (Z.ltb_spec size (pdl_size (desc cb))); lia).
    eexists _, _. split; [reflexivity|].
    destruct (Hcopy (Z.to_nat size')) as [Hc Hf].
    repeat split; try lia; try assumption.
    intros a Ha. apply Hf. rewrite Z2Nat.id by lia. exact Ha.
Qed.

Lemma rdm_get_parameter_copies_witness :
  exists m' size',
    rdm_get_parameter esp32_config driver_one_pid mem_letters 0x00f0 0x3ffc0000 8
    = Some (true, m', size') /\ 0 <= size' <= 8.
Proof.
  destruct (rdm_get_parameter_copies esp32_config driver_one_pid mem_letters 0x00f0
              0x3ffc0000 8 _ first_slot_driver_one_pid)
    as (m' & size' & H & Hr & _); [discriminate|lia|cbn; lia|].
  exists m', size'. split; assumption.
Defined.

End ParameterStorage.

(** * Setting a parameter: [rdm_set_parameter], and reading it back *)

Section SetParameter.
Import Utils UtilsExt.

Lemma strnlen_intro m : forall k p len,
  (len <= k)%nat ->
  (forall i, (i < len)%nat -> m (p + Z.of_nat i) <> 0) ->
  ((len < k)%nat -> m (p + Z.of_nat len) = 0) ->
  strnlen m p k = len.
Proof.
  induction k as [|k IH]; intros p len Hle Hch Hz; cbn [strnlen]; [lia|].
  destruct len as [|len].
  - rewrite Z.add_0_r in Hz. rewrite Hz by lia. reflexivity.
  - pose proof (Hch 0%nat ltac:(lia)) as H0. rewrite Z.add_0_r in H0.
    destruct (Z.eqb_spec (m p) 0); [contradiction|]. f_equal. apply IH; [lia| |].
    + intros i Hi. replace (p + 1 + Z.of_nat i) with (p + Z.of_nat (S i)) by lia.
      apply Hch; lia.
    + intros H. replace (p + 1 + Z.of_nat len) with (p + Z.of_nat (S len)) by lia.
      apply Hz; lia.
Qed.

Lemma strnlen_chars m : forall k p i,
  (i < strnlen m p k)%nat -> m (p + Z.of_nat i) <> 0.
Proof.
  induction k as [|k IH]; intros p i; cbn [strnlen]; [lia|].
  destruct (Z.eqb_spec (m p) 0); [lia|]. intros Hi. destruct i as [|i].
  - now rewrite Z.add_0_r.
  - replace (p + Z.of_nat (S i)) with (p + 1 + Z.of_nat i) by lia. apply IH. lia.
Qed.

Lemma strnlen_ge m : forall k p j,
  (j <= k)%nat -> (forall i, (i < j)%nat -> m (p + Z.of_nat i) <> 0) ->
  (j <= strnlen m p k)%nat.
Proof.
  induction k as [|k IH]; intros p j Hj Hch; cbn [strnlen]; [lia|].
  destruct j as [|j]; [lia|].
  pose proof (Hch 0%nat ltac:(lia)) as H0. rewrite Z.add_0_r in H0.
  destruct (Z.eqb_spec (m p) 0); [contradiction|].
  apply le_n_S, IH; [lia|]. intros i Hi.
  replace (p + 1 + Z.of_nat i) with (p + Z.of_nat (S i)) by lia. apply Hch; lia.
Qed.

Lemma load_bytes_nth m : forall n p i,
  (i < n)%nat -> nth i (load_bytes m p n) 0 = m (p + Z.of_nat i).
Proof.
  induction n as [|n IH]; intros p i Hi; [lia|]. cbn [load_bytes].
  destruct i as [|i]; cbn [nth].
  - now rewrite Z.add_0_r.
  - rewrite IH by lia. f_equal. lia.
Qed.

Lemma store_bytes_inside : forall bs m p i,
  (i < length bs)%nat -> store_bytes m p bs (p + Z.of_nat i) = nth i bs 0.
Proof.
  induction bs as [|b bs IH]; intros m p i Hi; cbn [length] in Hi; [lia|].
  cbn [store_bytes]. destruct i as [|i]; cbn [nth].
  - rewrite store_bytes_outside by lia. unfold store8.
    now rewrite Z.add_0_r, Z.eqb_refl.
  - replace (p + Z.of_nat (S i)) with (p + 1 + Z.of_nat i) by lia. apply IH. lia.
Qed.

Lemma load_store_bytes_app l1 l2 m p :
  load_bytes (store_bytes m p (l1 ++ l2)) p (length l1) = l1.
Proof.
  pose proof (load_store_bytes (l1 ++ l2) m p) as H.
  rewrite length_app, load_bytes_app in H.
  apply app_inj_1 in H; [tauto|]. apply length_load_bytes.
Qed.

Lemma load_memmove m dst src n :
  load_bytes (memmove m dst src n) dst n = load_bytes m src n.
Proof.
  unfold memmove. rewrite <- (length_load_bytes m n src) at 2. apply load_store_bytes.
Qed.

Lemma load_strncpy m dst src n :
  load_bytes (strncpy m dst src n) dst (strnlen m src n)
  = load_bytes m src (strnlen m src n).
Proof.
  unfold strncpy. rewrite <- (length_load_bytes m (strnlen m src n) src) at 3.
  apply load_store_bytes_app.
Qed.

(** What [strncpy] leaves at its destination. *)
Lemma strncpy_inside m dst src n i :
  (i < n)%nat ->
  strncpy m dst src n (dst + Z.of_nat i)
  = if (i <? strnlen m src n)%nat then m (src + Z.of_nat i) else 0.
Proof.
  intros Hi. unfold strncpy. pose proof (strnlen_le m n src) as Hlen.
  rewrite store_bytes_inside
    by (rewrite length_app, length_load_bytes, repeat_length; lia).
  destruct (Nat.ltb_spec i (strnlen m src n)) as [Hlt|Hge].
  - rewrite app_nth1 by (now rewrite length_load_bytes). now apply load_bytes_nth.
  - rewrite app_nth2 by (rewrite length_load_bytes; lia). apply nth_repeat.
Qed.

Lemma strncpy_outside m dst src n a :
  a < dst \/ dst + Z.of_nat n <= a -> strncpy m dst src n a = m a.
Proof.
  intros Ha. unfold strncpy. pose proof (strnlen_le m n src) as Hlen.
  apply store_bytes_outside.
  rewrite length_app, length_load_bytes, repeat_length.
  replace (strnlen m src n + (n - strnlen m src n))%nat with n by lia. exact Ha.
Qed.

(** X16. [rdm_set_parameter] refuses - it returns false, writes no byte,
    leaves the driver and its flags alone and does not call [dmx_nvs_set],
    whatever [nvs] says - when the PID is not registered, when its parameter
    storage is NULL, or when its descriptor's command class lacks the SET
    bit. *)
Theorem rdm_set_parameter_refused (cfg : config) (k : responder_consts)
    (driver : dmx_driver_t) (m : mem) (p param_ size : Z) (nvs nvs_ok : bool) :
  ((num_rdm_cbs driver <= length (rdm_cbs driver))%nat /\ ~ registered driver p) \/
  (exists cb, first_slot driver p cb /\
              (param cb = NULL \/ Z.land (cc (desc cb)) (RDM_CC_SET k) = 0)) ->
  rdm_set_parameter cfg k driver m p param_ size nvs nvs_ok
  = Some (mk_set_result false driver m None).
Proof.
  intros [[Hwf Habs]|(cb & Hslot & Hno)]; unfold rdm_set_parameter.
  - rewrite find_cb_absent; [reflexivity|cbn; lia|].
    intros j cb Hj Hcb Hp. apply Habs. exists j, cb. repeat split; [lia|assumption..].
  - rewrite (first_slot_find _ _ _ Hslot). destruct Hno as [Hn|Hc].
    + rewrite Hn. reflexivity.
    + rewrite Hc, Z.eqb_refl. cbn [negb]. now rewrite andb_false_r.
Qed.

Lemma rdm_set_parameter_refused_witness :
  rdm_set_parameter esp32_config esp32_consts driver_one_pid mem_letters 0x0080
    0x3ffc0000 32 true false
  = Some (mk_set_result false driver_one_pid mem_letters None).
Proof.
  apply rdm_set_parameter_refused. left. split; [cbn; lia|].
  exact not_registered_driver_one_pid.
Defined.

(** X17. [rdm_set_parameter] on a registered parameter with storage and the
    SET bit returns true and writes exactly min(size, pdl_size) bytes at the
    parameter's storage, none elsewhere: the caller's bytes, or, for a string,
    the caller's characters up to the first NUL followed by NULs. It calls
    [dmx_nvs_set] exactly when [nvs] is set, with the caller's pointer and the
    clamped size, and only a failure of that call changes the driver: the
    boot loader flag is raised, and the call still returns true. *)
Theorem rdm_set_parameter_stores (cfg : config) (k : responder_consts)
    (driver : dmx_driver_t) (m : mem) (p param_ size : Z) (nvs nvs_ok : bool)
    (cb : rdm_cb_t) :
  first_slot driver p cb -> param cb <> NULL ->
  Z.land (cc (desc cb)) (RDM_CC_SET k) <> 0 ->
  0 <= size -> 0 <= pdl_size (desc cb) ->
  exists r,
    rdm_set_parameter cfg k driver m p param_ size nvs nvs_ok = Some r /\
    set_ret r = true /\
    (forall i, 0 <= i < Z.min size (pdl_size (desc cb)) ->
       set_mem r (param cb + i)
       = if (data_type (desc cb) =? RDM_DS_ASCII cfg) &&
            (Z.of_nat (strnlen m param_ (Z.to_nat (Z.min size (pdl_size (desc cb))))) <=? i)
         then 0 else m (param_ + i)) /\
    (forall a, a < param cb \/ param cb + Z.min size (pdl_size (desc cb)) <= a ->
       set_mem r a = m a) /\
    set_nvs r = (if nvs
                 then Some (mk_nvs_call p (data_type (desc cb)) param_
                              (Z.min size (pdl_size (desc cb))))
                 else None) /\
    set_driver r = (if nvs && negb nvs_ok
                    then set_flags driver
                           (Z.lor (flags driver) (DMX_FLAGS_DRIVER_BOOT_LOADER k))
                    else driver).
Proof.
  intros Hslot Hnull Hset Hsize Hpdl. unfold rdm_set_parameter.
  rewrite (first_slot_find _ _ _ Hslot).
  replace (param cb =? NULL) with false by (symmetry; now apply Z.eqb_neq).
  replace (Z.land (cc (desc cb)) (RDM_CC_SET k) =? 0) with false
    by (symmetry; now apply Z.eqb_neq).
  cbn [negb andb].
  set (n := if size <? pdl_size (desc cb) then size else pdl_size (desc cb)).
  assert (Hn : n = Z.min size (pdl_size (desc cb)))
    by (subst n; destruct (Z.ltb_spec size (pdl_size (desc cb))); lia).
  rewrite <- Hn. clearbody n.
  set (m' := if data_type (desc cb) =? RDM_DS_ASCII cfg
             then strncpy m (param cb) param_ (Z.to_nat n)
             else memmove m (param cb) param_ (Z.to_nat n)).
  assert (Hin : forall i, 0 <= i < n ->
            m' (param cb + i)
            = if (data_type (desc cb) =? RDM_DS_ASCII cfg) &&
                 (Z.of_nat (strnlen m param_ (Z.to_nat n)) <=? i)
              then 0 else m (param_ + i)).
  { intros i Hi. subst m'.
    replace (param cb + i) with (param cb + Z.of_nat (Z.to_nat i)) by lia.
    replace (param_ + i) with (param_ + Z.of_nat (Z.to_nat i)) by lia.
    destruct (data_type (desc cb) =? RDM_DS_ASCII cfg); cbn [andb].
    - rewrite strncpy_inside by lia.
      destruct (Nat.ltb_spec (Z.to_nat i) (strnlen m param_ (Z.to_nat n)));
        destruct (Z.leb_spec (Z.of_nat (strnlen m param_ (Z.to_nat n))) i);
        try lia; reflexivity.
    - unfold memmove. rewrite store_bytes_inside by (rewrite length_load_bytes; lia).
      apply load_bytes_nth. lia. }
  assert (Hout : forall a, a < param cb \/ param cb + n <= a -> m' a = m a).
  { intros a Ha. subst m'. destruct (data_type (desc cb) =? RDM_DS_ASCII cfg).
    - apply strncpy_outside. lia.
    - unfold memmove. apply store_bytes_outside. rewrite length_load_bytes. lia. }
  clearbody m'.
  destruct nvs; [destruct nvs_ok|]; eexists; (split; [reflexivity|]);
    cbn [set_ret set_mem set_nvs set_driver andb negb]; repeat split; assumption.
Qed.

Lemma rdm_set_parameter_stores_witness :
  exists r,
    rdm_set_parameter esp32_config esp32_consts driver_one_pid mem_letters 0x00f0
      0x3ffc0000 8 true false = Some r /\
    set_ret r = true /\
    set_driver r = set_flags driver_one_pid 4.
Proof.
  destruct (rdm_set_parameter_stores esp32_config esp32_consts driver_one_pid
              mem_letters 0x00f0 0x3ffc0000 8 true false _ first_slot_driver_one_pid)
    as (r & H & Hr & _ & _ & _ & Hd); [discriminate|discriminate|lia|cbn; lia|].
  exists r. split; [exact H|]. split; [exact Hr|exact Hd].
Defined.

(** X18. What is set is what is got: after a successful [rdm_set_parameter]
    of [size] bytes, [rdm_get_parameter] with a buffer of [size] bytes returns
    true and delivers the bytes that were set - min(size, pdl_size) of them,
    or, for a string, its characters up to the first NUL - provided a string
    was cut by [size] or left room for a NUL in the parameter's storage. The
    caller's source buffer is the one read before the set, whatever it
    overlaps. *)
Theorem rdm_set_then_get_parameter (cfg : config) (k : responder_consts)
    (driver : dmx_driver_t) (m : mem) (p src dst size : Z) (nvs nvs_ok : bool)
    (cb : rdm_cb_t) (r : set_result) :
  first_slot driver p cb -> param cb <> NULL ->
  Z.land (cc (desc cb)) (RDM_CC_SET k) <> 0 ->
  0 <= size -> 0 <= pdl_size (desc cb) ->
  (data_type (desc cb) = RDM_DS_ASCII cfg ->
   size <= pdl_size (desc cb) \/
   (strnlen m src (Z.to_nat (pdl_size (desc cb))) < Z.to_nat (pdl_size (desc cb)))%nat) ->
  rdm_set_parameter cfg k driver m p src size nvs nvs_ok = Some r ->
  exists m' size',
    rdm_get_parameter cfg (set_driver r) (set_mem r) p dst size
    = Some (true, m', size') /\
    size' = (if data_type (desc cb) =? RDM_DS_ASCII cfg
             then Z.of_nat (strnlen m src (Z.to_nat (Z.min size (pdl_size (desc cb)))))
             else Z.min size (pdl_size (desc cb))) /\
    load_bytes m' dst (Z.to_nat size') = load_bytes m src (Z.to_nat size').
Proof.
  intros Hslot Hnull Hset Hsize Hpdl Hroom H.
  assert (Hslot' : first_slot (set_driver r) p cb /\
                   set_mem r = if data_type (desc cb) =? RDM_DS_ASCII cfg
                               then strncpy m (param cb) src
                                      (Z.to_nat (Z.min size (pdl_size (desc cb))))
                               else memmove m (param cb) src
                                      (Z.to_nat (Z.min size (pdl_size (desc cb))))).
  { unfold rdm_set_parameter in H. rewrite (first_slot_find _ _ _ Hslot) in H.
    replace (param cb =? NULL) with false in H by (symmetry; now apply Z.eqb_neq).
    replace (Z.land (cc (desc cb)) (RDM_CC_SET k) =? 0) with false in H
      by (symmetry; now apply Z.eqb_neq).
    cbn [negb andb] in H.
    replace (if size <? pdl_size (desc cb) then size else pdl_size (desc cb))
      with (Z.min size (pdl_size (desc cb))) in H
      by (destruct (Z.ltb_spec size (pdl_size (desc cb))); lia).
    destruct nvs; [destruct nvs_ok|]; injection H as <-;
      cbn [set_driver set_mem]; split; try reflexivity; assumption. }
  destruct Hslot' as [Hslot' Hmem]. clear H.
  unfold rdm_get_parameter. rewrite (first_slot_find _ _ _ Hslot').
  replace (param cb =? NULL) with false by (symmetry; now apply Z.eqb_neq).
  cbn [negb]. rewrite Hmem. clear Hmem.
  set (n := Z.to_nat (Z.min size (pdl_size (desc cb)))).
  destruct (Z.eqb_spec (data_type (desc cb)) (RDM_DS_ASCII cfg)) as [Hascii|Hbin].
  - specialize (Hroom Hascii).
    pose proof (strnlen_le m n src) as Hlen.
    assert (Hback : strnlen (strncpy m (param cb) src n) (param cb) (Z.to_nat size)
                    = strnlen m src n).
    { apply strnlen_intro.
      - subst n. lia.
      - intros i Hi. rewrite strncpy_inside by lia.
        destruct (Nat.ltb_spec i (strnlen m src n)); [|lia].
        now apply (strnlen_chars m n).
      - intros Hlt.
        assert (Hin : (strnlen m src n < n)%nat).
        { destruct (Nat.eq_dec (strnlen m src n) n) as [Heq|]; [|lia].
          destruct Hroom as [Hfit|Hnul]; [subst n; lia|].
          assert (Hn : n = Z.to_nat (pdl_size (desc cb))) by (subst n; lia).
          rewrite <- Hn in Hnul. lia. }
        rewrite strncpy_inside by exact Hin.
        destruct (Nat.ltb_spec (strnlen m src n) (strnlen m src n)); [lia|reflexivity]. }
    eexists _, _. split; [reflexivity|]. rewrite Hback. split; [reflexivity|].
    rewrite Nat2Z.id, load_memmove. apply load_strncpy.
  - replace (if size <? pdl_size (desc cb) then size else pdl_size (desc cb))
      with (Z.min size (pdl_size (desc cb)))
      by (destruct (Z.ltb_spec size (pdl_size (desc cb))); lia).
    fold n. eexists _, _. split; [reflexivity|]. split; [reflexivity|]. fold n.
    now rewrite !load_memmove.
Qed.

Lemma first_slot_driver_label :
  first_slot driver_label 0x0082
    (mk_cb desc_device_label 0x3f400010 0x400d0000 0x3ffb0000 0 0).
Proof.
  exists 0%nat. split; [cbn; lia|]. split; [reflexivity|]. split; [reflexivity|].
  intros j cb' Hj; lia.
Qed.

Lemma rdm_set_then_get_parameter_witness :
  exists m' size',
    rdm_get_parameter esp32_config driver_label
      (strncpy mem_letters 0x3ffb0000 0x3ffc0000 8) 0x0082 0x3ffc0100 8
    = Some (true, m', size') /\ size' = 8.
Proof.
  pose proof (rdm_set_then_get_parameter esp32_config esp32_consts driver_label
                mem_letters 0x0082 0x3ffc0000 0x3ffc0100 8 false false _
                (mk_set_result true driver_label
                   (strncpy mem_letters 0x3ffb0000 0x3ffc0000 8) None)
                first_slot_driver_label ltac:(discriminate) ltac:(discriminate)
                ltac:(lia) ltac:(cbn; lia) ltac:(intros _; left; cbn; lia) eq_refl)
    as (m' & size' & H & Hs & _).
  exists m', size'. split; [exact H|exact Hs].
Defined.

(** X19. A string that fills the parameter's storage is stored without a
    terminating NUL: when the caller's string has at least [pdl_size]
    characters and the byte that follows the storage is not NUL, a later
    [rdm_get_parameter] with a buffer larger than [pdl_size] reports more than
    [pdl_size] bytes, reading past the parameter's storage. *)
Theorem rdm_set_then_get_unterminated (cfg : config) (k : responder_consts)
    (driver : dmx_driver_t) (m : mem) (p src dst size : Z) (nvs nvs_ok : bool)
    (cb : rdm_cb_t) :
  first_slot driver p cb -> param cb <> NULL ->
  Z.land (cc (desc cb)) (RDM_CC_SET k) <> 0 ->
  data_type (desc cb) = RDM_DS_ASCII cfg ->
  0 <= pdl_size (desc cb) < size ->
  strnlen m src (Z.to_nat (pdl_size (desc cb))) = Z.to_nat (pdl_size (desc cb)) ->
  m (param cb + pdl_size (desc cb)) <> 0 ->
  exists r m' size',
    rdm_set_parameter cfg k driver m p src size nvs nvs_ok = Some r /\
    set_ret r = true /\
    rdm_get_parameter cfg (set_driver r) (set_mem r) p dst size
    = Some (true, m', size') /\
    pdl_size (desc cb) < size'.
Proof.
  intros Hslot Hnull Hset Hascii Hsize Hfull Hnext.
  set (n := Z.to_nat (pdl_size (desc cb))) in *.
  assert (H : exists r,
            rdm_set_parameter cfg k driver m p src size nvs nvs_ok = Some r /\
            set_ret r = true /\ first_slot (set_driver r) p cb /\
            set_mem r = strncpy m (param cb) src n).
  { unfold rdm_set_parameter. rewrite (first_slot_find _ _ _ Hslot).
    replace (param cb =? NULL) with false by (symmetry; now apply Z.eqb_neq).
    replace (Z.land (cc (desc cb)) (RDM_CC_SET k) =? 0) with false
      by (symmetry; now apply Z.eqb_neq).
    cbn [negb andb]. rewrite Hascii, Z.eqb_refl.
    destruct (Z.ltb_spec size (pdl_size (desc cb))); [lia|]. fold n.
    destruct nvs; [destruct nvs_ok|]; eexists; (split; [reflexivity|]);
      cbn [set_ret set_driver set_mem]; repeat split; assumption. }
  destruct H as (r & Hr & Hret & Hslot' & Hmem).
  exists r. unfold rdm_get_parameter. rewrite (first_slot_find _ _ _ Hslot').
  replace (param cb =? NULL) with false by (symmetry; now apply Z.eqb_neq).
  cbn [negb]. rewrite Hascii, Z.eqb_refl, Hmem.
  eexists _, _. split; [exact Hr|]. split; [exact Hret|]. split; [reflexivity|].
  assert (Hge : (S n <= strnlen (strncpy m (param cb) src n) (param cb)
                          (Z.to_nat size))%nat).
  { apply strnlen_ge; [subst n; lia|]. intros i Hi.
    destruct (Nat.eq_dec i n) as [->|Hne].
    - rewrite strncpy_outside by lia.
      replace (Z.of_nat n) with (pdl_size (desc cb)) by (subst n; lia). exact Hnext.
    - rewrite strncpy_inside by lia. rewrite Hfull.
      destruct (Nat.ltb_spec i n); [|lia].
      apply (strnlen_chars m n). rewrite Hfull. lia. }
  subst n. lia.
Qed.

Lemma rdm_set_then_get_unterminated_witness :
  exists r m' size',
    rdm_set_parameter esp32_config esp32_consts driver_label mem_letters 0x0082
      0x3ffc0000 40 false false = Some r /\
    set_ret r = true /\
    rdm_get_parameter esp32_config (set_driver r) (set_mem r) 0x0082 0x3ffc0100 40
    = Some (true, m', size') /\
    32 < size'.
Proof.
  apply (rdm_set_then_get_unterminated esp32_config esp32_consts driver_label
           mem_letters 0x0082 0x3ffc0000 0x3ffc0100 40 false false _
           first_slot_driver_label);
    [discriminate|discriminate|reflexivity|cbn; lia|reflexivity|discriminate].
Defined.

End SetParameter.

(** * Controller requests: the paths of [rdm_send_request] *)

Section RequestPaths.
Import Utils UtilsExt.

Variables (cfg : config) (driver : dmx_driver_t) (binding : rdm_uid_t)
          (bus : bus_t) (resp0 : rdm_header_t) (dmx_num : Z)
          (header : rdm_header_t) (pdl : Z) (ack : option rdm_ack_t).

Lemma rdm_uid_get_some b n u :
  exists b' u', rdm_uid_get cfg b n (Some u) = (b', Some u').
Proof.
  unfold rdm_uid_get. destruct (DMX_NUM_MAX cfg <=? n); eexists _, _; reflexivity.
Qed.

(** X20. The mutex is never left taken: every call tries the mutex first and
    only once; when it gets it, it gives it back exactly once, as the last
    thing it does, on every path; when it does not get it, it does nothing
    else. *)
Theorem rdm_send_request_mutex :
  exists body,
    res_trace (rdm_send_request cfg driver binding bus resp0 dmx_num header pdl ack) = TakeMux :: body ++ (if mux_taken bus then [GiveMux] else []) /\
    forallb (fun e => negb (mux_event e)) body = true /\
    (mux_taken bus = false -> body = []).
Proof.
  unfold rdm_send_request.
  destruct (if rdm_uid_is_null (hdr_src_uid header) then _ else _) as [b src].
  destruct (mux_taken bus); cbn [negb].
  2:{ exists []. repeat split; reflexivity. }
  destruct (sent_in_time bus); cbn [negb].
  2:{ eexists [_]. repeat split; try reflexivity; discriminate. }
  destruct (_ || _).
  - destruct (_ && _); [eexists [_; _; _; _]; repeat split; try reflexivity; discriminate|].
    destruct (_ =? _); [eexists [_; _; _; _]; repeat split; try reflexivity; discriminate|].
    destruct (classify_response _ _ _).
    eexists [_; _; _; _; _]; repeat split; try reflexivity; discriminate.
  - eexists [_; _; _; _]; repeat split; try reflexivity; discriminate.
Qed.

(** X21. When the mutex is not obtained or the previous packet is not sent
    within 30 ms, the call returns false without touching the bus: nothing is
    written, sent, received or read, the transaction number is not advanced,
    and [*pdl] and [*ack] are left as the caller passed them - [ack.type] is
    not set. The header has nevertheless been rewritten. *)
Theorem rdm_send_request_not_sent :
  on_wire bus = false ->
  ret (rdm_send_request cfg driver binding bus resp0 dmx_num header pdl ack) = false /\
  res_ack (rdm_send_request cfg driver binding bus resp0 dmx_num header pdl ack) = ack /\ res_pdl (rdm_send_request cfg driver binding bus resp0 dmx_num header pdl ack) = pdl /\ res_driver (rdm_send_request cfg driver binding bus resp0 dmx_num header pdl ack) = driver /\
  forallb (fun e => negb (bus_event e)) (res_trace (rdm_send_request cfg driver binding bus resp0 dmx_num header pdl ack)) = true /\
  hdr_tn (res_header (rdm_send_request cfg driver binding bus resp0 dmx_num header pdl ack)) = tn driver /\
  hdr_message_count (res_header (rdm_send_request cfg driver binding bus resp0 dmx_num header pdl ack)) = 0.
Proof.
  unfold on_wire, rdm_send_request. intros Hw.
  destruct (if rdm_uid_is_null (hdr_src_uid header) then _ else _) as [b src].
  destruct (mux_taken bus); cbn [negb].
  2:{ repeat split. }
  destruct (sent_in_time bus); [discriminate|]. repeat split.
Qed.

(** X22. What the call makes of the header, on every path: destination,
    sub-device, command class, PID and PDL are the caller's; the transaction
    number is the driver's and the message count 0; a port id of 0 becomes the
    port number plus one, so the port id is never 0 afterwards; a null source
    UID becomes the UID [rdm_uid_get] gives the port (which initialises the
    binding UID), and any other source UID is kept, the binding UID not being
    touched. The header written to the bus is the header handed back. *)
Theorem rdm_send_request_header :
  0 <= dmx_num < 255 ->
  let h := res_header (rdm_send_request cfg driver binding bus resp0 dmx_num header pdl ack) in
  hdr_dest_uid h = hdr_dest_uid header /\
  hdr_sub_device h = hdr_sub_device header /\
  hdr_cc h = hdr_cc header /\ hdr_pid h = hdr_pid header /\
  hdr_pdl h = hdr_pdl header /\
  hdr_tn h = tn driver /\ hdr_message_count h = 0 /\
  hdr_port_id h = (if hdr_port_id header =? 0 then dmx_num + 1 else hdr_port_id header) /\
  hdr_port_id h <> 0 /\
  (if rdm_uid_is_null (hdr_src_uid header)
   then rdm_uid_get cfg binding dmx_num (Some (hdr_src_uid header))
        = (res_binding_uid (rdm_send_request cfg driver binding bus resp0 dmx_num header pdl ack), Some (hdr_src_uid h))
   else hdr_src_uid h = hdr_src_uid header /\ res_binding_uid (rdm_send_request cfg driver binding bus resp0 dmx_num header pdl ack) = binding) /\
  (forall h', In (WriteRdm h') (res_trace (rdm_send_request cfg driver binding bus resp0 dmx_num header pdl ack)) -> h' = h).
Proof.
  intros Hnum h. subst h. unfold rdm_send_request.
  assert (Hport : (if hdr_port_id header =? 0 then u8 (dmx_num + 1)
                   else hdr_port_id header)
                  = (if hdr_port_id header =? 0 then dmx_num + 1
                     else hdr_port_id header) /\
                  (if hdr_port_id header =? 0 then u8 (dmx_num + 1)
                   else hdr_port_id header) <> 0).
  { destruct (Z.eqb_spec (hdr_port_id header) 0); [|split; [reflexivity|assumption]].
    rewrite u8_small by lia. split; [reflexivity|lia]. }
  destruct Hport as [Hport Hport0].
  set (port := if hdr_port_id header =? 0 then u8 (dmx_num + 1)
               else hdr_port_id header) in *.
  clearbody port.
  set (pair := if rdm_uid_is_null (hdr_src_uid header) then _ else _).
  assert (Hpair : if rdm_uid_is_null (hdr_src_uid header)
                  then rdm_uid_get cfg binding dmx_num (Some (hdr_src_uid header))
                       = (fst pair, Some (snd pair))
                  else snd pair = hdr_src_uid header /\ fst pair = binding).
  { subst pair. destruct (rdm_uid_is_null (hdr_src_uid header)); [|split; reflexivity].
    destruct (rdm_uid_get_some binding dmx_num (hdr_src_uid header)) as (b' & u' & ->).
    reflexivity. }
  clearbody pair. destruct pair as [b src]. cbn [fst snd] in Hpair.
  destruct (mux_taken bus); cbn [negb].
  2:{ cbn. repeat split; try assumption. intros h' [H|[]]. discriminate. }
  destruct (sent_in_time bus); cbn [negb].
  2:{ cbn. repeat split; try assumption. intros h' [H|[H|[H|[]]]]; discriminate. }
  assert (Hin : forall h0 h' tl,
            (forall e, In e tl -> bus_event e = true \/ mux_event e = true \/ e = WaitSent 2) ->
            (forall h1, ~ In (WriteRdm h1) tl) ->
            In (WriteRdm h')
               ([TakeMux; WaitSent (pdMS_TO_TICKS cfg 30); WriteRdm h0; Send (written bus)]
                ++ tl) -> h' = h0).
  { intros h0 h' tl _ Htl [H|[H|[H|[H|H]]]]; try discriminate.
    - now injection H.
    - now apply Htl in H. }
  destruct (_ || _).
  - destruct (_ && _).
    { cbn [res_header res_binding_uid res_trace hdr_dest_uid hdr_sub_device hdr_cc
           hdr_pid hdr_pdl hdr_tn hdr_message_count hdr_port_id hdr_src_uid].
      repeat split; try assumption. intros h'. apply Hin; [cbn; intuition (subst; auto)|].
      intros h1 [H|[H|[]]]; discriminate. }
    destruct (rx_size bus =? 0).
    { cbn [res_header res_binding_uid res_trace hdr_dest_uid hdr_sub_device hdr_cc
           hdr_pid hdr_pdl hdr_tn hdr_message_count hdr_port_id hdr_src_uid].
      repeat split; try assumption. intros h'. apply Hin; [cbn; intuition (subst; auto)|].
      intros h1 [H|[H|[]]]; discriminate. }
    destruct (classify_response _ _ _).
    cbn [res_header res_binding_uid res_trace hdr_dest_uid hdr_sub_device hdr_cc
         hdr_pid hdr_pdl hdr_tn hdr_message_count hdr_port_id hdr_src_uid].
    repeat split; try assumption. intros h'. apply Hin; [cbn; intuition (subst; auto)|].
    intros h1 [H|[H|[H|[]]]]; discriminate.
  - cbn [res_header res_binding_uid res_trace hdr_dest_uid hdr_sub_device hdr_cc
         hdr_pid hdr_pdl hdr_tn hdr_message_count hdr_port_id hdr_src_uid].
    repeat split; try assumption. intros h'. apply Hin; [cbn; intuition (subst; auto)|].
    intros h1 [H|[H|[]]]; discriminate.
Qed.

(** X23. The three ways a sent request with an awaited response ends
    without a usable packet: a receive error other than a timeout gives
    [ack.type] INVALID and a received size of 0 gives NONE, both without
    reading a packet and with [*pdl] untouched; a packet that fails to decode
    gives INVALID with [*pdl] set to 0. In each case the call returns false,
    [ack] carries the error and size that [dmx_receive] reported, and the
    transaction number has advanced. *)
Theorem rdm_send_request_no_packet :
  on_wire bus = true -> response_expected header ->
  option_map ack_err (res_ack (rdm_send_request cfg driver binding bus resp0 dmx_num header pdl ack)) = option_map (fun _ => rx_err bus) ack /\
  option_map ack_size (res_ack (rdm_send_request cfg driver binding bus resp0 dmx_num header pdl ack)) = option_map (fun _ => rx_size bus) ack /\
  res_driver (rdm_send_request cfg driver binding bus resp0 dmx_num header pdl ack) = dmx_send driver (written bus) /\
  (rx_err bus <> 0 -> rx_err bus <> DMX_ERR_TIMEOUT ->
   ret (rdm_send_request cfg driver binding bus resp0 dmx_num header pdl ack) = false /\ res_pdl (rdm_send_request cfg driver binding bus resp0 dmx_num header pdl ack) = pdl /\
   option_map ack_type (res_ack (rdm_send_request cfg driver binding bus resp0 dmx_num header pdl ack))
   = option_map (fun _ => RDM_RESPONSE_TYPE_INVALID) ack /\
   ~ In ReadRdm (res_trace (rdm_send_request cfg driver binding bus resp0 dmx_num header pdl ack))) /\
  (rx_err bus = 0 \/ rx_err bus = DMX_ERR_TIMEOUT -> rx_size bus = 0 ->
   ret (rdm_send_request cfg driver binding bus resp0 dmx_num header pdl ack) = false /\ res_pdl (rdm_send_request cfg driver binding bus resp0 dmx_num header pdl ack) = pdl /\
   option_map ack_type (res_ack (rdm_send_request cfg driver binding bus resp0 dmx_num header pdl ack))
   = option_map (fun _ => RDM_RESPONSE_TYPE_NONE) ack /\
   ~ In ReadRdm (res_trace (rdm_send_request cfg driver binding bus resp0 dmx_num header pdl ack))) /\
  (rx_err bus = 0 \/ rx_err bus = DMX_ERR_TIMEOUT -> rx_size bus <> 0 ->
   rx_header bus = None ->
   ret (rdm_send_request cfg driver binding bus resp0 dmx_num header pdl ack) = false /\ res_pdl (rdm_send_request cfg driver binding bus resp0 dmx_num header pdl ack) = 0 /\
   option_map ack_type (res_ack (rdm_send_request cfg driver binding bus resp0 dmx_num header pdl ack))
   = option_map (fun _ => RDM_RESPONSE_TYPE_INVALID) ack /\
   option_map ack_timer (res_ack (rdm_send_request cfg driver binding bus resp0 dmx_num header pdl ack)) = option_map (fun _ => 0) ack).
Proof.
  intros Hwire Hexp. unfold on_wire in Hwire.
  apply andb_true_iff in Hwire as [Hmux Hsent].
  unfold response_expected, is_disc_unique_branch in Hexp.
  unfold rdm_send_request.
  destruct (if rdm_uid_is_null (hdr_src_uid header) then _ else _) as [b src].
  rewrite Hmux, Hsent. cbn [negb hdr_dest_uid hdr_pid hdr_cc].
  replace (negb (rdm_uid_is_broadcast (hdr_dest_uid header)) || _) with true.
  2:{ destruct Hexp as [->| ->]; [reflexivity|symmetry; apply orb_true_r]. }
  destruct (negb (rx_err bus =? 0) && negb (rx_err bus =? DMX_ERR_TIMEOUT)) eqn:Eerr.
  { apply andb_true_iff in Eerr as [E0 Et].
    apply negb_true_iff, Z.eqb_neq in E0. apply negb_true_iff, Z.eqb_neq in Et.
    cbn [ret res_ack res_pdl res_driver res_trace].
    destruct ack as [a|]; cbn [option_map set_ack_err_size set_ack_none_or_invalid
                               ack_err ack_size ack_type];
      (split; [reflexivity|]); (split; [reflexivity|]); (split; [reflexivity|]);
      (split; [|split; intros; lia]); intros _ _;
      (repeat split; cbn; intuition discriminate). }
  assert (Hok : rx_err bus = 0 \/ rx_err bus = DMX_ERR_TIMEOUT).
  { apply andb_false_iff in Eerr as [E|E]; apply negb_false_iff, Z.eqb_eq in E;
      [left|right]; exact E. }
  destruct (Z.eqb_spec (rx_size bus) 0) as [Hs|Hs].
  { cbn [ret res_ack res_pdl res_driver res_trace].
    destruct ack as [a|]; cbn [option_map set_ack_err_size set_ack_none_or_invalid
                               ack_err ack_size ack_type];
      (split; [reflexivity|]); (split; [reflexivity|]); (split; [reflexivity|]);
      (split; [intros; lia|]); (split; [|intros; lia]); intros _ _;
      (repeat split; cbn; intuition discriminate). }
  destruct (classify_response _ _ _) as [t resp'] eqn:Hcl.
  cbn [ret res_ack res_pdl res_driver res_trace].
  split; [destruct ack; reflexivity|]. split; [destruct ack; reflexivity|].
  split; [reflexivity|]. split; [intros; lia|]. split; [intros; lia|].
  intros _ _ Hrx. unfold classify_response in Hcl. rewrite Hrx in Hcl.
  injection Hcl as <- <-. destruct ack; repeat split.
Qed.

Lemma classify_response_header req resp :
  rx_header bus = Some resp -> snd (classify_response req bus resp0) = resp.
Proof.
  unfold classify_response. intros ->.
  destruct (_ && negb (response_type_eqb _ RDM_RESPONSE_TYPE_ACK_OVERFLOW));
    [reflexivity|].
  destruct (_ && _); reflexivity.
Qed.

(** What a (rdm_send_request cfg driver binding bus resp0 dmx_num header pdl ack) that received a response hands back beside the type. *)
Lemma rdm_send_request_received_fields :
  response_received header bus ->
  let c := classify_response (res_header (rdm_send_request cfg driver binding bus resp0 dmx_num header pdl ack)) bus resp0 in
  res_pdl (rdm_send_request cfg driver binding bus resp0 dmx_num header pdl ack) = hdr_pdl (snd c) /\
  option_map ack_src_uid (res_ack (rdm_send_request cfg driver binding bus resp0 dmx_num header pdl ack)) = option_map (fun _ => hdr_src_uid (snd c)) ack /\
  option_map ack_message_count (res_ack (rdm_send_request cfg driver binding bus resp0 dmx_num header pdl ack))
  = option_map (fun _ => hdr_message_count (snd c)) ack /\
  option_map ack_timer (res_ack (rdm_send_request cfg driver binding bus resp0 dmx_num header pdl ack))
  = option_map (fun _ => match fst c with
                         | RDM_RESPONSE_TYPE_ACK_TIMER =>
                             pdMS_TO_TICKS cfg (u32 (pd_word (rx_pd bus) * 10))
                         | RDM_RESPONSE_TYPE_NACK_REASON => pd_word (rx_pd bus)
                         | _ => 0
                         end) ack /\
  In ReadRdm (res_trace (rdm_send_request cfg driver binding bus resp0 dmx_num header pdl ack)).
Proof.
  intros (Hwire & Hexp & Herr & Hsize).
  unfold on_wire in Hwire. apply andb_true_iff in Hwire as [Hmux Hsent].
  unfold rdm_send_request, is_disc_unique_branch in *.
  destruct (if rdm_uid_is_null (hdr_src_uid header) then _ else _) as [b src].
  rewrite Hmux, Hsent. cbn [negb hdr_dest_uid hdr_pid hdr_cc].
  replace (negb (rdm_uid_is_broadcast (hdr_dest_uid header)) || _) with true.
  2:{ destruct Hexp as [->| ->]; [reflexivity|symmetry; apply orb_true_r]. }
  replace (negb (rx_err bus =? 0) && negb (rx_err bus =? DMX_ERR_TIMEOUT)) with false.
  2:{ destruct Herr as [->| ->]; reflexivity. }
  replace (rx_size bus =? 0) with false by (symmetry; now apply Z.eqb_neq).
  destruct (classify_response _ bus resp0) as [t resp] eqn:Ec.
  cbn [res_pdl res_ack res_header res_trace]. rewrite Ec. cbn [fst snd].
  split; [reflexivity|]. split; [now destruct ack|]. split; [now destruct ack|].
  split; [now destruct ack|]. cbn. tauto.
Qed.

Lemma rdm_send_request_header_pid :
  hdr_pid (res_header (rdm_send_request cfg driver binding bus resp0 dmx_num header pdl ack)) = hdr_pid header.
Proof.
  unfold rdm_send_request.
  destruct (if rdm_uid_is_null (hdr_src_uid header) then _ else _) as [b src].
  destruct (mux_taken bus); [|reflexivity]. cbn [negb].
  destruct (sent_in_time bus); [|reflexivity]. cbn [negb].
  destruct (_ || _).
  - destruct (_ && _); [reflexivity|]. destruct (_ =? _); [reflexivity|].
    destruct (classify_response _ _ _). reflexivity.
  - reflexivity.
Qed.

Lemma pd_word_emplace_word m dst w :
  0 <= w < 2 ^ 16 ->
  pd_word (load_bytes (snd (rdm_pd_emplace_word m dst w)) dst 2) = w.
Proof.
  intros Hw. unfold rdm_pd_emplace_word. cbn [snd].
  pose proof (load_store_bytes (rev (le_bytes 2 w)) m dst) as Hl.
  cbn [le_bytes rev app length] in Hl. cbn [le_bytes rev app]. rewrite Hl.
  unfold pd_word, byte_at. cbn [nth]. Z.div_mod_to_equations; lia.
Qed.

(** X24. What a received response that decodes, has one of the four
    response types and answers the request hands back: [*pdl] is the
    response's PDL, [ack] carries its source UID and message count and its
    type, and the packet is read once received. When the responder emplaced a
    16-bit word with [rdm_pd_emplace_word] at the head of the parameter data,
    a NACK_REASON reports that word as the NACK reason, and an ACK_TIMER
    reports it as a delay in units of 10 ms converted to ticks; ACK and
    ACK_OVERFLOW report 0. *)
Theorem rdm_send_request_reports (resp : rdm_header_t) (m : mem) (dst w : Z) :
  response_received header bus ->
  rx_header bus = Some resp ->
  is_ack_kind (hdr_response_type resp) = true ->
  hdr_pid header = RDM_PID_DISC_UNIQUE_BRANCH
  \/ response_matches (res_header (rdm_send_request cfg driver binding bus resp0 dmx_num header pdl ack)) resp ->
  0 <= w < 2 ^ 16 ->
  rx_pd bus = load_bytes (snd (rdm_pd_emplace_word m dst w)) dst 2 ->
  0 < configTICK_RATE_HZ cfg <= 1000 ->
  res_pdl (rdm_send_request cfg driver binding bus resp0 dmx_num header pdl ack) = hdr_pdl resp /\
  option_map ack_src_uid (res_ack (rdm_send_request cfg driver binding bus resp0 dmx_num header pdl ack)) = option_map (fun _ => hdr_src_uid resp) ack /\
  option_map ack_message_count (res_ack (rdm_send_request cfg driver binding bus resp0 dmx_num header pdl ack))
  = option_map (fun _ => hdr_message_count resp) ack /\
  option_map ack_timer (res_ack (rdm_send_request cfg driver binding bus resp0 dmx_num header pdl ack))
  = option_map (fun _ => match hdr_response_type resp with
                         | RDM_RESPONSE_TYPE_ACK_TIMER =>
                             w * 10 * configTICK_RATE_HZ cfg / 1000
                         | RDM_RESPONSE_TYPE_NACK_REASON => w
                         | _ => 0
                         end) ack /\
  In ReadRdm (res_trace (rdm_send_request cfg driver binding bus resp0 dmx_num header pdl ack)).
Proof.
  intros Hrecv Hrx Hkind Hmatch Hw Hpd Hrate.
  destruct (rdm_send_request_received_fields Hrecv) as (Hpdl & Hsrc & Hmc & Htimer & Hread).
  destruct (classify_response_type (res_header (rdm_send_request cfg driver binding bus resp0 dmx_num header pdl ack)) bus resp0) as [_ Hty].
  destruct (Hty resp Hrx) as (_ & _ & Hgood).
  pose proof rdm_send_request_header_pid as Hpid.
  rewrite Hpid in Hgood. specialize (Hgood Hkind Hmatch).
  rewrite (classify_response_header _ resp Hrx) in Hpdl, Hsrc, Hmc.
  rewrite Hgood, Hpd, pd_word_emplace_word in Htimer by exact Hw.
  repeat split; try assumption. rewrite Htimer.
  destruct ack as [a|]; [|reflexivity]. cbn [option_map]. f_equal.
  destruct (hdr_response_type resp); try reflexivity.
  unfold pdMS_TO_TICKS. rewrite (u32_small (w * 10)) by lia.
  rewrite (u32_small (w * 10 * configTICK_RATE_HZ cfg)) by nia.
  apply u32_small. split; [apply Z.div_pos; nia|].
  apply Z.div_lt_upper_bound; nia.
Qed.

End RequestPaths.

Section RequestExamples.
Import Utils UtilsExt.

Lemma rdm_send_request_not_sent_witness :
  res_ack (rdm_send_request esp32_config driver_tn7 uid_controller bus_mutex_held
             header_garbage 1 get_device_info 231 (Some ack_zero))
  = Some ack_zero.
Proof.
  apply (rdm_send_request_not_sent esp32_config driver_tn7 uid_controller
           bus_mutex_held header_garbage 1 get_device_info 231 (Some ack_zero)).
  reflexivity.
Defined.

Lemma rdm_send_request_header_witness :
  hdr_port_id (res_header (rdm_send_request esp32_config driver_tn7 uid_controller
                             bus_no_answer header_garbage 1 get_device_info 231
                             (Some ack_zero))) <> 0.
Proof.
  apply (rdm_send_request_header esp32_config driver_tn7 uid_controller
           bus_no_answer header_garbage 1 get_device_info 231 (Some ack_zero)).
  lia.
Defined.

Lemma rdm_send_request_no_packet_witness :
  option_map ack_size
    (res_ack (rdm_send_request esp32_config driver_tn7 uid_controller bus_no_answer
                header_garbage 1 get_device_info 231 (Some ack_zero)))
  = Some 0.
Proof.
  pose proof (rdm_send_request_no_packet esp32_config driver_tn7 uid_controller
                bus_no_answer header_garbage 1 get_device_info 231 (Some ack_zero)
                eq_refl (or_introl eq_refl)) as (_ & H & _).
  exact H.
Defined.

Lemma rdm_send_request_reports_witness :
  option_map ack_timer
    (res_ack (rdm_send_request esp32_config driver_tn7 uid_controller
                (bus_answer (device_info_response RDM_RESPONSE_TYPE_NACK_REASON 7 2)
                   (load_bytes (snd (rdm_pd_emplace_word mem_letters 0x3ffc0000 5))
                      0x3ffc0000 2))
                header_garbage 1 get_device_info 231 (Some ack_zero)))
  = Some 5.
Proof.
  apply (rdm_send_request_reports esp32_config driver_tn7 uid_controller
           (bus_answer (device_info_response RDM_RESPONSE_TYPE_NACK_REASON 7 2)
              (load_bytes (snd (rdm_pd_emplace_word mem_letters 0x3ffc0000 5))
                 0x3ffc0000 2))
           header_garbage 1 get_device_info 231 (Some ack_zero)
           (device_info_response RDM_RESPONSE_TYPE_NACK_REASON 7 2)
           mem_letters 0x3ffc0000 5).
  - split; [reflexivity|]. split; [left; reflexivity|].
    split; [left; reflexivity|discriminate].
  - reflexivity.
  - reflexivity.
  - right. repeat split.
  - lia.
  - reflexivity.
  - cbn. lia.
Defined.

End RequestExamples.

(** * Packets: what [rdm_parse] accepts *)

Section ParsePackets.
Import EspRdm EspRdmExt.

Lemma nth_repeat_lt (x d : Z) : forall k i, (i < k)%nat -> nth i (repeat x k) d = x.
Proof.
  induction k as [|k IH]; intros i Hi; [lia|].
  destruct i as [|i]; [reflexivity|]. cbn [repeat nth]. apply IH. lia.
Qed.

Lemma preamble_scan_stops rest : forall remaining k i,
  (i <= k)%nat -> (k - i <= remaining)%nat ->
  preamble_scan (repeat RDM_PREAMBLE k ++ RDM_DELIMITER :: rest) i remaining = k.
Proof.
  induction remaining as [|r IH]; intros k i Hi Hr; cbn [preamble_scan]; [lia|].
  unfold byte_at. destruct (Nat.eq_dec i k) as [->|Hne].
  - rewrite app_nth2 by (rewrite repeat_length; lia).
    rewrite repeat_length, Nat.sub_diag. reflexivity.
  - rewrite app_nth1 by (rewrite repeat_length; lia).
    rewrite nth_repeat_lt by lia. cbn [Z.eqb RDM_PREAMBLE RDM_DELIMITER Pos.eqb].
    apply IH; lia.
Qed.

Lemma byte_at_delimiter rest k :
  byte_at (repeat RDM_PREAMBLE k ++ RDM_DELIMITER :: rest) k = RDM_DELIMITER.
Proof.
  unfold byte_at. rewrite app_nth2 by (rewrite repeat_length; lia).
  now rewrite repeat_length, Nat.sub_diag.
Qed.

Lemma skipn_preamble rest k :
  skipn (k + 1) (repeat RDM_PREAMBLE k ++ RDM_DELIMITER :: rest) = rest.
Proof.
  rewrite skipn_app, repeat_length.
  rewrite (skipn_all2 (repeat RDM_PREAMBLE k)) by (rewrite repeat_length; lia).
  replace (k + 1 - k)%nat with 1%nat by lia. reflexivity.
Qed.

Lemma short_preamble_frame_shape k u : 0 <= u < 2 ^ 48 -> (k <= 7)%nat ->
  short_preamble_frame k u
  = repeat RDM_PREAMBLE k ++ RDM_DELIMITER :: skipn 8 (disc_response_frame u).
Proof.
  intros Hu Hk.
  destruct (disc_response_frame_bytes u Hu)
    as (b0 & b1 & b2 & b3 & b4 & b5 & _ & _ & _ & Hf).
  cbv zeta in Hf. unfold short_preamble_frame. rewrite Hf.
  do 8 (destruct k as [|k]; [reflexivity|]). lia.
Qed.

(** The discovery branch on a frame with [k] preamble bytes. *)
Lemma rdm_parse_preamble_frame (k : nat) (u size : Z) (ev : rdm_event_t) :
  0 <= u < 2 ^ 48 -> (k <= 7)%nat -> Z.of_nat k + 17 <= size ->
  rdm_parse (Some (short_preamble_frame k u)) size (Some ev)
  = if 17 <? size then (true, Some (disc_event ev u true)) else (false, Some ev).
Proof.
  intros Hu Hk Hsize. rewrite (short_preamble_frame_shape k u Hu Hk).
  pose proof (disc_decode_frame u Hu) as Hdec.
  set (rest := skipn 8 (disc_response_frame u)) in *. clearbody rest.
  unfold rdm_parse.
  rewrite (preamble_scan_stops rest 7 k 0) by lia.
  rewrite byte_at_delimiter, skipn_preamble, Hdec, !Z.eqb_refl.
  assert (Hsc : byte_at (repeat RDM_PREAMBLE k ++ RDM_DELIMITER :: rest) 0
                = if (k =? 0)%nat then RDM_DELIMITER else RDM_PREAMBLE).
  { destruct k; reflexivity. }
  rewrite Hsc.
  destruct (Z.ltb_spec 17 size) as [Hlt|Hge].
  - replace (size <? Z.of_nat k + 17) with false by (symmetry; apply Z.ltb_ge; lia).
    destruct (k =? 0)%nat; reflexivity.
  - assert (k = 0%nat) by lia. subst k. reflexivity.
Qed.


(** X25. The decoder takes a discovery response with any preamble the
    standard allows: the frame of [rdm_send_disc_response] shortened to [k]
    preamble bytes, [k] from 0 to 7, is [k + 17] bytes long and decodes to the
    same UID with a valid checksum - except that a response without preamble
    received as exactly its 17 bytes is refused, the event untouched, because
    the branch asks for more than 17 bytes. *)
Theorem rdm_parse_any_preamble (k : nat) (u size : Z) (ev : rdm_event_t) :
  0 <= u < 2 ^ 48 -> (k <= 7)%nat -> Z.of_nat k + 17 <= size ->
  length (short_preamble_frame k u) = (k + 17)%nat /\
  rdm_parse (Some (short_preamble_frame k u)) size (Some ev)
  = (if 17 <? size then (true, Some (disc_event ev u true)) else (false, Some ev)) /\
  (rdm_parse (Some (short_preamble_frame k u)) size (Some ev) = (false, Some ev)
   <-> k = 0%nat /\ size = 17).
Proof.
  intros Hu Hk Hsize.
  pose proof (rdm_parse_preamble_frame k u size ev Hu Hk Hsize) as Hparse.
  split; [|split; [exact Hparse|]].
  - rewrite (short_preamble_frame_shape k u Hu Hk).
    destruct (disc_response_frame_bytes u Hu)
      as (b0 & b1 & b2 & b3 & b4 & b5 & _ & _ & _ & Hf).
    cbv zeta in Hf. rewrite Hf, length_app, repeat_length. cbn [skipn length]. lia.
  - rewrite Hparse. destruct (Z.ltb_spec 17 size) as [Hlt|Hge].
    + split; [discriminate|lia].
    + split; [lia|reflexivity].
Qed.

Lemma rdm_parse_any_preamble_witness :
  rdm_parse (Some (short_preamble_frame 3 0x05e012345678)) 20 (Some event_zero)
  = (true, Some (disc_event event_zero 0x05e012345678 true)).
Proof.
  pose proof (rdm_parse_any_preamble 3 0x05e012345678 20 event_zero
                ltac:(lia) ltac:(lia) ltac:(lia)) as (_ & H & _).
  exact H.
Defined.

Lemma packet_sum_byte_sum data : forall n,
  Forall (fun b => 0 <= b < 256) data ->
  packet_sum data n = byte_sum (firstn n data) mod 2 ^ 16.
Proof.
  intros n Hr. induction n as [|n IH]; [reflexivity|].
  cbn [packet_sum]. rewrite IH. unfold u16, byte_at.
  destruct (Nat.lt_ge_cases n (length data)) as [Hlt|Hge].
  - destruct (lookup_lt_is_Some_2 data n Hlt) as [x Hx].
    rewrite (take_S_r data n x Hx). rewrite (nth_lookup_Some data n 0 x Hx).
    unfold byte_sum. rewrite fold_right_app. cbn [fold_right].
    assert (Hfold : forall l a, fold_right Z.add a l = fold_right Z.add 0 l + a).
    { induction l as [|y l IHl]; intros a; cbn [fold_right]; [lia|].
      rewrite IHl. lia. }
    rewrite (Hfold (take n data) (x + 0)), Z.add_0_r.
    now rewrite Zplus_mod_idemp_l.
  - rewrite nth_overflow by lia. rewrite !firstn_all2 by lia.
    rewrite Z.add_0_r. apply Z.mod_mod. lia.
Qed.

(** X26. A packet that starts with the start code and the sub-start code
    and is received with at least 26 bytes is accepted exactly when the sum
    of its first [message_len] bytes, modulo 65536, is the 16-bit number that
    follows them, high byte first. The event is filled from the header in
    either case, [checksum_is_valid] telling which; the message length is not
    compared with the size received. *)
Theorem rdm_parse_packet_checksum (data : list Z) (size : Z) (ev : rdm_event_t) :
  Forall (fun b => 0 <= b < 256) data ->
  byte_at data 0 = RDM_SC -> byte_at data 1 = RDM_SUB_SC ->
  RDM_BASE_PACKET_SIZE <= size ->
  let message_len := Z.to_nat (byte_at data 2) in
  let valid := byte_sum (firstn message_len data) mod 2 ^ 16
               =? 256 * byte_at data message_len + byte_at data (message_len + 1) in
  rdm_parse (Some data) size (Some ev) = (valid, Some (packet_event data valid)).
Proof.
  intros Hr Hsc Hsub Hsize message_len valid. subst valid message_len.
  unfold rdm_parse. rewrite Hsc, Hsub.
  replace (RDM_BASE_PACKET_SIZE <=? size) with true by (symmetry; apply Z.leb_le; lia).
  cbn [RDM_SC RDM_PREAMBLE RDM_DELIMITER RDM_SUB_SC Z.eqb Pos.eqb orb andb].
  rewrite (packet_sum_byte_sum data _ Hr). unfold be16_at.
  rewrite (Z.mul_comm 256). reflexivity.
Qed.

Lemma rdm_parse_packet_checksum_witness :
  let data := [0xcc; 0x01; 24; 0xff; 0xff; 0xff; 0xff; 0xff; 0xff;
               0x05; 0xe0; 0x12; 0x34; 0x56; 0x78; 7; 1; 0; 0; 0;
               0x10; 0x00; 0x02; 0; 0x08; 0xf2] in
  fst (rdm_parse (Some data) 26 (Some event_zero)) = true.
Proof.
  intros data.
  assert (Hr : Forall (fun b => 0 <= b < 256) data).
  { subst data. repeat (constructor; [lia|]). constructor. }
  rewrite (rdm_parse_packet_checksum data 26 event_zero Hr eq_refl eq_refl);
    [reflexivity|unfold RDM_BASE_PACKET_SIZE; lia].
Defined.

(** X27. [rdm_parse] never reports success without a checked checksum: when
    it returns true it has written the event and set [checksum_is_valid];
    when it returns false it has either left the event as it was or written
    it with [checksum_is_valid] false. With a NULL pointer, or a first byte
    that is neither the preamble, the delimiter nor the start code, it
    returns false and leaves the event as it was. *)
Theorem rdm_parse_valid_or_untouched (data : option (list Z)) (size : Z)
    (event : option rdm_event_t) :
  let r := rdm_parse data size event in
  (fst r = true ->
   exists ev', snd r = Some ev' /\ checksum_is_valid ev' = true) /\
  (fst r = false ->
   snd r = event \/ exists ev', snd r = Some ev' /\ checksum_is_valid ev' = false) /\
  ((data = None \/ event = None \/
    exists d, data = Some d /\ byte_at d 0 <> RDM_PREAMBLE /\
              byte_at d 0 <> RDM_DELIMITER /\ byte_at d 0 <> RDM_SC) ->
   r = (false, event)).
Proof.
  assert (Hsc : forall d,
            (exists d0, Some d = Some d0 /\ byte_at d0 0 <> RDM_PREAMBLE /\
                        byte_at d0 0 <> RDM_DELIMITER /\ byte_at d0 0 <> RDM_SC) ->
            (byte_at d 0 =? RDM_PREAMBLE) || (byte_at d 0 =? RDM_DELIMITER) = false /\
            (byte_at d 0 =? RDM_SC) = false).
  { intros d (d0 & Hd & Hp & Hdl & Hs). injection Hd as <-.
    rewrite orb_false_iff, !Z.eqb_neq. tauto. }
  assert (Huntouched : forall P : Prop,
            (fst (false, event) = true ->
             exists ev', snd (false, event) = Some ev' /\ checksum_is_valid ev' = true) /\
            (fst (false, event) = false ->
             snd (false, event) = event \/
             exists ev', snd (false, event) = Some ev' /\ checksum_is_valid ev' = false) /\
            (P -> (false, event) = (false, event))).
  { intros P. cbn [fst snd]. split; [discriminate|]. split; [now left|reflexivity]. }
  unfold rdm_parse. destruct data as [d|]; [|apply Huntouched].
  destruct event as [ev|]; [|apply Huntouched]. cbv zeta.
  destruct ((_ || _) && (17 <? size)) eqn:Edisc.
  - destruct (negb _ || _); [apply Huntouched|].
    destruct (disc_decode _) as [[uid sum] checksum].
    cbn [fst snd]. split; [|split].
    + intros H. eexists. split; [reflexivity|exact H].
    + intros H. right. eexists. split; [reflexivity|exact H].
    + intros [H|[H|Hex]]; [discriminate|discriminate|].
      apply Hsc in Hex as [E _]. rewrite E in Edisc. discriminate.
  - destruct (_ && _ && _) eqn:Epkt; [|apply Huntouched].
    cbn [fst snd]. split; [|split].
    + intros H. eexists. split; [reflexivity|exact H].
    + intros H. right. eexists. split; [reflexivity|exact H].
    + intros [H|[H|Hex]]; [discriminate|discriminate|].
      apply Hsc in Hex as [_ E]. rewrite E in Epkt. discriminate.
Qed.

End ParsePackets.

(** * Requests of the controller: what is built is what is parsed *)

Section Requests.
Import EspRdm EspRdmExt.

Lemma le_bytes_range : forall n v, Forall (fun b => 0 <= b < 256) (le_bytes n v).
Proof.
  induction n as [|n IH]; intros v; cbn [le_bytes]; constructor; [|apply IH].
  apply Z.mod_pos_bound. lia.
Qed.

Lemma length_le_bytes : forall n v, length (le_bytes n v) = n.
Proof. induction n as [|n IH]; intros v; cbn [le_bytes length]; [|rewrite IH]; reflexivity. Qed.

Lemma uid_to_buf_bytes u : 0 <= u < 2 ^ 48 ->
  exists b0 b1 b2 b3 b4 b5,
    uid_to_buf u = [b5; b4; b3; b2; b1; b0] /\
    Forall (fun b => 0 <= b < 256) [b0; b1; b2; b3; b4; b5] /\
    u = le_value [b0; b1; b2; b3; b4; b5].
Proof.
  intros Hu. unfold uid_to_buf. cbn [le_bytes rev app le_value].
  do 6 eexists. split; [reflexivity|]. split.
  - repeat (constructor; [apply Z.mod_pos_bound; lia|]). constructor.
  - Z.div_mod_to_equations; lia.
Qed.

Lemma be16_bytes x : 0 <= x < 2 ^ 16 ->
  exists hi lo, be16 x = [hi; lo] /\ 0 <= hi < 256 /\ 0 <= lo < 256 /\ x = hi * 256 + lo.
Proof.
  intros Hx. unfold be16. cbn [le_bytes rev app].
  do 2 eexists. split; [reflexivity|]. Z.div_mod_to_equations; lia.
Qed.

Lemma byte_sum_app a b : byte_sum (a ++ b) = byte_sum a + byte_sum b.
Proof.
  unfold byte_sum. induction a as [|x a IH]; cbn [app fold_right]; [lia|].
  rewrite IH. lia.
Qed.

Lemma byte_sum_range l : Forall (fun b => 0 <= b < 256) l ->
  0 <= byte_sum l <= 255 * Z.of_nat (length l).
Proof.
  unfold byte_sum. induction 1 as [|x l Hx Hl IH]; cbn [fold_right length]; lia.
Qed.

(** A request packet parses back: the loop that sums the request is the loop
    that checks it. *)
Lemma rdm_parse_request_packet destination source tn_ port_id_ sub_device_ cc_ pid_
    pdl_ pd_ size ev :
  0 <= destination < 2 ^ 48 -> 0 <= source < 2 ^ 48 ->
  0 <= tn_ < 256 -> 0 <= port_id_ < 256 -> 0 <= sub_device_ < 2 ^ 16 ->
  0 <= cc_ < 256 -> 0 <= pid_ < 2 ^ 16 -> 0 <= pdl_ < 256 ->
  Forall (fun b => 0 <= b < 256) pd_ -> (length pd_ <= 231)%nat ->
  RDM_BASE_PACKET_SIZE <= size ->
  let request :=
    request_packet (24 + Z.of_nat (length pd_)) destination source tn_ port_id_
      sub_device_ cc_ pid_ pdl_ pd_ in
  length request = (26 + length pd_)%nat /\
  (exists checksum, skipn 24 request = pd_ ++ checksum) /\
  rdm_parse (Some request) size (Some ev)
  = (true, Some (request_event destination source tn_ port_id_ sub_device_ cc_ pid_
                   pdl_)).
Proof.
  intros Hd Hs Htn Hport Hsub Hcc Hpid Hpdl Hpd Hlen Hsize request. subst request.
  unfold request_packet.
  destruct (uid_to_buf_bytes destination Hd)
    as (d0 & d1 & d2 & d3 & d4 & d5 & -> & Hdr & Hdv).
  destruct (uid_to_buf_bytes source Hs)
    as (s0 & s1 & s2 & s3 & s4 & s5 & -> & Hsr & Hsv).
  destruct (be16_bytes sub_device_ Hsub) as (sh & sl & -> & Hsh & Hsl & Hsubv).
  destruct (be16_bytes pid_ Hpid) as (ph & pl & -> & Hph & Hpl & Hpidv).
  set (header := [RDM_SC; RDM_SUB_SC; 24 + Z.of_nat (length pd_);
                  d5; d4; d3; d2; d1; d0; s5; s4; s3; s2; s1; s0; tn_; port_id_; 0;
                  sh; sl; cc_; ph; pl; pdl_]).
  match goal with |- context [packet_sum ?r _] => set (request := r) end.
  assert (Hreq : request = header ++ pd_) by reflexivity.
  clearbody request. subst request.
  apply Forall_cons_iff in Hdr as [Hd0 Hdr]. apply Forall_cons_iff in Hdr as [Hd1 Hdr].
  apply Forall_cons_iff in Hdr as [Hd2 Hdr]. apply Forall_cons_iff in Hdr as [Hd3 Hdr].
  apply Forall_cons_iff in Hdr as [Hd4 Hdr]. apply Forall_cons_iff in Hdr as [Hd5 _].
  apply Forall_cons_iff in Hsr as [Hs0 Hsr]. apply Forall_cons_iff in Hsr as [Hs1 Hsr].
  apply Forall_cons_iff in Hsr as [Hs2 Hsr]. apply Forall_cons_iff in Hsr as [Hs3 Hsr].
  apply Forall_cons_iff in Hsr as [Hs4 Hsr]. apply Forall_cons_iff in Hsr as [Hs5 _].
  assert (Hhr : Forall (fun b => 0 <= b < 256) (header ++ pd_)).
  { apply Forall_app. split; [|exact Hpd]. subst header.
    repeat (constructor; [first [assumption | unfold RDM_SC, RDM_SUB_SC; lia]|]).
    constructor. }
  assert (Hhl : length (header ++ pd_) = (24 + length pd_)%nat)
    by (rewrite length_app; reflexivity).
  assert (Hml : Z.to_nat (byte_at (header ++ pd_) 2) = length (header ++ pd_)).
  { rewrite Hhl. cbn [header app byte_at nth]. lia. }
  rewrite Hml.
  pose proof (packet_sum_byte_sum (header ++ pd_) (length (header ++ pd_)) Hhr) as Hsum.
  rewrite firstn_all in Hsum.
  set (cs := packet_sum (header ++ pd_) (length (header ++ pd_))) in *.
  assert (Hcs : 0 <= cs < 2 ^ 16) by (rewrite Hsum; apply Z.mod_pos_bound; lia).
  destruct (be16_bytes cs Hcs) as (ch & cl & -> & Hch & Hcl & Hcsv).
  split; [rewrite length_app, Hhl; cbn [length]; lia|].
  split.
  { exists [ch; cl]. rewrite <- app_assoc. reflexivity. }
  assert (Hdata : Forall (fun b => 0 <= b < 256) ((header ++ pd_) ++ [ch; cl])).
  { apply Forall_app. split; [exact Hhr|]. repeat constructor; lia. }
  unfold rdm_parse.
  assert (H0 : byte_at ((header ++ pd_) ++ [ch; cl]) 0 = RDM_SC) by reflexivity.
  assert (H1 : byte_at ((header ++ pd_) ++ [ch; cl]) 1 = RDM_SUB_SC) by reflexivity.
  assert (H2 : Z.to_nat (byte_at ((header ++ pd_) ++ [ch; cl]) 2)
               = length (header ++ pd_)).
  { rewrite Hhl. cbn [header app byte_at nth]. lia. }
  rewrite H0, H1, H2.
  replace (RDM_BASE_PACKET_SIZE <=? size) with true by (symmetry; apply Z.leb_le; lia).
  cbn [RDM_SC RDM_PREAMBLE RDM_DELIMITER RDM_SUB_SC Z.eqb Pos.eqb orb andb].
  rewrite (packet_sum_byte_sum _ _ Hdata), firstn_app, firstn_all, Nat.sub_diag.
  cbn [firstn]. rewrite app_nil_r, <- Hsum.
  assert (Hbe : be16_at ((header ++ pd_) ++ [ch; cl]) (length (header ++ pd_)) = cs).
  { unfold be16_at, byte_at. rewrite !app_nth2 by lia.
    rewrite Nat.sub_diag. replace (length (header ++ pd_) + 1 - length (header ++ pd_))%nat
      with 1%nat by lia.
    cbn [nth]. lia. }
  rewrite Hbe, Z.eqb_refl. unfold request_event. f_equal. f_equal.
  rewrite <- app_assoc. subst header.
  cbn [app buf_to_uid be16_at byte_at nth skipn firstn rev le_value Nat.add].
  unfold buf_to_uid, be16_at, byte_at.
  cbn [app nth skipn firstn rev le_value Nat.add].
  cbn [le_value] in Hdv, Hsv.
  f_equal; lia.
Qed.

(** X28. The discovery requests parse back. The DISC_UNIQUE_BRANCH request
    that [rdm_send_disc_unique_branch] builds is 38 bytes that [rdm_parse]
    accepts, with the broadcast destination, the controller's UID as source,
    the transaction number, the port number plus one, the discovery command
    class, the PID and a PDL of 12, and its parameter data are the two bounds;
    the request of [rdm_send_disc_mute] is 26 bytes that [rdm_parse] accepts
    with the UID addressed and the PID of the mute or un-mute. *)
Theorem rdm_parse_discovery_requests (k : rdm_consts)
    (own rdm_tn dmx_num lower upper uid : Z) (mute : bool) (ev : rdm_event_t) :
  0 <= own < 2 ^ 48 -> 0 <= lower < 2 ^ 48 -> 0 <= upper < 2 ^ 48 ->
  0 <= uid < 2 ^ 48 -> 0 <= rdm_tn < 256 -> 0 <= dmx_num < 255 ->
  0 <= RDM_PID_DISC_MUTE k < 2 ^ 16 -> 0 <= RDM_PID_DISC_UN_MUTE k < 2 ^ 16 ->
  let dub := disc_unique_branch_request own rdm_tn dmx_num lower upper in
  let mute_request := disc_mute_request k own rdm_tn dmx_num uid mute in
  length dub = 38%nat /\
  rdm_parse (Some dub) 38 (Some ev)
  = (true, Some (request_event RDM_BROADCAST_UID own rdm_tn (dmx_num + 1) 0
                   RDM_CC_DISC_COMMAND RDM_PID_DISC_UNIQUE_BRANCH 12)) /\
  buf_to_uid dub 24 = lower /\ buf_to_uid dub 30 = upper /\
  length mute_request = 26%nat /\
  rdm_parse (Some mute_request) 26 (Some ev)
  = (true, Some (request_event uid own rdm_tn (dmx_num + 1) 0 RDM_CC_DISC_COMMAND
                   (if mute then RDM_PID_DISC_MUTE k else RDM_PID_DISC_UN_MUTE k) 0)).
Proof.
  intros Hown Hlo Hup Huid Htn Hnum Hm Hum dub mute_request.
  assert (Hport : u8 (dmx_num + 1) = dmx_num + 1) by (apply u8_small; lia).
  assert (Hpd : Forall (fun b => 0 <= b < 256) (uid_to_buf lower ++ uid_to_buf upper)).
  { apply Forall_app. split; apply Forall_rev, le_bytes_range. }
  destruct (rdm_parse_request_packet RDM_BROADCAST_UID own rdm_tn (dmx_num + 1) 0
              RDM_CC_DISC_COMMAND RDM_PID_DISC_UNIQUE_BRANCH 12
              (uid_to_buf lower ++ uid_to_buf upper) 38 ev)
    as (Hlen & (cs & Hskip) & Hparse);
    try (unfold RDM_BROADCAST_UID, RDM_CC_DISC_COMMAND, RDM_PID_DISC_UNIQUE_BRANCH,
           RDM_BASE_PACKET_SIZE; lia); try assumption.
  { cbn. lia. }
  rewrite <- Hport in Hlen, Hskip, Hparse at 1.
  change (request_packet _ _ _ _ _ _ _ _ _ _) with dub in Hlen, Hskip, Hparse.
  destruct (rdm_parse_request_packet uid own rdm_tn (dmx_num + 1) 0
              RDM_CC_DISC_COMMAND
              (if mute then RDM_PID_DISC_MUTE k else RDM_PID_DISC_UN_MUTE k) 0
              [] 26 ev)
    as (Hlen' & _ & Hparse');
    try (unfold RDM_CC_DISC_COMMAND, RDM_BASE_PACKET_SIZE; lia); try assumption.
  { destruct mute; assumption. }
  { constructor. }
  { cbn. lia. }
  rewrite <- Hport in Hlen', Hparse' at 1.
  change (request_packet _ _ _ _ _ _ _ _ _ _) with mute_request in Hlen', Hparse'.
  split; [exact Hlen|]. split; [exact Hparse|].
  assert (Hbounds : buf_to_uid dub 24 = lower /\ buf_to_uid dub 30 = upper).
  { unfold buf_to_uid. replace 30%nat with (6 + 24)%nat by reflexivity.
    rewrite <- skipn_skipn, Hskip.
    destruct (uid_to_buf_bytes lower Hlo) as (l0 & l1 & l2 & l3 & l4 & l5 & -> & _ & Hl).
    destruct (uid_to_buf_bytes upper Hup) as (h0 & h1 & h2 & h3 & h4 & h5 & -> & _ & Hh).
    cbn [app skipn firstn rev].
    change (firstn 0 (cs ++ repeat 0 6)) with (@nil Z). cbn [app rev].
    split; congruence. }
  split; [apply Hbounds|]. split; [apply Hbounds|].
  split; [exact Hlen'|exact Hparse'].
Qed.

Lemma rdm_parse_discovery_requests_witness :
  let dub := disc_unique_branch_request 0x05e012345678 7 1 0 0xffffffffffff in
  buf_to_uid dub 24 = 0 /\ buf_to_uid dub 30 = 0xffffffffffff.
Proof.
  pose proof (rdm_parse_discovery_requests esp32_rdm_consts 0x05e012345678 7 1 0
                0xffffffffffff 0x05e000000042 true event_zero
                ltac:(lia) ltac:(lia) ltac:(lia) ltac:(lia) ltac:(lia) ltac:(lia)
                ltac:(cbn; lia) ltac:(cbn; lia)) as H.
  cbv zeta in H. destruct H as (_ & _ & H24 & H30 & _).
  split; [exact H24|exact H30].
Defined.

(** X29. One exchange of discovery, from [rdm_send_disc_unique_branch]'s
    side, when bytes were received without an error other than a collision.
    The call returns the size received. If the bytes are the 24-byte response
    a responder with the UID [u] sends with [rdm_send_disc_response], the
    response is RDM_OK with the type ACK and [*uid] is [u]. If at most 17
    bytes were received, [rdm_parse] gives up without writing the event, and
    the error code and [*uid] are taken from the uninitialised local event. *)
Theorem rdm_send_disc_unique_branch_response (k : rdm_consts) (DMX_NUM_MAX : Z)
    (rdm_uid : Z) (mac : list Z) (rdm_tn : Z) (rx : received_t) (ev0 : rdm_event_t)
    (dmx_num lower upper : Z) (response : rdm_response_t) (uid0 : Z) :
  dmx_num < DMX_NUM_MAX ->
  recv_err rx = 0 \/ recv_err rx = DMX_ERR_DATA_COLLISION k ->
  recv_size rx <> 0 ->
  let r := rdm_send_disc_unique_branch k DMX_NUM_MAX true rdm_uid mac rdm_tn rx ev0
             dmx_num (Some (lower, upper)) (Some response) (Some uid0) in
  dub_ret r = recv_size rx /\
  dub_written r
  = Some (disc_unique_branch_request (rdm_get_uid k rdm_uid mac) rdm_tn dmx_num
            lower upper) /\
  (forall u MAX' dmx_num',
     0 <= u < 2 ^ 48 ->
     rdm_send_disc_response MAX' dmx_num' true u = Some (recv_buffer rx) ->
     recv_size rx = 24 ->
     dub_response r = Some (mk_response 24 RDM_OK Utils.RDM_RESPONSE_TYPE_ACK) /\
     dub_uid r = Some u) /\
  (recv_size rx <= 17 ->
   option_map resp_err (dub_response r) = Some (event_err ev0) /\
   dub_uid r = Some (source_uid ev0)).
Proof.
  intros Hnum Herr Hsize r. subst r. unfold rdm_send_disc_unique_branch.
  replace (dmx_num <? DMX_NUM_MAX) with true by (symmetry; apply Z.ltb_lt; lia).
  cbn [negb].
  replace (negb (recv_err rx =? 0) && negb (recv_err rx =? DMX_ERR_DATA_COLLISION k))
    with false.
  2:{ destruct Herr as [->| ->]; [reflexivity|].
      rewrite Z.eqb_refl. cbn [negb]. now rewrite andb_false_r. }
  replace (recv_size rx =? 0) with false by (symmetry; now apply Z.eqb_neq).
  cbn [negb dub_ret dub_written dub_response dub_uid option_map resp_size resp_err
       resp_type].
  split; [reflexivity|]. split; [reflexivity|]. split.
  - intros u MAX' dmx_num' Hu Hframe H24.
    unfold rdm_send_disc_response in Hframe.
    destruct (negb (dmx_num' <? MAX')); [discriminate|]. cbn [negb] in Hframe.
    injection Hframe as Hframe. rewrite <- Hframe, H24.
    pose proof (rdm_parse_preamble_frame 7 u 24 ev0 Hu ltac:(lia) ltac:(lia)) as Hp.
    change (short_preamble_frame 7 u) with (disc_response_frame u) in Hp.
    rewrite Hp. cbn. split; reflexivity.
  - intros Hshort. unfold rdm_parse.
    replace (17 <? recv_size rx) with false by (symmetry; apply Z.ltb_ge; lia).
    rewrite andb_false_r.
    replace (RDM_BASE_PACKET_SIZE <=? recv_size rx) with false
      by (symmetry; apply Z.leb_gt; unfold RDM_BASE_PACKET_SIZE; lia).
    rewrite andb_false_r. cbn [snd]. unfold event_err.
    split; [|reflexivity].
    destruct (negb (cc ev0 =? RDM_CC_DISC_COMMAND_RESPONSE) || _); [reflexivity|].
    destruct (negb (checksum_is_valid ev0)); reflexivity.
Qed.

Lemma rdm_send_disc_unique_branch_response_witness :
  dub_uid (rdm_send_disc_unique_branch esp32_rdm_consts 3 true 0x05e012345678 []
             7 (mk_received 24 0 (disc_response_frame 0x05e000000042)) event_zero 1
             (Some (0, 0xffffffffffff))
             (Some (mk_response 0 RDM_FAIL Utils.RDM_RESPONSE_TYPE_NONE)) (Some 0))
  = Some 0x05e000000042.
Proof.
  pose proof (rdm_send_disc_unique_branch_response esp32_rdm_consts 3 0x05e012345678
                [] 7 (mk_received 24 0 (disc_response_frame 0x05e000000042))
                event_zero 1 0 0xffffffffffff
                (mk_response 0 RDM_FAIL Utils.RDM_RESPONSE_TYPE_NONE) 0
                ltac:(lia) (or_introl eq_refl) ltac:(discriminate)) as H.
  cbv zeta in H. destruct H as (_ & _ & H & _).
  apply (H 0x05e000000042 3 1); [lia|reflexivity|reflexivity].
Defined.

End Requests.

(** * Emplacing fixed-size fields twice gives back the bytes *)

Section EmplaceScalars.
Import Utils UtilsExt.

Lemma scalar_cases c : is_scalar c = true ->
  Ascii.eqb c "#" = false /\
  ((is_chr c ["b"; "B"]%char = true /\ symbol_size c = 1 /\
    is_chr c ["u"; "U"]%char = false) \/
   (is_chr c ["b"; "B"]%char = false /\ is_chr c ["w"; "W"]%char = true /\
    symbol_size c = 2 /\ is_chr c ["u"; "U"]%char = false) \/
   (is_chr c ["b"; "B"]%char = false /\ is_chr c ["w"; "W"]%char = false /\
    is_chr c ["d"; "D"]%char = true /\ symbol_size c = 4 /\
    is_chr c ["u"; "U"]%char = false) \/
   (is_chr c ["b"; "B"]%char = false /\ is_chr c ["w"; "W"]%char = false /\
    is_chr c ["d"; "D"]%char = false /\ is_chr c ["u"; "U"]%char = true /\
    symbol_size c = 6)).
Proof.
  unfold is_scalar, is_chr at 1. cbn [existsb]. rewrite !orb_true_iff.
  intros [H|[H|[H|[H|[H|[H|[H|[H|H]]]]]]]]; try discriminate;
    apply Ascii.eqb_eq in H; subst c; (split; [reflexivity|]);
    first [ left; repeat split; reflexivity
          | right; left; repeat split; reflexivity
          | right; right; left; repeat split; reflexivity
          | right; right; right; repeat split; reflexivity ].
Qed.

Lemma symbol_size_scalar c : is_scalar c = true -> 1 <= symbol_size c <= 6.
Proof. intros H. destruct (scalar_cases c H) as [_ [C|[C|[C|C]]]]; lia. Qed.

Lemma format_size_scalar c f :
  is_scalar c = true -> format_size (c :: f) = symbol_size c + format_size f.
Proof.
  intros H. destruct (scalar_cases c H) as [E _].
  unfold format_size. cbn [format_size_from]. now rewrite E.
Qed.

Lemma format_size_nonneg f : scalar_format f = true -> 0 <= format_size f.
Proof.
  induction f as [|c f IH]; [intros _; unfold format_size; cbn; lia|].
  cbn [scalar_format forallb]. intros H. apply andb_true_iff in H as [Hc Hf].
  rewrite (format_size_scalar c f Hc). pose proof (symbol_size_scalar c Hc).
  specialize (IH Hf). lia.
Qed.

(** The swap of a field stays in the field and undoes itself. *)
Lemma symbol_swap_involutive c i :
  is_scalar c = true -> 0 <= i < symbol_size c ->
  0 <= symbol_swap c i < symbol_size c /\ symbol_swap c (symbol_swap c i) = i.
Proof.
  intros Hc Hi. unfold symbol_swap.
  destruct (scalar_cases c Hc) as [_ [C|[C|[C|C]]]];
    repeat match goal with H : _ /\ _ |- _ => destruct H end;
    repeat match goal with H : is_chr c _ = _ |- _ => rewrite H end.
  - lia.
  - lia.
  - lia.
  - destruct (Z.ltb_spec i 2).
    + destruct (Z.ltb_spec (1 - i) 2); lia.
    + destruct (Z.ltb_spec (7 - i) 2); lia.
Qed.

Lemma format_swap_involutive : forall f i,
  scalar_format f = true -> 0 <= i < format_size f ->
  0 <= format_swap f i < format_size f /\ format_swap f (format_swap f i) = i.
Proof.
  induction f as [|c f IH]; intros i Hf Hi.
  { unfold format_size in Hi. cbn in Hi. lia. }
  cbn [scalar_format forallb] in Hf. apply andb_true_iff in Hf as [Hc Hf].
  rewrite (format_size_scalar c f Hc) in *. cbn [format_swap].
  pose proof (symbol_size_scalar c Hc) as Hk.
  destruct (Z.ltb_spec i (symbol_size c)) as [Hlt|Hge].
  - destruct (symbol_swap_involutive c i Hc ltac:(lia)) as [Hr Hinv].
    pose proof (format_size_nonneg f Hf).
    destruct (Z.ltb_spec (symbol_swap c i) (symbol_size c)); [|lia].
    split; [lia|exact Hinv].
  - destruct (IH (i - symbol_size c) Hf ltac:(lia)) as [Hr Hinv].
    destruct (Z.ltb_spec (symbol_size c + format_swap f (i - symbol_size c))
                (symbol_size c)); [lia|].
    split; [lia|].
    replace (symbol_size c + format_swap f (i - symbol_size c) - symbol_size c)
      with (format_swap f (i - symbol_size c)) by lia.
    rewrite Hinv. lia.
Qed.

(** The bytes a swapped copy leaves. *)
Lemma copy_swapped_inside m dst src (k : nat) i :
  0 <= i < Z.of_nat k ->
  copy_swapped m dst src k (dst + i) = m (src + (Z.of_nat k - 1 - i)).
Proof.
  intros Hi. unfold copy_swapped.
  replace (dst + i) with (dst + Z.of_nat (Z.to_nat i)) by lia.
  rewrite store_bytes_inside by (rewrite length_rev, length_load_bytes; lia).
  rewrite rev_nth by (rewrite length_load_bytes; lia).
  rewrite length_load_bytes, load_bytes_nth by lia. f_equal; lia.
Qed.

Lemma copy_swapped_outside m dst src (k : nat) a :
  a < dst \/ dst + Z.of_nat k <= a -> copy_swapped m dst src k a = m a.
Proof.
  intros Ha. unfold copy_swapped. apply store_bytes_outside.
  now rewrite length_rev, length_load_bytes.
Qed.

Lemma rdm_uidmove_inside m dst src i :
  0 <= i < 6 ->
  rdm_uidmove m dst src (dst + i) = m (src + (if i <? 2 then 1 - i else 7 - i)).
Proof.
  intros Hi. unfold rdm_uidmove.
  destruct (Z.ltb_spec i 2) as [Hlt|Hge].
  - rewrite store_bytes_outside by (rewrite length_rev, length_load_bytes; lia).
    fold (copy_swapped m dst src 2). rewrite copy_swapped_inside by lia.
    f_equal; lia.
  - replace (dst + i) with (dst + 2 + Z.of_nat (Z.to_nat (i - 2))) by lia.
    rewrite store_bytes_inside by (rewrite length_rev, length_load_bytes; lia).
    rewrite rev_nth by (rewrite length_load_bytes; lia).
    rewrite length_load_bytes, load_bytes_nth by lia. f_equal; lia.
Qed.

Lemma rdm_uidmove_outside m dst src a :
  a < dst \/ dst + 6 <= a -> rdm_uidmove m dst src a = m a.
Proof.
  intros Ha. unfold rdm_uidmove.
  rewrite !store_bytes_outside; [reflexivity| |];
    rewrite length_rev, length_load_bytes; lia.
Qed.

(** One field of a scalar format: the step of the inner loop. *)
Lemma emplace_fields_step fuel dst src num nulls c f1 m n :
  is_scalar c = true -> dst <> NULL -> src <> NULL ->
  exists m1,
    emplace_fields (S fuel) dst src num nulls (c :: f1) m n
    = emplace_fields fuel dst src num nulls f1 m1 (n + symbol_size c) /\
    (forall a, a < dst + n \/ dst + n + symbol_size c <= a -> m1 a = m a) /\
    (forall i, 0 <= i < symbol_size c ->
       m1 (dst + n + i) = m (src + n + symbol_swap c i)).
Proof.
  intros Hc Hdst Hsrc. cbn [emplace_fields]. unfold symbol_swap.
  replace (dst =? NULL) with false by (symmetry; now apply Z.eqb_neq).
  replace (src =? NULL) with false by (symmetry; now apply Z.eqb_neq).
  cbn [negb andb].
  destruct (scalar_cases c Hc) as [_ [C|[C|[C|C]]]];
    repeat match goal with H : _ /\ _ |- _ => destruct H end;
    repeat match goal with H : is_chr c _ = _ |- _ => rewrite H end;
    match goal with H : symbol_size c = _ |- _ => rewrite H end.
  - eexists. split; [reflexivity|]. split.
    + intros a Ha. apply copy_swapped_outside. lia.
    + intros i Hi. rewrite copy_swapped_inside by lia. f_equal; lia.
  - eexists. split; [reflexivity|]. split.
    + intros a Ha. apply copy_swapped_outside. lia.
    + intros i Hi. rewrite copy_swapped_inside by lia. f_equal; lia.
  - eexists. split; [reflexivity|]. split.
    + intros a Ha. apply copy_swapped_outside. lia.
    + intros i Hi. rewrite copy_swapped_inside by lia. f_equal; lia.
  - rewrite is_chr_uv.
    match goal with H : is_chr c ["u"; "U"]%char = true |- _ =>
      rewrite H, (is_chr_u_not_v c H) end.
    cbn [orb andb negb].
    eexists. split; [reflexivity|]. split.
    + intros a Ha. apply rdm_uidmove_outside. lia.
    + intros i Hi. rewrite rdm_uidmove_inside by lia. reflexivity.
Qed.

(** One pass over a scalar format; the content is described when the
    buffers do not overlap. *)
Lemma emplace_fields_scalar dst src num nulls : forall f fuel m n,
  scalar_format f = true -> dst <> NULL -> src <> NULL ->
  (length f < fuel)%nat ->
  exists m',
    emplace_fields fuel dst src num nulls f m n = Some (m', n + format_size f) /\
    (forall a, a < dst + n \/ dst + n + format_size f <= a -> m' a = m a) /\
    (dst + n + format_size f <= src + n \/ src + n + format_size f <= dst + n ->
     forall i, 0 <= i < format_size f ->
       m' (dst + n + i) = m (src + n + format_swap f i)).
Proof.
  induction f as [|c f IH]; intros fuel m n Hf Hdst Hsrc Hfuel.
  { destruct fuel as [|fuel]; [cbn in Hfuel; lia|].
    exists m. unfold format_size. cbn [emplace_fields format_size_from].
    rewrite Z.add_0_r. split; [reflexivity|]. split; [reflexivity|].
    intros _ i Hi. lia. }
  cbn [scalar_format forallb] in Hf. apply andb_true_iff in Hf as [Hc Hf].
  destruct fuel as [|fuel]; [cbn in Hfuel; lia|]. cbn [length] in Hfuel.
  rewrite (format_size_scalar c f Hc) in *.
  pose proof (symbol_size_scalar c Hc) as Hk.
  pose proof (format_size_nonneg f Hf) as Hs.
  destruct (emplace_fields_step fuel dst src num nulls c f m n Hc Hdst Hsrc)
    as (m1 & -> & Hout1 & Hin1).
  destruct (IH fuel m1 (n + symbol_size c) Hf Hdst Hsrc ltac:(lia))
    as (m' & He & Hout & Hin).
  exists m'. split; [rewrite He; f_equal; f_equal; lia|]. split.
  - intros a Ha. rewrite Hout by lia. apply Hout1. lia.
  - intros Hdis i Hi. cbn [format_swap].
    destruct (Z.ltb_spec i (symbol_size c)) as [Hlt|Hge].
    + rewrite Hout by lia. now apply Hin1.
    + replace (dst + n + i) with (dst + (n + symbol_size c) + (i - symbol_size c))
        by lia.
      rewrite Hin by lia.
      destruct (format_swap_involutive f (i - symbol_size c) Hf ltac:(lia)) as [Hr _].
      rewrite Hout1 by lia. f_equal; lia.
Qed.

(** The passes of the outer loop. *)
Lemma emplace_params_scalar dst src num nulls f :
  scalar_format f = true -> dst <> NULL -> src <> NULL ->
  forall count m n,
  exists m',
    emplace_params count dst src num nulls f m n
    = Some (m', n + Z.of_nat count * format_size f) /\
    (forall a, a < dst + n \/ dst + n + Z.of_nat count * format_size f <= a ->
       m' a = m a) /\
    ((dst + n + Z.of_nat count * format_size f <= src + n
      \/ src + n + Z.of_nat count * format_size f <= dst + n) ->
     forall q r, 0 <= q < Z.of_nat count -> 0 <= r < format_size f ->
       m' (dst + n + q * format_size f + r)
       = m (src + n + q * format_size f + format_swap f r)).
Proof.
  intros Hf Hdst Hsrc. pose proof (format_size_nonneg f Hf) as Hs.
  induction count as [|count IH]; intros m n.
  { exists m. cbn [emplace_params]. split; [f_equal; f_equal; lia|].
    split; [reflexivity|]. intros _ q r Hq. lia. }
  cbn [emplace_params].
  destruct (emplace_fields_scalar dst src num nulls f (S (length f)) m n Hf Hdst Hsrc
              ltac:(lia)) as (m1 & -> & Hout1 & Hin1).
  destruct (IH m1 (n + format_size f)) as (m' & He & Hout & Hin).
  exists m'. split; [rewrite He; f_equal; f_equal; lia|]. split.
  - intros a Ha. rewrite Hout by nia. apply Hout1. nia.
  - intros Hdis q r Hq Hr.
    destruct (format_swap_involutive f r Hf Hr) as [Hsw _].
    destruct (Z.eq_dec q 0) as [->|Hq0].
    + rewrite Hout by nia. rewrite !Z.mul_0_l, !Z.add_0_r. apply Hin1; [nia|lia].
    + replace (dst + n + q * format_size f + r)
        with (dst + (n + format_size f) + (q - 1) * format_size f + r) by lia.
      rewrite Hin by nia. rewrite Hout1 by nia. f_equal; lia.
Qed.

Lemma load_bytes_shift m1 m2 : forall n p q,
  (forall i, 0 <= i < Z.of_nat n -> m1 (p + i) = m2 (q + i)) ->
  load_bytes m1 p n = load_bytes m2 q n.
Proof.
  induction n as [|n IH]; intros p q H; cbn [load_bytes]; [reflexivity|].
  f_equal.
  - specialize (H 0 ltac:(lia)). now rewrite !Z.add_0_r in H.
  - apply IH. intros i Hi. specialize (H (1 + i) ltac:(lia)).
    now rewrite !Z.add_assoc in H.
Qed.

(** X30. A format made of bytes, words, double words and UIDs only is
    emplaced by reversing each number and each half of a UID, so emplacing
    is its own inverse: what [rdm_pd_emplace] wrote into a buffer, emplaced
    again with the same format into another buffer, is the source bytes; the
    second call reports the same number of bytes, a multiple of the size of
    the parameter, and writes nowhere else. The buffers of each call do not
    overlap. *)
Theorem rdm_pd_emplace_twice (m m1 : mem) (destination destination2 source : Z)
    (format : list ascii) (num n : Z) (emplace_nulls : bool) :
  scalar_format format = true ->
  destination <> NULL -> destination2 <> NULL -> source <> NULL ->
  destination + n <= source \/ source + n <= destination ->
  destination2 + n <= destination \/ destination + n <= destination2 ->
  rdm_pd_emplace m destination format source num emplace_nulls = Some (n, m1) ->
  exists m2 count,
    rdm_pd_emplace m1 destination2 format destination num emplace_nulls
    = Some (n, m2) /\
    n = count * format_size format /\ 0 <= count /\
    load_bytes m2 destination2 (Z.to_nat n) = load_bytes m source (Z.to_nat n) /\
    (forall a, a < destination2 \/ destination2 + n <= a -> m2 a = m1 a).
Proof.
  intros Hf Hd Hd2 Hs Hdis1 Hdis2 H. unfold rdm_pd_emplace in *.
  destruct (rdm_param_parse format) as [[size singleton]|] eqn:Hparse; [|discriminate].
  destruct (Z.ltb_spec size 1) as [Hsmall|Hsize].
  { injection H as <- <-. exists m, 0. repeat split; try lia; reflexivity. }
  pose proof (param_parse_loop_accepts _ _ _ _ _ _ Hparse Hsize ltac:(lia))
    as (Hsz & _ & _).
  fold (format_size format) in Hsz. rewrite Z.add_0_l in Hsz. subst size.
  set (count := Z.to_nat (if singleton then 1
                          else (if 231 <? num then 231 else num) / format_size format))
    in *.
  set (num' := if 231 <? num then 231 else num) in *.
  destruct (emplace_params_scalar destination source num' emplace_nulls format
              Hf Hd Hs count m 0) as (m1' & E1 & Hout1 & Hin1).
  rewrite E1 in H. injection H as <- <-.
  destruct (emplace_params_scalar destination2 destination num' emplace_nulls format
              Hf Hd2 Hd count m1' 0) as (m2 & E2 & Hout2 & Hin2).
  rewrite E2. exists m2, (Z.of_nat count).
  rewrite !Z.add_0_l, !Z.add_0_r in *.
  set (S_ := format_size format) in *.
  split; [reflexivity|]. split; [reflexivity|]. split; [lia|]. split.
  - apply load_bytes_shift. intros i Hi.
    assert (Hq : 0 <= i / S_ < Z.of_nat count).
    { split; [apply Z.div_pos; lia|]. apply Z.div_lt_upper_bound; nia. }
    assert (Hr : 0 <= i mod S_ < S_) by (apply Z.mod_pos_bound; lia).
    assert (Hi' : i = i / S_ * S_ + i mod S_)
      by (rewrite (Z.mul_comm (i / S_)); apply Z.div_mod; lia).
    destruct (format_swap_involutive format (i mod S_) Hf Hr) as [Hsw Hinv].
    fold S_ in Hsw.
    rewrite Hi' at 1. rewrite Z.add_assoc, (Hin2 ltac:(lia) _ _ Hq Hr).
    rewrite (Hin1 ltac:(lia) _ _ Hq Hsw), Hinv.
    f_equal. lia.
  - intros a Ha. apply Hout2. lia.
Qed.

Lemma rdm_pd_emplace_twice_witness :
  exists m1 m2,
    rdm_pd_emplace mem_letters 0x3ffc0000 ["w"; "d"; "u"]%char 0x3ffc0100 24 false
    = Some (24, m1) /\
    rdm_pd_emplace m1 0x3ffc0200 ["w"; "d"; "u"]%char 0x3ffc0000 24 false
    = Some (24, m2).
Proof.
  destruct (rdm_pd_emplace mem_letters 0x3ffc0000 ["w"; "d"; "u"]%char 0x3ffc0100 24
              false) as [[n m1]|] eqn:E; [|vm_compute in E; discriminate].
  assert (Hn : n = 24) by (vm_compute in E; congruence).
  subst n. exists m1.
  destruct (rdm_pd_emplace_twice mem_letters m1 0x3ffc0000 0x3ffc0200 0x3ffc0100
              ["w"; "d"; "u"]%char 24 24 false eq_refl)
    as (m2 & count & E2 & _); try discriminate; try lia; [exact E|].
  exists m2. split; [reflexivity|exact E2].
Defined.

End EmplaceScalars.
